(** * ReWin migration tool: scanner export and restore orchestration

    A shallow embedding of the two GUI programs of the repository,
    [src/gui/scanner_gui.py] (scan selection, package export, install-script
    generation) and [src/gui/restore_gui.py] (resolver-report parsing, phased
    restore), followed by the properties of the specification that concern
    them.

    Conventions of the embedding.
    - A Python [str] is a Rocq [string]; its characters are the code points
      below 256, which is the range on which the character tables below
      ([isspace], [lower], [isprintable]) are those of CPython.
    - A value read by [json.load] is a [json]; a Python [dict] is the list
      of its items in insertion order, because the programs iterate over
      their dictionaries and the order is observable in what they write.
    - A directory is a finite map from file names to file contents, and a
      file is the text written to it: its bytes (the UTF-8 encoding, the
      platform's line ends) are a function of that text.
    - A handler that runs in a worker thread is modelled by its body; what
      it hands to the event loop takes effect in the order the program
      issues it. A callback handed over inside an [except] block runs
      after the block has ended, when the exception's name is unbound. *)

From Stdlib Require Import String Ascii List ZArith Lia DecimalString.
From stdpp Require Import gmap strings list.

Set Warnings "-register-all".

(** ** Python built-ins used by the programs *)

Module Py.

Definition chr (n : nat) : ascii := ascii_of_nat n.
Definition ord (c : ascii) : nat := nat_of_ascii c.

(** The line feed and the double quote, as one-character strings. *)
Definition LF : string := String (chr 10) "".
Definition DQ : string := String (chr 34) "".
Definition BSL : string := String (chr 92) "".

(** [str.isspace] on one character, which is also the class [\s] of [re]
    for [str] patterns. *)
Definition isspace (c : ascii) : bool :=
  let n := ord c in
  (((9 <=? n) && (n <=? 13)) || ((28 <=? n) && (n <=? 32))
   || (n =? 133) || (n =? 160))%nat.

(** [str.lower] on one character. *)
Definition lower_char (c : ascii) : ascii :=
  let n := ord c in
  if (((65 <=? n) && (n <=? 90))
      || ((192 <=? n) && (n <=? 222) && negb (n =? 215)))%nat
  then chr (n + 32) else c.

Fixpoint lower (s : string) : string :=
  match s with
  | "" => ""
  | String c r => String (lower_char c) (lower r)
  end.

(** [needle in hay] on strings. *)
Fixpoint str_in (needle hay : string) : bool :=
  if String.prefix needle hay then true
  else match hay with
       | "" => false
       | String _ r => str_in needle r
       end.

(** [str.startswith], returning what follows the prefix. *)
Fixpoint strip_prefix (p s : string) : option string :=
  match p, s with
  | "", _ => Some s
  | String a p', String b s' =>
      if Ascii.eqb a b then strip_prefix p' s' else None
  | String _ _, "" => None
  end.

Fixpoint lstrip_by (p : ascii -> bool) (s : string) : string :=
  match s with
  | "" => ""
  | String c r => if p c then lstrip_by p r else s
  end.

Fixpoint rstrip_by (p : ascii -> bool) (s : string) : string :=
  match s with
  | "" => ""
  | String c r =>
      match rstrip_by p r with
      | "" => if p c then "" else String c ""
      | r' => String c r'
      end
  end.

(** [s.strip()] *)
Definition strip (s : string) : string := rstrip_by isspace (lstrip_by isspace s).

Fixpoint char_in (c : ascii) (chars : string) : bool :=
  match chars with
  | "" => false
  | String d r => Ascii.eqb c d || char_in c r
  end.

(** [s.rstrip(chars)] *)
Definition rstrip (chars s : string) : string :=
  rstrip_by (fun c => char_in c chars) s.

(** ["=" * 50] and the like. *)
Fixpoint repeat_str (s : string) (n : nat) : string :=
  match n with
  | O => ""
  | S k => s +:+ repeat_str s k
  end.

Definition hex_digit (n : nat) : ascii :=
  if (n <? 10)%nat then chr (48 + n) else chr (87 + n).

Definition hex2 (n : nat) : string :=
  String (hex_digit (n / 16)) (String (hex_digit (n mod 16)) "").

(** *** JSON values *)

(** What [json.load] returns. A float carries the text of its [repr]. *)
Inductive json : Type :=
  | JNull
  | JBool (b : bool)
  | JInt (n : Z)
  | JFloat (repr : string)
  | JStr (s : string)
  | JList (l : list json)
  | JDict (d : list (string * json)).

Abbreviation dict := (list (string * json)).

(** [d.get(k)]: [None] stands for a missing key. *)
Fixpoint dict_lookup (d : dict) (k : string) : option json :=
  match d with
  | [] => None
  | (k', v) :: r => if String.eqb k k' then Some v else dict_lookup r k
  end.

(** [d.get(k, default)] *)
Definition get_default (d : dict) (k : string) (default : json) : json :=
  match dict_lookup d k with
  | Some v => v
  | None => default
  end.

(** [d.get(k)], whose default is the Python [None]. *)
Definition get (d : dict) (k : string) : json := get_default d k JNull.

(** The truth value of an object. *)
Definition truthy (v : json) : bool :=
  match v with
  | JNull => false
  | JBool b => b
  | JInt n => negb (n =? 0)%Z
  | JFloat r => negb (String.eqb r "0.0" || String.eqb r "-0.0")
  | JStr s => negb (String.eqb s "")
  | JList l => match l with [] => false | _ => true end
  | JDict d => match d with [] => false | _ => true end
  end.

Definition int_repr (n : Z) : string := NilZero.string_of_int (Z.to_int n).

(** [str.isprintable] on one character. *)
Definition isprintable (c : ascii) : bool :=
  let n := ord c in
  (((32 <=? n) && (n <=? 126)) || ((161 <=? n) && negb (n =? 173)))%nat.

(** [repr] of a string: single quotes, unless the string holds a single
    quote and no double quote. *)
Definition repr_char (quote : ascii) (c : ascii) : string :=
  let n := ord c in
  if Ascii.eqb c quote || (n =? 92)%nat then BSL +:+ String c ""
  else if (n =? 9)%nat then BSL +:+ "t"
  else if (n =? 10)%nat then BSL +:+ "n"
  else if (n =? 13)%nat then BSL +:+ "r"
  else if isprintable c then String c ""
  else BSL +:+ "x" +:+ hex2 n.

Fixpoint repr_chars (quote : ascii) (s : string) : string :=
  match s with
  | "" => ""
  | String c r => repr_char quote c +:+ repr_chars quote r
  end.

Definition str_repr (s : string) : string :=
  let quote := if char_in (chr 39) s && negb (char_in (chr 34) s)
               then chr 34 else chr 39 in
  String quote "" +:+ repr_chars quote s +:+ String quote "".

Fixpoint repr (v : json) : string :=
  match v with
  | JNull => "None"
  | JBool true => "True"
  | JBool false => "False"
  | JInt n => int_repr n
  | JFloat r => r
  | JStr s => str_repr s
  | JList l => "[" +:+ String.concat ", " (map repr l) +:+ "]"
  | JDict d =>
      "{" +:+ String.concat ", "
                (map (fun kv => str_repr (fst kv) +:+ ": " +:+ repr (snd kv)) d)
          +:+ "}"
  end.

(** [str(v)], which is what an f-string field renders. *)
Definition str (v : json) : string :=
  match v with
  | JStr s => s
  | _ => repr v
  end.

(** *** json.dump(obj, f, indent=2) *)

(** [json.encoder.py_encode_basestring_ascii] *)
Definition escape_char (c : ascii) : string :=
  let n := ord c in
  if (n =? 92)%nat then BSL +:+ BSL
  else if (n =? 34)%nat then BSL +:+ DQ
  else if (n =? 8)%nat then BSL +:+ "b"
  else if (n =? 12)%nat then BSL +:+ "f"
  else if (n =? 10)%nat then BSL +:+ "n"
  else if (n =? 13)%nat then BSL +:+ "r"
  else if (n =? 9)%nat then BSL +:+ "t"
  else if ((32 <=? n) && (n <=? 126))%nat then String c ""
  else BSL +:+ "u00" +:+ hex2 n.

Fixpoint escape_chars (s : string) : string :=
  match s with
  | "" => ""
  | String c r => escape_char c +:+ escape_chars r
  end.

Definition encode_basestring_ascii (s : string) : string :=
  DQ +:+ escape_chars s +:+ DQ.

Definition floatstr (r : string) : string :=
  if String.eqb r "nan" then "NaN"
  else if String.eqb r "inf" then "Infinity"
  else if String.eqb r "-inf" then "-Infinity"
  else r.

Definition newline_indent (level : nat) : string :=
  LF +:+ repeat_str "  " level.

Fixpoint iterencode (level : nat) (o : json) : string :=
  match o with
  | JNull => "null"
  | JBool true => "true"
  | JBool false => "false"
  | JInt n => int_repr n
  | JFloat r => floatstr r
  | JStr s => encode_basestring_ascii s
  | JList l =>
      match l with
      | [] => "[]"
      | _ => "[" +:+ newline_indent (S level)
             +:+ String.concat ("," +:+ newline_indent (S level))
                   (map (iterencode (S level)) l)
             +:+ newline_indent level +:+ "]"
      end
  | JDict d =>
      match d with
      | [] => "{}"
      | _ => "{" +:+ newline_indent (S level)
             +:+ String.concat ("," +:+ newline_indent (S level))
                   (map (fun kv => encode_basestring_ascii (fst kv) +:+ ": "
                                   +:+ iterencode (S level) (snd kv)) d)
             +:+ newline_indent level +:+ "}"
      end
  end.

Definition json_dump (o : json) : string := iterencode 0 o.

(** *** Dictionaries in insertion order *)

Section odict.
Context {K V : Type} `{EqDecision K}.

(** [k in d] *)
Definition od_mem (d : list (K * V)) (k : K) : bool :=
  bool_decide (k ∈ map fst d).

(** [d[k]] for a key that may be missing *)
Fixpoint od_get (d : list (K * V)) (k : K) : option V :=
  match d with
  | [] => None
  | (k', v) :: r => if decide (k = k') then Some v else od_get r k
  end.

(** [d[k] = v]: an existing key keeps its place, a new key goes last. *)
Fixpoint od_set (d : list (K * V)) (k : K) (v : V) : list (K * V) :=
  match d with
  | [] => [(k, v)]
  | (k', v') :: r =>
      if decide (k = k') then (k', v) :: r else (k', v') :: od_set r k v
  end.
End odict.

End Py.

(** ** The scanner GUI: [src/gui/scanner_gui.py] *)

Module Scanner.
Import Py.

(** *** Scan data

    [self.scan_data], as [_load_scan_from_path] fills it from the files of a
    scan directory. The files have the shape the scanner writes:
    [package_mappings.json] is an array of objects, [software_inventory.json]
    an object whose [InstalledSoftware] and [StoreApps] are arrays of objects,
    [license_keys.json] an object whose [Windows] is an object and whose
    [Office] and [WiFiProfiles] are arrays of objects. An absent key is
    [None]. A key that holds [null], or a value that is not an array of
    objects, has no counterpart here: the code raises when it iterates over
    such a value, and what is proved below of a load is proved of scans of
    this shape. *)

Record Inventory := {
  InstalledSoftware : option (list dict);
  StoreApps : option (list dict)
}.

Record Licenses := {
  Windows : option dict;
  Office : option (list dict);
  WiFiProfiles : option (list dict)
}.

Record ScanData := {
  sd_software : option Inventory;
  sd_mappings : option (list dict);
  sd_licenses : option Licenses;
  sd_config : option json
}.

(** [x.get(k, [])] on a key that is absent or holds an array. *)
Definition or_empty {A} (o : option (list A)) : list A :=
  match o with Some l => l | None => [] end.

(** *** Tree widgets

    Item identifiers are the strings [f'sw_{i}'] and [f'store_{i}'];
    [iid_index] is [int(item.split('_')[1])]. *)

Inductive iid : Type :=
  | sw_ (i : nat)
  | store_ (i : nat).

#[global] Instance iid_eq_dec : EqDecision iid.
Proof. solve_decision. Defined.

Definition iid_index (item : iid) : nat :=
  match item with
  | sw_ i => i
  | store_ i => i
  end.

(** A row: the checkbox glyph of column [#0] ([true] for the ticked box)
    and the tuple of column values. *)
Record Row := {
  text : bool;
  values : list string
}.

(** A [ttk.Treeview] with a flat list of rows. [items] holds every item of
    the widget, detached ones included; [children] is [get_children('')],
    the attached items in display order. *)
Record Treeview := {
  items : list (iid * Row);
  children : list iid
}.

Definition empty_tree : Treeview := {| items := []; children := [] |}.

(** [tree.delete(item)] *)
Definition tree_delete (t : Treeview) (item : iid) : Treeview :=
  {| items := filter (fun kv => kv.1 ≠ item) (items t);
     children := filter (fun c => c ≠ item) (children t) |}.

(** [tree.insert('', 'end', iid=item, text=.., values=..)]; Tk refuses an
    identifier that the widget already holds. *)
Definition tree_insert (t : Treeview) (item : iid) (r : Row)
  : option Treeview :=
  if od_mem (items t) item then None
  else Some {| items := items t ++ [(item, r)];
               children := children t ++ [item] |}.

(** [tree.item(item, text=..)] *)
Definition tree_set_text (t : Treeview) (item : iid) (b : bool) : Treeview :=
  {| items := map (fun kv => if decide (kv.1 = item)
                             then (kv.1, {| text := b; values := values kv.2 |})
                             else kv) (items t);
     children := children t |}.

(** [tree.item(item, 'values')] *)
Definition tree_values (t : Treeview) (item : iid) : option (list string) :=
  values <$> od_get (items t) item.

(** [tree.detach(item)] *)
Definition tree_detach (t : Treeview) (item : iid) : Treeview :=
  {| items := items t;
     children := filter (fun c => c ≠ item) (children t) |}.

(** [tree.reattach(item, '', 'end')] *)
Definition tree_reattach (t : Treeview) (item : iid) : Treeview :=
  {| items := items t;
     children := filter (fun c => c ≠ item) (children t) ++ [item] |}.

(** [tree.identify_row(event.y)]: the event's ordinate counted in rows;
    below the last row Tk answers the empty string, here [None]. *)
Definition identify_row (t : Treeview) (y : nat) : option iid :=
  children t !! y.

(** *** The application state *)

Inductive category : Type := software | store_apps.

#[global] Instance category_eq_dec : EqDecision category.
Proof. solve_decision. Defined.

Record ScannerGUI := {
  scan_data : option ScanData;
  current_scan_path : option string;
  all_sw_iids : list iid;
  all_store_iids : list iid;
  selections_software : list (iid * bool);
  selections_store_apps : list (iid * bool);
  software_tree : Treeview;
  store_apps_tree : Treeview;
  software_search : string;
  store_apps_search : string;
  config_options : list (string * bool);
  include_windows_key : bool;
  include_office_keys : bool;
  include_wifi : bool
}.

(** [self.selections[category]] *)
Definition selections (g : ScannerGUI) (c : category) : list (iid * bool) :=
  match c with
  | software => selections_software g
  | store_apps => selections_store_apps g
  end.

(** [getattr(self, f'{category}_tree')] *)
Definition tree (g : ScannerGUI) (c : category) : Treeview :=
  match c with
  | software => software_tree g
  | store_apps => store_apps_tree g
  end.

Definition all_iids (g : ScannerGUI) (c : category) : list iid :=
  match c with
  | software => all_sw_iids g
  | store_apps => all_store_iids g
  end.

Definition search (g : ScannerGUI) (c : category) : string :=
  match c with
  | software => software_search g
  | store_apps => store_apps_search g
  end.

Definition set_selections (g : ScannerGUI) (c : category)
  (d : list (iid * bool)) : ScannerGUI :=
  {| scan_data := scan_data g;
     current_scan_path := current_scan_path g;
     all_sw_iids := all_sw_iids g;
     all_store_iids := all_store_iids g;
     selections_software :=
       match c with software => d | _ => selections_software g end;
     selections_store_apps :=
       match c with store_apps => d | _ => selections_store_apps g end;
     software_tree := software_tree g;
     store_apps_tree := store_apps_tree g;
     software_search := software_search g;
     store_apps_search := store_apps_search g;
     config_options := config_options g;
     include_windows_key := include_windows_key g;
     include_office_keys := include_office_keys g;
     include_wifi := include_wifi g |}.

Definition set_tree (g : ScannerGUI) (c : category) (t : Treeview)
  : ScannerGUI :=
  {| scan_data := scan_data g;
     current_scan_path := current_scan_path g;
     all_sw_iids := all_sw_iids g;
     all_store_iids := all_store_iids g;
     selections_software := selections_software g;
     selections_store_apps := selections_store_apps g;
     software_tree := match c with software => t | _ => software_tree g end;
     store_apps_tree :=
       match c with store_apps => t | _ => store_apps_tree g end;
     software_search := software_search g;
     store_apps_search := store_apps_search g;
     config_options := config_options g;
     include_windows_key := include_windows_key g;
     include_office_keys := include_office_keys g;
     include_wifi := include_wifi g |}.

Definition set_all_iids (g : ScannerGUI) (c : category) (l : list iid)
  : ScannerGUI :=
  {| scan_data := scan_data g;
     current_scan_path := current_scan_path g;
     all_sw_iids := match c with software => l | _ => all_sw_iids g end;
     all_store_iids := match c with store_apps => l | _ => all_store_iids g end;
     selections_software := selections_software g;
     selections_store_apps := selections_store_apps g;
     software_tree := software_tree g;
     store_apps_tree := store_apps_tree g;
     software_search := software_search g;
     store_apps_search := store_apps_search g;
     config_options := config_options g;
     include_windows_key := include_windows_key g;
     include_office_keys := include_office_keys g;
     include_wifi := include_wifi g |}.

Definition set_search (g : ScannerGUI) (c : category) (term : string)
  : ScannerGUI :=
  {| scan_data := scan_data g;
     current_scan_path := current_scan_path g;
     all_sw_iids := all_sw_iids g;
     all_store_iids := all_store_iids g;
     selections_software := selections_software g;
     selections_store_apps := selections_store_apps g;
     software_tree := software_tree g;
     store_apps_tree := store_apps_tree g;
     software_search :=
       match c with software => term | _ => software_search g end;
     store_apps_search :=
       match c with store_apps => term | _ => store_apps_search g end;
     config_options := config_options g;
     include_windows_key := include_windows_key g;
     include_office_keys := include_office_keys g;
     include_wifi := include_wifi g |}.

Definition set_include_office_keys (g : ScannerGUI) (b : bool) : ScannerGUI :=
  {| scan_data := scan_data g;
     current_scan_path := current_scan_path g;
     all_sw_iids := all_sw_iids g;
     all_store_iids := all_store_iids g;
     selections_software := selections_software g;
     selections_store_apps := selections_store_apps g;
     software_tree := software_tree g;
     store_apps_tree := store_apps_tree g;
     software_search := software_search g;
     store_apps_search := store_apps_search g;
     config_options := config_options g;
     include_windows_key := include_windows_key g;
     include_office_keys := b;
     include_wifi := include_wifi g |}.

(** The keys of [self.config_options], in the order [_create_configs_tab]
    creates them; every box starts ticked. *)
Definition config_keys : list string :=
  [ "env_vars"; "scheduled_tasks"; "services"; "file_assoc"; "network";
    "explorer"; "vscode"; "git_config"; "ssh_config"; "terminal";
    "browser_bookmarks"; "powershell" ].

(** The state [__init__] builds. *)
Definition init : ScannerGUI :=
  {| scan_data := None;
     current_scan_path := None;
     all_sw_iids := [];
     all_store_iids := [];
     selections_software := [];
     selections_store_apps := [];
     software_tree := empty_tree;
     store_apps_tree := empty_tree;
     software_search := "";
     store_apps_search := "";
     config_options := map (fun k => (k, true)) config_keys;
     include_windows_key := true;
     include_office_keys := true;
     include_wifi := true |}.

(** *** Loading a scan: [_populate_ui] *)

(** A handler either runs to its end or raises; in both cases it leaves a
    state behind. *)
Inductive outcome : Type :=
  | Done (g : ScannerGUI)
  | Raised (g : ScannerGUI).

Definition state_of (o : outcome) : ScannerGUI :=
  match o with
  | Done g => g
  | Raised g => g
  end.

Definition and_then (o : outcome) (k : ScannerGUI -> outcome) : outcome :=
  match o with
  | Done g => k g
  | Raised g => Raised g
  end.

(** [if not self.scan_data]: no scan loaded, or a scan directory that held
    none of the four files. *)
Definition scan_data_falsy (sd : option ScanData) : bool :=
  match sd with
  | None => true
  | Some d =>
      match sd_software d, sd_mappings d, sd_licenses d, sd_config d with
      | None, None, None, None => true
      | _, _, _, _ => false
      end
  end.

(** [for item in tree.get_children(): tree.delete(item)] *)
Definition tree_clear (t : Treeview) : Treeview :=
  fold_left tree_delete (children t) t.

(** [a or b] *)
Definition py_or (a b : json) : json := if truthy a then a else b.

(** The text a tree cell holds for a value. The widget's own conversions
    of cell text are left out; they bear on which rows a search displays,
    and the properties below hold whatever rows are displayed. *)
Definition cell (v : json) : string := Py.str v.

Definition mapping_row (item : dict) : list string :=
  [ cell (get_default item "SoftwareName" (JStr ""));
    cell (get_default item "Version" (JStr ""));
    cell (get_default item "Publisher" (JStr ""));
    cell (get_default item "InstallMethod" (JStr "Manual"));
    cell (py_or (get item "WingetId")
                (py_or (get item "ChocolateyId") (JStr ""))) ].

Definition installed_row (item : dict) : list string :=
  [ cell (get_default item "Name" (JStr ""));
    cell (get_default item "Version" (JStr ""));
    cell (get_default item "Publisher" (JStr ""));
    "Unknown"; "" ].

Definition store_row (item : dict) : list string :=
  [ cell (get_default item "Name" (JStr ""));
    cell (get_default item "Version" (JStr ""));
    cell (get_default item "Publisher" (JStr "")) ].

(** The body shared by the three [for i, item in enumerate(..)] loops:
    insert the row, record the selection, remember the identifier. The
    insertion comes first, so a refused identifier leaves the selection of
    that row as it was. *)
Fixpoint populate_rows (c : category) (mk : nat -> iid) (checked : bool)
  (rows : list (list string)) (i : nat) (g : ScannerGUI) : outcome :=
  match rows with
  | [] => Done g
  | vals :: rest =>
      match tree_insert (tree g c) (mk i) {| text := checked; values := vals |} with
      | None => Raised g
      | Some t =>
          let g1 := set_tree g c t in
          let g2 := set_selections g1 c (od_set (selections g1 c) (mk i) checked) in
          let g3 := set_all_iids g2 c (all_iids g2 c ++ [mk i]) in
          populate_rows c mk checked rest (S i) g3
      end
  end.

(** An Office key shown masked: ['PARTIAL' in k or '*' in k or len(k) < 20]
    for [k = str(key.get('ProductKey', 'N/A'))]. *)
Definition masked_key (key : dict) : bool :=
  let k := Py.str (get_default key "ProductKey" (JStr "N/A")) in
  str_in "PARTIAL" k || str_in "*" k || (String.length k <? 20)%nat.

Definition populate_licenses (d : ScanData) (g : ScannerGUI) : ScannerGUI :=
  match sd_licenses d with
  | None => g
  | Some lic =>
      if existsb masked_key (or_empty (Office lic))
      then set_include_office_keys g false
      else g
  end.

(** [_populate_ui]. The widgets that only display (the Windows key field,
    the Office text, the WiFi tree) are left out. *)
Definition populate_ui (g : ScannerGUI) : outcome :=
  if scan_data_falsy (scan_data g) then Done g
  else
    match scan_data g with
    | None => Done g
    | Some d =>
        let g1 := set_tree g software (tree_clear (software_tree g)) in
        let g2 := set_tree g1 store_apps (tree_clear (store_apps_tree g1)) in
        let g3 := set_all_iids (set_all_iids g2 software []) store_apps [] in
        and_then
          match sd_mappings d, sd_software d with
          | Some m, _ =>
              populate_rows software sw_ true (map mapping_row m) 0 g3
          | None, Some inv =>
              populate_rows software sw_ true
                (map installed_row (or_empty (InstalledSoftware inv))) 0 g3
          | None, None => Done g3
          end
          (fun g4 =>
        and_then
          match sd_software d with
          | Some inv =>
              populate_rows store_apps store_ false
                (map store_row (or_empty (StoreApps inv))) 0 g4
          | None => Done g4
          end
          (fun g5 => Done (populate_licenses d g5)))
    end.

(** [_load_scan_from_path], given what the directory's files parse to. *)
Definition load_scan (g : ScannerGUI) (path : string) (d : ScanData)
  : outcome :=
  populate_ui
    {| scan_data := Some d;
       current_scan_path := Some path;
       all_sw_iids := all_sw_iids g;
       all_store_iids := all_store_iids g;
       selections_software := selections_software g;
       selections_store_apps := selections_store_apps g;
       software_tree := software_tree g;
       store_apps_tree := store_apps_tree g;
       software_search := software_search g;
       store_apps_search := store_apps_search g;
       config_options := config_options g;
       include_windows_key := include_windows_key g;
       include_office_keys := include_office_keys g;
       include_wifi := include_wifi g |}.

(** *** Selection handlers *)

(** [_toggle_selection(event, category)] *)
Definition toggle_selection (g : ScannerGUI) (c : category) (y : nat)
  : ScannerGUI :=
  match identify_row (tree g c) y with
  | None => g
  | Some item =>
      match od_get (selections g c) item with
      | Some b =>
          set_tree (set_selections g c (od_set (selections g c) item (negb b)))
                   c (tree_set_text (tree g c) item (negb b))
      | None => g
      end
  end.

(** One round of the loop of [_select_all] ([b] is [true]) and of
    [_deselect_all] ([b] is [false]): a missing key is first entered with
    the opposite value. *)
Definition mark (c : category) (b : bool) (g : ScannerGUI) (item : iid)
  : ScannerGUI :=
  let sel0 := selections g c in
  let sel1 := if od_mem sel0 item then sel0 else od_set sel0 item (negb b) in
  set_tree (set_selections g c (od_set sel1 item b))
           c (tree_set_text (tree g c) item b).

(** [_select_all(category)] *)
Definition select_all (g : ScannerGUI) (c : category) : ScannerGUI :=
  match children (tree g c) with
  | [] => g
  | ch => fold_left (mark c true) ch g
  end.

(** [_deselect_all(category)] *)
Definition deselect_all (g : ScannerGUI) (c : category) : ScannerGUI :=
  match children (tree g c) with
  | [] => g
  | ch => fold_left (mark c false) ch g
  end.

(** [_select_winget] *)
Definition mark_winget (g : ScannerGUI) (item : iid) : ScannerGUI :=
  let vals := default [] (tree_values (software_tree g) item) in
  let method := if (3 <? length vals)%nat then default "" (vals !! 3) else "" in
  let selected := String.eqb method "Winget" in
  set_tree (set_selections g software
              (od_set (selections_software g) item selected))
           software (tree_set_text (software_tree g) item selected).

Definition select_winget (g : ScannerGUI) : ScannerGUI :=
  fold_left mark_winget (children (software_tree g)) g.

(** *** Search filter: [_filter_software] and [_filter_store_apps] *)

(** The loop over [self.all_sw_iids]; [visible_items] is computed once,
    before the loop. An identifier the widget does not hold makes
    [tree.item] raise, which ends the callback. *)
Fixpoint filter_loop (search_term : string) (visible_items : list iid)
  (t : Treeview) (iids : list iid) : Treeview :=
  match iids with
  | [] => t
  | item :: rest =>
      match tree_values t item with
      | None => t
      | Some [] => filter_loop search_term visible_items t rest
      | Some vals =>
          let name := lower (default "" (vals !! 0)) in
          let publisher :=
            if (2 <? length vals)%nat then lower (default "" (vals !! 2))
            else "" in
          let is_visible := bool_decide (item ∈ visible_items) in
          let t' :=
            if str_in search_term name || str_in search_term publisher
            then if is_visible then t else tree_reattach t item
            else if is_visible then tree_detach t item else t in
          filter_loop search_term visible_items t' rest
      end
  end.

Definition filter_tree (g : ScannerGUI) (c : category) : ScannerGUI :=
  let search_term := lower (search g c) in
  let visible_items := children (tree g c) in
  set_tree g c (filter_loop search_term visible_items (tree g c) (all_iids g c)).

(** Typing in a search box: the variable is written and its trace runs the
    filter. *)
Definition type_search (g : ScannerGUI) (c : category) (term : string)
  : ScannerGUI :=
  filter_tree (set_search g c term) c.

(** *** Export: [_export_selection] *)

(** The dictionary [package]. *)
Record Package := {
  export_date : string;
  drives : list (string * string);
  pkg_software : list dict;
  pkg_store_apps : list dict;
  configs : list (string * bool);
  licenses : dict
}.

(** The loop
    [for item, selected in sel.items(): if selected: idx = ..;
     if idx < len(src): out.append(f(src[idx]))]. *)
Definition export_selected {A B} (f : A -> B) (sel : list (iid * bool))
  (src : list A) : list B :=
  flat_map (fun kv : iid * bool =>
              if kv.2 then
                match src !! iid_index kv.1 with
                | Some x => [f x]
                | None => []
                end
              else []) sel.

Definition manual_entry (sw_item : dict) : dict :=
  [ ("SoftwareName", get_default sw_item "Name" (JStr ""));
    ("Version", get_default sw_item "Version" (JStr ""));
    ("Publisher", get_default sw_item "Publisher" (JStr ""));
    ("InstallMethod", JStr "Manual") ].

Definition store_entry (store_app : dict) : dict :=
  [ ("Name", get_default store_app "Name" (JStr ""));
    ("Version", get_default store_app "Version" (JStr ""));
    ("Publisher", get_default store_app "Publisher" (JStr ""));
    ("PackageFamilyName", get_default store_app "PackageFamilyName" (JStr "")) ].

Definition export_software (g : ScannerGUI) (d : ScanData) : list dict :=
  match sd_mappings d, sd_software d with
  | Some m, _ => export_selected id (selections_software g) m
  | None, Some inv =>
      match InstalledSoftware inv with
      | Some sw_list => export_selected manual_entry (selections_software g) sw_list
      | None => []
      end
  | None, None => []
  end.

Definition export_store_apps (g : ScannerGUI) (d : ScanData) : list dict :=
  match sd_software d with
  | Some inv =>
      match StoreApps inv with
      | Some l => export_selected store_entry (selections_store_apps g) l
      | None => []
      end
  | None => []
  end.

Definition dicts (l : list dict) : json := JList (map JDict l).

Definition export_licenses (g : ScannerGUI) (d : ScanData) : dict :=
  [ ("include_windows", JBool (include_windows_key g));
    ("include_office", JBool (include_office_keys g));
    ("include_wifi", JBool (include_wifi g)) ]
  ++ match sd_licenses d with
     | Some lic =>
         (if include_windows_key g
          then [("windows_key", JDict (default [] (Windows lic)))] else [])
         ++ (if include_office_keys g
             then [("office_keys", dicts (or_empty (Office lic)))] else [])
         ++ (if include_wifi g
             then [("wifi_profiles", dicts (or_empty (WiFiProfiles lic)))] else [])
     | None => []
     end.

(** The package built inside the [try]; with no scan loaded the first test
    on [self.scan_data] raises and the handler reports the failure. *)
Definition build_package (g : ScannerGUI) : option Package :=
  match scan_data g with
  | None => None
  | Some d =>
      Some {| export_date := "";
              drives := [("primary", "C:"); ("secondary", "D:"); ("data", "D:")];
              pkg_software := export_software g d;
              pkg_store_apps := export_store_apps g d;
              configs := config_options g;
              licenses := export_licenses g d |}
  end.

(** The package as the object handed to [json.dump]. *)
Definition package_json (p : Package) : json :=
  JDict [ ("export_date", JStr (export_date p));
          ("drives", JDict (map (fun kv => (kv.1, JStr kv.2)) (drives p)));
          ("software", dicts (pkg_software p));
          ("store_apps", dicts (pkg_store_apps p));
          ("configs", JDict (map (fun kv => (kv.1, JBool kv.2)) (configs p)));
          ("licenses", JDict (licenses p)) ].

(** *** Install scripts: [_generate_install_scripts] *)

(** [[s['WingetId'] for s in package['software'] if s.get('WingetId')]] *)
Definition winget_entry (s : dict) : bool := truthy (get s "WingetId").

Definition winget_pkgs (sw : list dict) : list json :=
  map (fun s => get s "WingetId") (List.filter winget_entry sw).

(** [[s['ChocolateyId'] for s in package['software']
      if s.get('ChocolateyId') and not s.get('WingetId')]] *)
Definition choco_entry (s : dict) : bool :=
  truthy (get s "ChocolateyId") && negb (truthy (get s "WingetId")).

Definition choco_pkgs (sw : list dict) : list json :=
  map (fun s => get s "ChocolateyId") (List.filter choco_entry sw).

Definition unlines (l : list string) : string :=
  String.concat "" (map (fun x => x +:+ LF) l).

(** [f'    "{pkg}",\n'] *)
Definition pkg_line (pkg : json) : string :=
  "    " +:+ DQ +:+ Py.str pkg +:+ DQ +:+ "," +:+ LF.

Definition winget_header : string :=
  unlines [ "# ReWin - Winget Installation Script";
            "# Run this after Windows installation";
            "";
            "Write-Host " +:+ DQ +:+ "Installing software via Winget..." +:+ DQ
              +:+ " -ForegroundColor Cyan";
            "";
            "$packages = @(" ].

Definition winget_footer : string :=
  unlines [ ")";
            "";
            "foreach ($pkg in $packages) {";
            "    Write-Host " +:+ DQ +:+ "Installing $pkg..." +:+ DQ
              +:+ " -ForegroundColor Yellow";
            "    winget install --id $pkg --accept-source-agreements --accept-package-agreements -h";
            "}";
            "";
            "Write-Host " +:+ DQ +:+ "Installation complete!" +:+ DQ
              +:+ " -ForegroundColor Green" ].

Definition choco_header : string :=
  unlines [ "# ReWin - Chocolatey Installation Script";
            "# Run this after Windows installation";
            "";
            "# Install Chocolatey if not present";
            "if (!(Get-Command choco -ErrorAction SilentlyContinue)) {";
            "    Write-Host " +:+ DQ +:+ "Installing Chocolatey..." +:+ DQ
              +:+ " -ForegroundColor Yellow";
            "    Set-ExecutionPolicy Bypass -Scope Process -Force";
            "    [System.Net.ServicePointManager]::SecurityProtocol = [System.Net.ServicePointManager]::SecurityProtocol -bor 3072";
            "    iex ((New-Object System.Net.WebClient).DownloadString('https://community.chocolatey.org/install.ps1'))";
            "}";
            "";
            "Write-Host " +:+ DQ +:+ "Installing software via Chocolatey..." +:+ DQ
              +:+ " -ForegroundColor Cyan";
            "";
            "$packages = @(" ].

Definition choco_footer : string :=
  unlines [ ")";
            "";
            "foreach ($pkg in $packages) {";
            "    Write-Host " +:+ DQ +:+ "Installing $pkg..." +:+ DQ
              +:+ " -ForegroundColor Yellow";
            "    choco install $pkg -y";
            "}";
            "";
            "Write-Host " +:+ DQ +:+ "Installation complete!" +:+ DQ
              +:+ " -ForegroundColor Green" ].

(** The script text: the header, [script += line] for each package,
    [script.rstrip(',\n') + '\n'], the footer. *)
Definition render_script (header footer : string) (pkgs : list json) : string :=
  let script := fold_left (fun script pkg => script +:+ pkg_line pkg) pkgs header in
  rstrip ("," +:+ LF) script +:+ LF +:+ footer.

Definition winget_file : string := "install_winget.ps1".
Definition choco_file : string := "install_chocolatey.ps1".
Definition package_file : string := "migration_package.json".

(** A file is the text written to it; the output directory maps file names
    to files. *)
Definition generate_install_scripts (p : Package) (dir : gmap string string)
  : gmap string string :=
  let dir1 :=
    match winget_pkgs (pkg_software p) with
    | [] => dir
    | pkgs => <[winget_file := render_script winget_header winget_footer pkgs]> dir
    end in
  match choco_pkgs (pkg_software p) with
  | [] => dir1
  | pkgs => <[choco_file := render_script choco_header choco_footer pkgs]> dir1
  end.

(** [_export_selection] up to and including script generation, on the
    directory the user chose: [None] is the failure the handler reports
    without having written anything. The copy of the scan's own files that
    follows writes under other names. *)
Definition export_selection (g : ScannerGUI) (dir : gmap string string)
  : option (gmap string string) :=
  match build_package g with
  | None => None
  | Some p =>
      Some (generate_install_scripts p
              (<[package_file := json_dump (package_json p)]> dir))
  end.

(** *** Sequences of user actions *)

(** What the user can do to the selection of a loaded scan: click a row,
    press one of the three buttons, type in a search box. *)
Inductive op : Type :=
  | Toggle (c : category) (y : nat)
  | SelectAll (c : category)
  | DeselectAll (c : category)
  | SelectWinget
  | TypeSearch (c : category) (term : string).

Definition step (g : ScannerGUI) (o : op) : ScannerGUI :=
  match o with
  | Toggle c y => toggle_selection g c y
  | SelectAll c => select_all g c
  | DeselectAll c => deselect_all g c
  | SelectWinget => select_winget g
  | TypeSearch c term => type_search g c term
  end.

Definition run (ops : list op) (g : ScannerGUI) : ScannerGUI :=
  fold_left step ops g.

(** The run as a trace: each action with the state it starts from. *)
Fixpoint trace (ops : list op) (g : ScannerGUI) : list (ScannerGUI * op) :=
  match ops with
  | [] => []
  | o :: rest => (g, o) :: trace rest (step g o)
  end.

Definition is_search (o : op) : bool :=
  match o with
  | TypeSearch _ _ => true
  | _ => false
  end.

(** The identifier prefix of a category. *)
Definition mk_iid (c : category) : nat -> iid :=
  match c with
  | software => sw_
  | store_apps => store_
  end.

(** The keys of a selection dictionary are the identifiers of rows
    [0 .. k-1] in that order, which is how [_populate_ui] enters them. *)
Definition keys_in_order (mk : nat -> iid) (sel : list (iid * bool)) : Prop :=
  ∃ k, sel.*1 = mk <$> seq 0 k.

(** The software of a scan, as an export of all of it lists it. *)
Definition scanned_software (d : ScanData) : list dict :=
  match sd_mappings d, sd_software d with
  | Some m, _ => m
  | None, Some inv => map manual_entry (or_empty (InstalledSoftware inv))
  | None, None => []
  end.

(** The number of rows [_populate_ui] enters for a category. *)
Definition scanned_rows (d : ScanData) (c : category) : nat :=
  match c with
  | software =>
      match sd_mappings d, sd_software d with
      | Some m, _ => length m
      | None, Some inv => length (or_empty (InstalledSoftware inv))
      | None, None => 0
      end
  | store_apps =>
      match sd_software d with
      | Some inv => length (or_empty (StoreApps inv))
      | None => 0
      end
  end.

(** The rows of a category's tree belong to the category's selection, and
    the rows displayed belong to the tree. *)
Definition rows_have_keys (g : ScannerGUI) (c : category) : Prop :=
  (∀ item, item ∈ children (tree g c) -> item ∈ (items (tree g c)).*1)
  ∧ (∀ item, item ∈ (items (tree g c)).*1 -> item ∈ (selections g c).*1).

Definition well_formed (g : ScannerGUI) : Prop :=
  ∀ c, keys_in_order (mk_iid c) (selections g c) ∧ rows_have_keys g c.

(** The invariant of one category, with the keys of the selection spelled
    out so that a step can be seen to keep them. *)
Definition category_ok (g : ScannerGUI) (c : category) (keys : list iid) : Prop :=
  (selections g c).*1 = keys
  ∧ (∀ item, item ∈ children (tree g c) -> item ∈ (items (tree g c)).*1)
  ∧ (∀ item, item ∈ (items (tree g c)).*1 -> item ∈ keys).

(** The states the application can be in: the initial one, and those that
    an action or a load, completed or not, leads to. *)
Inductive reachable : ScannerGUI -> Prop :=
  | reach_init : reachable init
  | reach_step g o : reachable g -> reachable (step g o)
  | reach_load g path d : reachable g -> reachable (state_of (load_scan g path d)).

(** [sel[mk(j)] = b] for [j] from [i] to [i + n - 1], the writes of one
    loop of [_populate_ui]. *)
Definition set_rows (mk : nat -> iid) (b : bool) (i n : nat)
  (sel : list (iid * bool)) : list (iid * bool) :=
  fold_left (fun d j => od_set d (mk j) b) (seq i n) sel.


(** An identifier as it stands in a script line, between its quotes. *)
Definition quoted (pkg : json) : string :=
  "    " +:+ DQ +:+ Py.str pkg +:+ DQ.

Fixpoint joined (l : list string) : string :=
  match l with
  | [] => ""
  | x :: r => x +:+ joined r
  end.

(** *** Summary tab: [_update_summary] *)

(** The numbers and marks the summary text is built from. *)
Record Summary := {
  total_software : nat;
  total_store : nat;
  selected_software : nat;
  selected_store : nat;
  selected_configs : nat;
  winget_count : nat;
  choco_count : nat;
  manual_count : nat;
  windows_included : bool;
  office_included : bool;
  wifi_included : bool
}.

(** [sum(1 for v in d.values() if v)] *)
Definition count_selected {K} (d : list (K * bool)) : nat :=
  length (List.filter (fun kv => kv.2) d).

(** [values[3] if len(values) > 3 else ''] *)
Definition row_method (vals : list string) : string :=
  if (3 <? length vals)%nat then default "" (vals !! 3) else "".

(** One round of the loop over [self.selections['software'].items()] that
    counts the install methods of the selected rows; [tree.item] raises on
    an identifier the widget does not hold, and the [except] passes. *)
Definition tally_method (t : Treeview) (n : nat * nat * nat) (kv : iid * bool)
  : nat * nat * nat :=
  let '(winget, choco, manual) := n in
  if kv.2 then
    match tree_values t kv.1 with
    | None => n
    | Some vals =>
        let method := row_method vals in
        if String.eqb method "Winget" then (S winget, choco, manual)
        else if String.eqb method "Chocolatey" then (winget, S choco, manual)
        else (winget, choco, S manual)
    end
  else n.

Definition tally_methods (t : Treeview) (sel : list (iid * bool))
  : nat * nat * nat :=
  fold_left (tally_method t) sel (0, 0, 0).

Definition update_summary (g : ScannerGUI) : Summary :=
  let methods := tally_methods (software_tree g) (selections_software g) in
  {| total_software :=
       match scan_data g with
       | Some d =>
           if scan_data_falsy (Some d) then 0
           else match sd_mappings d, sd_software d with
                | Some m, _ => length m
                | None, Some inv => length (or_empty (InstalledSoftware inv))
                | None, None => 0
                end
       | None => 0
       end;
     total_store :=
       match scan_data g with
       | Some d =>
           if scan_data_falsy (Some d) then 0
           else match sd_software d with
                | Some inv => length (or_empty (StoreApps inv))
                | None => 0
                end
       | None => 0
       end;
     selected_software := count_selected (selections_software g);
     selected_store := count_selected (selections_store_apps g);
     selected_configs := count_selected (config_options g);
     winget_count := methods.1.1;
     choco_count := methods.1.2;
     manual_count := methods.2;
     windows_included := include_windows_key g;
     office_included := include_office_keys g;
     wifi_included := include_wifi g |}.

(** The test the search filter makes on a row: the lowered term occurs in
    the lowered name (first value) or publisher (third value). A row the
    widget does not hold, or one without values, passes no test. *)
Definition row_matches (t : Treeview) (search_term : string) (item : iid)
  : bool :=
  match tree_values t item with
  | Some (v :: rest) =>
      let vals := v :: rest in
      str_in search_term (lower (default "" (vals !! 0)))
      || str_in search_term
           (if (2 <? length vals)%nat then lower (default "" (vals !! 2)) else "")
  | _ => false
  end.

(** The rows of a category's tree that [_populate_ui] entered are all in
    [all_iids], hold values, and the displayed ones are among them. *)
Definition rows_listed (g : ScannerGUI) (c : category) : Prop :=
  (∀ item, item ∈ all_iids g c ->
     ∃ v rest, tree_values (tree g c) item = Some (v :: rest))
  ∧ (∀ item, item ∈ children (tree g c) -> item ∈ all_iids g c).

(** The entries of [src] whose row is ticked, in the order of [src]. *)
Definition ticked_rows {A} (mk : nat -> iid) (sel : list (iid * bool))
  (src : list A) : list A :=
  omap (fun i => if bool_decide (od_get sel (mk i) = Some true)
                 then src !! i else None)
       (seq 0 (length src)).

(** Whether the licence file of a scan shows a masked Office key. *)
Definition masked_office (d : ScanData) : bool :=
  match sd_licenses d with
  | Some lic => existsb masked_key (or_empty (Office lic))
  | None => false
  end.

(** Rows and identifier lists are the same in two states. *)
Definition same_rows (g g' : ScannerGUI) : Prop :=
  ∀ c, all_iids g' c = all_iids g c
       ∧ children (tree g' c) = children (tree g c)
       ∧ ∀ item, tree_values (tree g' c) item = tree_values (tree g c) item.

End Scanner.

(** ** The restore GUI: [src/gui/restore_gui.py] *)

Module Restore.
Import Py.

(** *** Parsing the resolver's report: [_update_installer_results] *)

(** The longest prefix of [s] whose characters satisfy [p], and the rest. *)
Fixpoint span (p : ascii -> bool) (s : string) : string * string :=
  match s with
  | "" => ("", "")
  | String c r =>
      if p c then let '(a, b) := span p r in (String c a, b)
      else ("", s)
  end.

Definition is_char (n : nat) (c : ascii) : bool := (ord c =? n)%nat.

(** The class [[^\s\)]] *)
Definition link_char (c : ascii) : bool :=
  negb (isspace c || is_char 41 c).

(** The class [[^\s\)\],]] *)
Definition raw_char (c : ascii) : bool :=
  negb (isspace c || is_char 41 c || is_char 93 c || is_char 44 c).

(** [https?://] at the head of [s]: the scheme read and what follows. *)
Definition scheme_http (s : string) : option (string * string) :=
  match strip_prefix "https://" s with
  | Some r => Some ("https://", r)
  | None =>
      match strip_prefix "http://" s with
      | Some r => Some ("http://", r)
      | None => None
      end
  end.

(** [winget://] at the head of [s]. *)
Definition scheme_winget (s : string) : option (string * string) :=
  match strip_prefix "winget://" s with
  | Some r => Some ("winget://", r)
  | None => None
  end.

Definition scheme (s : string) : option (string * string) :=
  match scheme_http s with
  | Some m => Some m
  | None => scheme_winget s
  end.

(** A match of [\]\((https?://[^\s\)]+|winget://[^\s\)]+)\)] at the head of
    [s]: the group and the length of the match. The class excludes the
    closing parenthesis, so the greedy run is the only candidate and the
    match exists exactly when a parenthesis follows a non-empty run. *)
Definition match_link (s : string) : option (string * nat) :=
  match strip_prefix "](" s with
  | None => None
  | Some s1 =>
      match scheme s1 with
      | None => None
      | Some (sch, r) =>
          match span link_char r with
          | (String c run, String d _) =>
              if is_char 41 d
              then Some (sch +:+ String c run,
                         2 + String.length sch + S (String.length run) + 1)
              else None
          | _ => None
          end
      end
  end.

(** A match of [(?:https?|winget)://[^\s\)\],]+] at the head of [s]. *)
Definition match_raw (s : string) : option (string * nat) :=
  match scheme s with
  | None => None
  | Some (sch, r) =>
      match span raw_char r with
      | (String c run, _) =>
          Some (sch +:+ String c run, String.length sch + S (String.length run))
      | _ => None
      end
  end.

(** [re.findall]: leftmost matches, each search resuming where the previous
    match ended; [skip] counts the characters of a match still to pass. *)
Fixpoint findall_from (m : string -> option (string * nat)) (skip : nat)
  (s : string) : list string :=
  match s with
  | "" => []
  | String _ r =>
      match skip with
      | S k => findall_from m k r
      | O =>
          match m s with
          | Some (g, len) => g :: findall_from m (len - 1) r
          | None => findall_from m 0 r
          end
      end
  end.

Definition findall (m : string -> option (string * nat)) (s : string)
  : list string :=
  findall_from m 0 s.

(** [len(re.findall(r'^### ', content, re.MULTILINE))] *)
Fixpoint count_sections_from (line_start : bool) (s : string) : nat :=
  match s with
  | "" => 0
  | String c r =>
      (if line_start && String.prefix "### " s then 1 else 0)
      + count_sections_from (is_char 10 c) r
  end.

Definition count_sections (content : string) : nat :=
  count_sections_from true content.

(** [urls + raw_urls] *)
Definition extracted (content : string) : list string :=
  findall match_link content ++ findall match_raw content.

(** [list(set(xs))]: the elements of [xs], each once, in an order that the
    language leaves open. *)
Definition list_of_set (xs l : list string) : Prop :=
  NoDup l ∧ ∀ x, x ∈ l ↔ x ∈ xs.

Definition placeholder (u : string) : bool :=
  bool_decide (strip u ∈ ["winget://install/"; "winget://install"]).

(** [[u for u in all_found if u.strip() not in [..]]] *)
Definition found_urls_of (all_found : list string) : list string :=
  List.filter (fun u => negb (placeholder u)) all_found.

Definition search_fallback (url : string) : bool :=
  str_in "google.com/search" (lower url).

(** [[url for url in found_urls if "google.com/search" not in url.lower()]] *)
Definition selectable_urls_of (found_urls : list string) : list string :=
  List.filter (fun url => negb (search_fallback url)) found_urls.

(** What the file [manual_downloads.md] is when the handler looks at it. *)
Inductive report_file : Type :=
  | Missing
  | Unreadable
  | Report (content : string).

(** The messages of [installer_search_info] and [download_info_label], by
    the numbers they carry. *)
Inductive search_info : Type :=
  | SearchFound (n_urls n_items : nat)
  | SearchReadError
  | SearchProcessed (n_lines : nat).

Inductive download_info : Type :=
  | DirectUrls (n : nat)
  | OnlyFallbacks
  | NoUrls.

(** The widgets the handler leaves behind: the info line, the rows of the
    download tree (all unticked) and the label over it. *)
Record ResultsView := {
  installer_search_info : search_info;
  download_selection_tree : list string;
  download_info_label : download_info
}.

Definition view (info : search_info) (found_urls : list string) : ResultsView :=
  match found_urls with
  | [] => {| installer_search_info := info;
             download_selection_tree := [];
             download_info_label := NoUrls |}
  | _ =>
      match selectable_urls_of found_urls with
      | [] => {| installer_search_info := info;
                 download_selection_tree := [];
                 download_info_label := OnlyFallbacks |}
      | sel => {| installer_search_info := info;
                  download_selection_tree := sel;
                  download_info_label := DirectUrls (length sel) |}
      end
  end.

(** The handler once [list(set(..))] has produced [all_found]. *)
Definition results_view (file : report_file) (results : list string)
  (all_found : list string) : ResultsView :=
  match file with
  | Report content =>
      let found_urls := found_urls_of all_found in
      view (SearchFound (length found_urls) (count_sections content)) found_urls
  | Unreadable => view SearchReadError []
  | Missing => view (SearchProcessed (length results)) []
  end.

(** [_update_installer_results(results, manual_downloads_path)], as the
    relation between its inputs and the widgets it leaves. *)
Definition update_installer_results (file : report_file)
  (results : list string) (v : ResultsView) : Prop :=
  match file with
  | Report content =>
      ∃ all_found, list_of_set (extracted content) all_found
                   ∧ v = results_view file results all_found
  | _ => v = results_view file results []
  end.

(** One run of the handler: the set enumerated in order of first
    occurrence. *)
Definition update_installer_results_run (file : report_file)
  (results : list string) : ResultsView :=
  match file with
  | Report content => results_view file results (remove_dups (extracted content))
  | _ => results_view file results []
  end.

(** *** Restore phases *)

(** What starting [powershell.exe -File script] comes to: the process runs,
    prints its lines and exits with a return code; or it runs and prints,
    after some lines, bytes that the pipe's text reader ([text=True])
    cannot decode, so that reading the next line raises
    [UnicodeDecodeError]; or [subprocess.Popen] raises. *)
Inductive process : Type :=
  | Exits (stdout : list string) (returncode : Z)
  | Undecodable (stdout : list string) (err : string)
  | CannotStart (err : string).

(** The machine a restore runs on: the files of the package directory, and
    what running each script does. *)
Record World := {
  package_dir : gmap string string;
  powershell : string -> process
}.

(** The state a restore run reads and writes: the loaded package's path,
    the option boxes, the lines of the log pane, the progress label, and
    the scripts started so far. Each logged line is also appended, with a
    time stamp, to [restore_debug.txt]. *)
Record RestoreGUI := {
  package_path : option string;
  restore_options : list (string * bool);
  log_text : list string;
  progress_label : string;
  started : list string
}.

(** Code that reads and writes the state and may raise. *)
Definition M (A : Type) : Type := RestoreGUI -> (string + A) * RestoreGUI.

Definition ret {A} (a : A) : M A := fun g => (inr a, g).

Definition bind {A B} (c : M A) (k : A -> M B) : M B :=
  fun g =>
    match c g with
    | (inr a, g') => k a g'
    | (inl e, g') => (inl e, g')
    end.

Definition raise {A} (e : string) : M A := fun g => (inl e, g).

(** [try: c  except Exception as e: h(e)] *)
Definition try_except {A} (c : M A) (h : string -> M A) : M A :=
  fun g =>
    match c g with
    | (inl e, g') => h e g'
    | r => r
    end.

Declare Scope restore_scope.
Delimit Scope restore_scope with restore.
Notation "x <- c ;; k" := (bind c (fun x => k))
  (at level 100, c at next level, right associativity) : restore_scope.
Notation "c ;; k" := (bind c (fun _ => k))
  (at level 100, right associativity) : restore_scope.
Open Scope restore_scope.

(** [self._log(message, "restore_debug.txt")] *)
Definition log (message : string) : M unit :=
  fun g => (inr tt, {| package_path := package_path g;
                       restore_options := restore_options g;
                       log_text := log_text g ++ [message];
                       progress_label := progress_label g;
                       started := started g |}).

(** [self.progress_label.set(s)] *)
Definition set_progress_label (s : string) : M unit :=
  fun g => (inr tt, {| package_path := package_path g;
                       restore_options := restore_options g;
                       log_text := log_text g;
                       progress_label := s;
                       started := started g |}).

(** [process = subprocess.Popen([.., '-File', script], ..)]: the process
    that was started, or the error [Popen] raises. *)
Definition popen (w : World) (script : string) : M process :=
  fun g =>
    match powershell w script with
    | CannotStart e => (inl e, g)
    | p => (inr p, {| package_path := package_path g;
                      restore_options := restore_options g;
                      log_text := log_text g;
                      progress_label := progress_label g;
                      started := started g ++ [script] |})
    end.

(** The lines of a loop [for line in ..: self._log(line.strip(), ..)]. *)
Fixpoint stream (lines : list string) : M unit :=
  match lines with
  | [] => ret tt
  | l :: rest => log (strip l) ;; stream rest
  end.

(** [for line in process.stdout: self._log(line.strip(), ..)] followed by
    [process.wait()], whose return code is dropped: the lines that decode
    are logged, and the read that meets bytes it cannot decode raises. *)
Definition read_output (p : process) : M unit :=
  match p with
  | Exits out _ => stream out
  | Undecodable out err => stream out ;; raise err
  | CannotStart _ => ret tt
  end.

(** [except Exception as e:
       self.root.after(0, lambda: self._log(f"Error: {str(e)}", ..))].
    The callback is run by the event loop once the worker has left the
    [except] block, at the end of which Python unbinds [e]: reading [e]
    then raises [NameError] inside the callback, which the event loop
    reports on the console. No line is logged and the error is not
    raised again. *)
Definition report_error (e : string) : M unit := ret tt.

Definition winget_script : string := "install_winget.ps1".
Definition choco_script : string := "install_chocolatey.ps1".
Definition temp_restore_script : string := "temp_restore.ps1".

Definition rule : string := repeat_str "=" 50.

(** One backend block of [full]: nothing when the script file is missing;
    otherwise the banner, the process and its output. The return code that
    [process.wait()] yields is dropped. Nothing catches what [Popen] or
    the reading of the output raises. *)
Definition backend_phase (w : World) (script banner : string) : M unit :=
  match package_dir w !! script with
  | None => ret tt
  | Some _ =>
      log (LF +:+ banner) ;;
      process <- popen w script ;;
      read_output process
  end.

(** The thread body [restore] of [_restore_configs]. The temporary script
    is written and removed inside the [try]. *)
Definition restore (w : World) : M unit :=
  log "Starting configuration restore..." ;;
  set_progress_label "Restoring configurations..." ;;
  try_except
    (process <- popen w temp_restore_script ;;
     read_output process ;;
     log "Configuration restore complete!" ;;
     set_progress_label "Configuration restore complete")
    report_error.

(** [_restore_configs] *)
Definition restore_configs (w : World) : M unit :=
  fun g =>
    match package_path g with
    | None => ret tt g
    | Some _ => restore w g
    end.

(** The thread body [full] of [_full_restore]; its last statement hands
    [_restore_configs] to the event loop. Lines are logged in the order the
    program issues them. *)
Definition full (w : World) : M unit :=
  log rule ;;
  log "PHASE 1: Installing Software" ;;
  log rule ;;
  backend_phase w winget_script "Installing via Winget..." ;;
  backend_phase w choco_script "Installing via Chocolatey..." ;;
  log (LF +:+ rule) ;;
  log "PHASE 2: Restoring Configuration" ;;
  log (rule +:+ LF) ;;
  restore_configs w.

(** [_full_restore]; [confirmed] is the answer to the dialog. *)
Definition full_restore (w : World) (confirmed : bool) : M unit :=
  fun g =>
    match package_path g with
    | None => ret tt g
    | Some _ => if confirmed then full w g else ret tt g
    end.

(** The state in which a full restore is asked for, with a package loaded
    from [path]. *)
Definition loaded (path : string) : RestoreGUI :=
  {| package_path := Some path;
     restore_options :=
       [ ("RestoreLicenseKeys", true); ("RestoreEnvironmentVariables", true);
         ("RestoreNetwork", true); ("RestoreFileAssociations", true);
         ("RestoreWindowsSettings", true); ("RestoreScheduledTasks", false);
         ("RestoreServices", false) ];
     log_text := [];
     progress_label := "Ready";
     started := [] |}.

(** The world in which every process that starts exits with code 0,
    printing what it prints in [w]. *)
Definition exit_zero (w : World) : World :=
  {| package_dir := package_dir w;
     powershell := fun script =>
       match powershell w script with
       | Exits out _ => Exits out 0
       | p => p
       end |}.

(** What a backend phase whose process runs to its end adds to the log. *)
Definition backend_log (w : World) (script banner : string) : list string :=
  match package_dir w !! script, powershell w script with
  | Some _, Exits out _ => (LF +:+ banner) :: map strip out
  | _, _ => []
  end.

(** What the configuration phase's process leaves: the log lines, the
    progress label and whether the process was started. *)
Definition config_outcome (w : World) : list string * string * list string :=
  match powershell w temp_restore_script with
  | Exits out _ =>
      (map strip out ++ ["Configuration restore complete!"],
       "Configuration restore complete", [temp_restore_script])
  | Undecodable out _ =>
      (map strip out, "Restoring configurations...", [temp_restore_script])
  | CannotStart _ => ([], "Restoring configurations...", [])
  end.

(** What the configuration phase adds to the log. *)
Definition config_log (w : World) : list string :=
  "Starting configuration restore..." :: (config_outcome w).1.1.

(** The state with lines added to the log. *)
Definition logged (g : RestoreGUI) (lines : list string) : RestoreGUI :=
  {| package_path := package_path g;
     restore_options := restore_options g;
     log_text := log_text g ++ lines;
     progress_label := progress_label g;
     started := started g |}.

(** The scripts a backend phase starts. *)
Definition phase_started (w : World) (script : string) : list string :=
  match package_dir w !! script with
  | Some _ => [script]
  | None => []
  end.

(** *** The download list: [_toggle_download_selection],
    [_select_all_downloads], [_deselect_all_downloads],
    [_download_selected_urls] *)

(** The rows of the download tree as [_update_installer_results] leaves
    them: the checkbox of column [#0] ([true] for the ticked box) and the
    URL. *)
Definition download_rows (v : ResultsView) : list (bool * string) :=
  map (fun url => (false, url)) (download_selection_tree v).

(** [_toggle_download_selection(event)]; the click's ordinate is counted
    in rows, and below the last row [identify_row] answers nothing. *)
Definition toggle_download_selection (rows : list (bool * string)) (y : nat)
  : list (bool * string) :=
  match rows !! y with
  | None => rows
  | Some (current, url) =>
      let new_state := if bool_decide (current = false) then true else false in
      <[y := (new_state, url)]> rows
  end.

Definition select_all_downloads (rows : list (bool * string))
  : list (bool * string) :=
  map (fun r => (true, r.2)) rows.

Definition deselect_all_downloads (rows : list (bool * string))
  : list (bool * string) :=
  map (fun r => (false, r.2)) rows.

(** [s.split(sep)] for a separator of one character. *)
Fixpoint split (sep : ascii) (s : string) : list string :=
  match s with
  | "" => [""]
  | String c r =>
      if Ascii.eqb c sep then "" :: split sep r
      else match split sep r with
           | h :: t => String c h :: t
           | [] => [String c ""]
           end
  end.

(** [url.split('/')[-1]] *)
Definition last_segment (url : string) : string :=
  List.last (split "/" url) "".

(** [url.split('/')[-1].split('?')[0] or 'installer.exe'] *)
Definition download_filename (url : string) : string :=
  let name := hd "" (split "?" (last_segment url)) in
  if String.eqb name "" then "installer.exe" else name.

(** [url.startswith('winget://')] *)
Definition is_winget (url : string) : bool := String.prefix "winget://" url.

(** The lines the download thread logs, by what they carry. *)
Inductive download_event : Type :=
  | WingetFound (pkg_id : string)
  | WingetNote
  | Downloading (i n : nat) (filename : string)
  | Downloaded (filename : string)
  | DownloadFailed (url err : string).

Inductive download_dialog : Type :=
  | NoUrlsSelected
  | InvalidFolder
  | Complete (n : nat) (folder : string).

(** The network and the disk as the download sees them: whether a folder
    exists, and what fetching a URL into a file of a folder comes to
    ([None] when [urlretrieve] returns, the error text when it raises). *)
Record Net := {
  folder_exists : string -> bool;
  urlretrieve : string -> string -> string -> option string
}.

(** What a download leaves: the dialog shown, the lines logged, and the
    calls of [urlretrieve] made, each with its URL and file name. *)
Record DownloadRun := {
  dialog : download_dialog;
  events : list download_event;
  requests : list (string * string)
}.

(** The loop [for i, url in enumerate(selected_urls)] with its inner
    [try]. *)
Fixpoint download_loop (net : Net) (folder : string) (n : nat) (i : nat)
  (urls : list string) (ev : list download_event) (rq : list (string * string))
  : list download_event * list (string * string) :=
  match urls with
  | [] => (ev, rq)
  | url :: rest =>
      if is_winget url then
        download_loop net folder n (S i) rest
          (ev ++ [WingetFound (last_segment url); WingetNote]) rq
      else
        let filename := download_filename url in
        let ev1 := ev ++ [Downloading (i + 1) n filename] in
        let rq1 := rq ++ [(url, filename)] in
        match urlretrieve net url folder filename with
        | None =>
            download_loop net folder n (S i) rest (ev1 ++ [Downloaded filename]) rq1
        | Some e =>
            download_loop net folder n (S i) rest (ev1 ++ [DownloadFailed url e]) rq1
        end
  end.

(** [[url for each row whose text is the ticked box]] *)
Definition selected_urls (rows : list (bool * string)) : list string :=
  map snd (List.filter fst rows).

(** [_download_selected_urls] with its thread body. *)
Definition download_selected_urls (net : Net) (download_folder : string)
  (rows : list (bool * string)) : DownloadRun :=
  match selected_urls rows with
  | [] => {| dialog := NoUrlsSelected; events := []; requests := [] |}
  | urls =>
      if String.eqb download_folder "" || negb (folder_exists net download_folder)
      then {| dialog := InvalidFolder; events := []; requests := [] |}
      else
        let r := download_loop net download_folder (length urls) 0 urls [] [] in
        {| dialog := Complete (length urls) download_folder;
           events := r.1;
           requests := r.2 |}
  end.

(** What one selected URL adds to the log and to the requests. *)
Definition url_events (net : Net) (folder : string) (n i : nat) (url : string)
  : list download_event :=
  if is_winget url then [WingetFound (last_segment url); WingetNote]
  else [ Downloading (i + 1) n (download_filename url);
         match urlretrieve net url folder (download_filename url) with
         | None => Downloaded (download_filename url)
         | Some e => DownloadFailed url e
         end ].

Definition url_requests (url : string) : list (string * string) :=
  if is_winget url then [] else [(url, download_filename url)].

(** *** The software tab: [_populate_software_list],
    [_refresh_software_display] *)

(** The entry built for a store app. *)
Definition store_item (store_app : dict) : dict :=
  [ ("SoftwareName", get_default store_app "Name" (JStr ""));
    ("Version", get_default store_app "Version" (JStr ""));
    ("InstallMethod", JStr "Store");
    ("PackageFamilyName", get_default store_app "PackageFamilyName" (JStr ""));
    ("Publisher", get_default store_app "Publisher" (JStr "")) ].

(** [self.all_software_data] *)
Definition all_software_data (software store_apps : list dict) : list dict :=
  software ++ map store_item store_apps.

(** [v == s] for a string [s] *)
Definition eq_str (v : json) (s : string) : bool :=
  match v with
  | JStr x => String.eqb x s
  | _ => false
  end.

(** [sum(1 for item in data if item.get('InstallMethod') == m)] *)
Definition count_method (m : string) (data : list dict) : nat :=
  length (List.filter (fun item => eq_str (get item "InstallMethod") m) data).

(** The numbers of the summary line. *)
Record SoftwareSummary := {
  total : nat;
  winget : nat;
  chocolatey : nat;
  store : nat;
  manual : nat
}.

Definition software_summary (software store_apps : list dict) : SoftwareSummary :=
  let data := all_software_data software store_apps in
  {| total := length data;
     winget := count_method "Winget" data;
     chocolatey := count_method "Chocolatey" data;
     store := count_method "Store" data;
     manual := count_method "Manual" data |}.

(** What the refresh leaves in the tree: it runs to its end, or [lower] is
    called on a [SoftwareName] that is no string and the refresh raises
    with the rows entered so far. *)
Inductive display : Type :=
  | Displayed (rows : list (list json))
  | DisplayRaised (rows : list (list json)).

Definition rows_of (d : display) : list (list json) :=
  match d with
  | Displayed rows => rows
  | DisplayRaised rows => rows
  end.

(** The values of a row: name, version, method, package identifier. *)
Definition software_row (item : dict) : list json :=
  [ get_default item "SoftwareName" (JStr "");
    get_default item "Version" (JStr "");
    get_default item "InstallMethod" (JStr "Manual");
    Scanner.py_or (get item "WingetId")
      (Scanner.py_or (get item "ChocolateyId")
         (get_default item "PackageFamilyName" (JStr ""))) ].

(** The loop of [_refresh_software_display] over [self.all_software_data]. *)
Fixpoint refresh_loop (search_term : string) (show_non_manual_only : bool)
  (data : list dict) (rows : list (list json)) : display :=
  match data with
  | [] => Displayed rows
  | item :: rest =>
      match get_default item "SoftwareName" (JStr "") with
      | JStr s =>
          let name := lower s in
          let method := get_default item "InstallMethod" (JStr "Manual") in
          if negb (String.eqb search_term "") && negb (str_in search_term name)
          then refresh_loop search_term show_non_manual_only rest rows
          else if show_non_manual_only && eq_str method "Manual"
          then refresh_loop search_term show_non_manual_only rest rows
          else refresh_loop search_term show_non_manual_only rest
                 (rows ++ [software_row item])
      | _ => DisplayRaised rows
      end
  end.

(** [_refresh_software_display]; the tree is emptied first. *)
Definition refresh_software_display (software_search : string)
  (show_all_methods : bool) (data : list dict) : display :=
  refresh_loop (lower software_search) show_all_methods data [].

(** [_populate_software_list]: the list is refreshed with the search text
    and the filter box as they stand, then the summary line is set; a
    refresh that raises leaves the summary line as it was. *)
Definition populate_software_list (software_search : string)
  (show_all_methods : bool) (software store_apps : list dict)
  : display * option SoftwareSummary :=
  match refresh_software_display software_search show_all_methods
          (all_software_data software store_apps) with
  | Displayed rows => (Displayed rows, Some (software_summary software store_apps))
  | DisplayRaised rows => (DisplayRaised rows, None)
  end.

(** *** Option boxes: [_set_recommended_options], [_set_all_options],
    [_update_config_options] *)

(** The keys of [self.restore_options] with the values they are created
    with. *)
Definition options_list : list (string * bool) :=
  [ ("RestoreLicenseKeys", true); ("RestoreEnvironmentVariables", true);
    ("RestoreNetwork", true); ("RestoreFileAssociations", true);
    ("RestoreWindowsSettings", true); ("RestoreScheduledTasks", false);
    ("RestoreServices", false) ].

(** The dictionary [defaults] of [_set_recommended_options]. *)
Definition defaults : list (string * bool) :=
  [ ("RestoreLicenseKeys", true); ("RestoreEnvironmentVariables", true);
    ("RestoreNetwork", true); ("RestoreFileAssociations", true);
    ("RestoreWindowsSettings", true); ("RestoreScheduledTasks", false);
    ("RestoreServices", false) ].

Definition set_recommended_options (restore_options : list (string * bool))
  : list (string * bool) :=
  fold_left (fun opts kv => if od_mem opts kv.1 then od_set opts kv.1 kv.2 else opts)
            defaults restore_options.

Definition set_all_options (restore_options : list (string * bool))
  : list (string * bool) :=
  map (fun kv => (kv.1, true)) restore_options.

(** The keys of [self.config_vars], in the order [_create_config_tab]
    creates them; every box starts ticked. *)
Definition config_var_keys : list string :=
  [ "env_vars"; "scheduled_tasks"; "network"; "file_assoc"; "explorer";
    "vscode"; "git_config"; "ssh_config"; "terminal"; "browser_bookmarks";
    "powershell"; "wifi" ].

(** [_update_config_options], given the [configs] object of the package. *)
Definition update_config_options (configs config_vars : list (string * bool))
  : list (string * bool) :=
  map (fun kv => match od_get configs kv.1 with
                 | Some v => (kv.1, v)
                 | None => kv
                 end) config_vars.

(** *** Single installs: [_install_winget], [_install_chocolatey] *)

(** The thread body [install] of [_install_winget]. *)
Definition install_winget_thread (w : World) : M unit :=
  match package_dir w !! winget_script with
  | None => log "Winget install script not found"
  | Some _ =>
      log "Starting Winget installation..." ;;
      set_progress_label "Installing via Winget..." ;;
      try_except
        (process <- popen w winget_script ;;
         read_output process ;;
         log "Winget installation complete!" ;;
         set_progress_label "Winget installation complete")
        report_error
  end.

Definition install_winget (w : World) : M unit :=
  fun g =>
    match package_path g with
    | None => ret tt g
    | Some _ => install_winget_thread w g
    end.




(** The schemes a URL of the report starts with. *)
Definition schemes : list string := ["https://"; "http://"; "winget://"].

Close Scope restore_scope.

End Restore.

(** ** Sample data *)

Module Examples.
Import Py Scanner.

Definition tool_a : dict :=
  [ ("SoftwareName", JStr "Tool A"); ("Version", JStr "1.2");
    ("InstallMethod", JStr "Winget");
    ("WingetId", JStr "vendor.toola"); ("ChocolateyId", JStr "toola") ].

Definition tool_b : dict :=
  [ ("SoftwareName", JStr "Tool B"); ("InstallMethod", JStr "Manual");
    ("WingetId", JNull); ("ChocolateyId", JNull) ].

Definition editor_c : dict :=
  [ ("SoftwareName", JStr "Editor C"); ("InstallMethod", JStr "Chocolatey");
    ("ChocolateyId", JStr "editorc") ].

Definition photos : dict :=
  [ ("Name", JStr "Photos"); ("PackageFamilyName", JStr "Vendor.Photos_8w") ].

Definition sample_scan : ScanData :=
  {| sd_software := Some {| InstalledSoftware := None; StoreApps := Some [photos] |};
     sd_mappings := Some [tool_a; tool_b; editor_c];
     sd_licenses := None;
     sd_config := None |}.

(** The scanner after loading [sample_scan]. *)
Definition sample_gui : ScannerGUI :=
  state_of (load_scan init "D:/scan" sample_scan).

Definition sample_package : Package :=
  {| export_date := "";
     drives := [("primary", "C:"); ("secondary", "D:"); ("data", "D:")];
     pkg_software := [tool_a; tool_b; editor_c];
     pkg_store_apps := [];
     configs := map (fun k => (k, true)) config_keys;
     licenses := [ ("include_windows", JBool true); ("include_office", JBool true);
                   ("include_wifi", JBool true) ] |}.



(** A scan with fewer packages than [sample_scan], and the scanner after
    loading it over [sample_scan]: the keys [sw_1] and [sw_2] stay in the
    selection, ticked, with no row in the tree. *)
Definition short_scan : ScanData :=
  {| sd_software := None;
     sd_mappings := Some [tool_b];
     sd_licenses := None;
     sd_config := None |}.

Definition reloaded_gui : ScannerGUI :=
  state_of (load_scan sample_gui "D:/scan2" short_scan).



(** The report of the specification's examples: one item whose installer
    is given as a link and again as a bare URL, a search fallback and an
    empty Winget placeholder. *)
Definition spec_report : string :=
  "### Tool" +:+ LF
  +:+ "- [label](https://x/y.exe) or https://x/y.exe" +:+ LF
  +:+ "- [search](https://www.google.com/search?q=foo)" +:+ LF
  +:+ "- [w](winget://install/)" +:+ LF.

(** A package directory with both install scripts, on a machine where the
    Winget script prints two lines and exits with [rc]. *)
Definition world_with_exit (rc : Z) : Restore.World :=
  {| Restore.package_dir :=
       {[ "install_winget.ps1" := "winget"; "install_chocolatey.ps1" := "choco" ]};
     Restore.powershell := fun script =>
       if String.eqb script "install_winget.ps1"
       then Restore.Exits ["Installing vendor.toola..."; "No package found"] rc
       else Restore.Exits ["ok"] 0 |}.

(** A package directory without install scripts. *)
Definition world_without_scripts : Restore.World :=
  {| Restore.package_dir := ∅;
     Restore.powershell := fun script => Restore.Exits ["restored"] 0 |}.

(** A scan whose licence file shows a masked Office key. *)
Definition masked_scan : ScanData :=
  {| sd_software := None;
     sd_mappings := Some [tool_a];
     sd_licenses :=
       Some {| Windows := Some [("RecommendedKey", JStr "AAAAA-BBBBB-CCCCC-DDDDD-EEEEE")];
               Office := Some [[("Product", JStr "Office 16");
                                ("ProductKey", JStr "*****-*****-*****-*****-ABCDE")]];
               WiFiProfiles := None |};
     sd_config := None |}.

(** A machine on which no download succeeds. *)
Definition offline : Restore.Net :=
  {| Restore.folder_exists := fun _ => true;
     Restore.urlretrieve := fun _ _ _ => Some "timed out" |}.

(** A package directory with both install scripts, on a machine where the
    Winget script prints a line and then, in the console's code page, a
    name with a letter whose byte the reader's code page does not
    define. *)
Definition world_undecodable : Restore.World :=
  {| Restore.package_dir :=
       {[ "install_winget.ps1" := "winget"; "install_chocolatey.ps1" := "choco" ]};
     Restore.powershell := fun script =>
       if String.eqb script "install_winget.ps1"
       then Restore.Undecodable ["Installing vendor.toola..."]
              "'charmap' codec can't decode byte 0x81 in position 11: character maps to <undefined>"
       else Restore.Exits ["ok"] 0 |}.

(** A package directory whose Winget script cannot be started. *)
Definition world_cannot_start : Restore.World :=
  {| Restore.package_dir := {[ "install_winget.ps1" := "winget" ]};
     Restore.powershell := fun script =>
       if String.eqb script "install_winget.ps1"
       then Restore.CannotStart
              "[WinError 2] The system cannot find the file specified"
       else Restore.Exits ["restored"] 0 |}.

(** The software of a package as the restore program loads it. *)
Definition package_software : list dict :=
  [ [("SoftwareName", JStr "Tool A"); ("InstallMethod", JStr "Winget");
     ("WingetId", JStr "vendor.toola")];
    [("SoftwareName", JStr "Tool B"); ("InstallMethod", JStr "Manual")];
    [("SoftwareName", JStr "Editor C"); ("InstallMethod", JStr "Chocolatey");
     ("ChocolateyId", JStr "editorc")] ].

End Examples.

(** * Properties *)

Import Py Scanner Examples.

Set Warnings "-clear-no-such-hyp".

(** Case analysis on the test of the conditional at the head of the goal. *)
Ltac case_if :=
  match goal with
  | |- context [if ?b then _ else _] => destruct b eqn:?
  end.

(** ** Strings *)

Section strings.

Lemma append_nil (b : string) : "" +:+ b = b.
Proof. reflexivity. Qed.

Lemma append_cons (c : ascii) (a b : string) :
  String c a +:+ b = String c (a +:+ b).
Proof. reflexivity. Qed.

Lemma append_assoc (a b c : string) : (a +:+ b) +:+ c = a +:+ (b +:+ c).
Proof.
  induction a as [|x a IH]; [reflexivity|].
  now rewrite !append_cons, IH.
Qed.

Lemma append_empty_r (a : string) : a +:+ "" = a.
Proof.
  induction a as [|x a IH]; [reflexivity|].
  now rewrite append_cons, IH.
Qed.




Lemma rstrip_by_append (p : ascii -> bool) (a s : string) :
  rstrip_by p s <> "" -> rstrip_by p (a +:+ s) = a +:+ rstrip_by p s.
Proof.
  intros H. induction a as [|c a IH]; [reflexivity|].
  rewrite !append_cons. simpl. rewrite IH.
  destruct (a +:+ rstrip_by p s) eqn:E; [|reflexivity].
  destruct a; [contradiction | discriminate].
Qed.

End strings.


(** ** Install scripts *)

Section scripts.

Lemma script_loop (pkgs : list json) (header : string) :
  fold_left (fun script pkg => script +:+ pkg_line pkg) pkgs header
  = header +:+ joined (map pkg_line pkgs).
Proof.
  revert header. induction pkgs as [|p pkgs IH]; intros header; simpl.
  - now rewrite append_empty_r.
  - now rewrite IH, append_assoc.
Qed.

Lemma joined_app (l1 l2 : list string) :
  joined (l1 ++ l2) = joined l1 +:+ joined l2.
Proof.
  induction l1 as [|x l1 IH]; simpl; [reflexivity|].
  now rewrite IH, append_assoc.
Qed.


Lemma rstrip_line (a : string) (pkg : json) :
  rstrip ("," +:+ LF) (a +:+ pkg_line pkg) = a +:+ quoted pkg.
Proof.
  unfold pkg_line, quoted, rstrip.
  replace (a +:+ "    " +:+ DQ +:+ Py.str pkg +:+ DQ +:+ "," +:+ LF)
    with ((a +:+ "    " +:+ DQ +:+ Py.str pkg) +:+ (DQ +:+ "," +:+ LF))
    by now rewrite !append_assoc.
  rewrite rstrip_by_append by (vm_compute; intro; discriminate).
  rewrite !append_assoc. reflexivity.
Qed.

(** Stripping the loop's text removes the comma and the line feed of the
    last line and nothing else. *)
Lemma rstrip_script (header : string) (pkgs : list json) (last : json) :
  rstrip ("," +:+ LF)
    (fold_left (fun script pkg => script +:+ pkg_line pkg) (pkgs ++ [last]) header)
  = header +:+ joined (map pkg_line pkgs) +:+ quoted last.
Proof.
  rewrite script_loop, map_app, joined_app.
  change (joined (map pkg_line [last])) with (pkg_line last +:+ "").
  rewrite append_empty_r, <- append_assoc, rstrip_line.
  now rewrite append_assoc.
Qed.


End scripts.

Section generate.

Lemma file_names_differ :
  winget_file ≠ choco_file ∧ package_file ≠ winget_file ∧ package_file ≠ choco_file.
Proof. repeat split; discriminate. Qed.

Lemma generate_winget (p : Package) (dir : gmap string string) :
  generate_install_scripts p dir !! winget_file
  = match winget_pkgs (pkg_software p) with
    | [] => dir !! winget_file
    | pkgs => Some (render_script winget_header winget_footer pkgs)
    end.
Proof.
  unfold generate_install_scripts.
  destruct (choco_pkgs (pkg_software p)) eqn:Ec;
    [|rewrite lookup_insert_ne by discriminate];
    (destruct (winget_pkgs (pkg_software p)); [reflexivity|];
     now rewrite lookup_insert_eq).
Qed.

Lemma generate_choco (p : Package) (dir : gmap string string) :
  generate_install_scripts p dir !! choco_file
  = match choco_pkgs (pkg_software p) with
    | [] => dir !! choco_file
    | pkgs => Some (render_script choco_header choco_footer pkgs)
    end.
Proof.
  unfold generate_install_scripts.
  destruct (choco_pkgs (pkg_software p)) eqn:Ec.
  - destruct (winget_pkgs (pkg_software p)); [reflexivity|].
    now rewrite lookup_insert_ne by discriminate.
  - now rewrite lookup_insert_eq.
Qed.

Lemma generate_other (p : Package) (dir : gmap string string) (f : string) :
  f ≠ winget_file -> f ≠ choco_file ->
  generate_install_scripts p dir !! f = dir !! f.
Proof.
  intros Hw Hc. unfold generate_install_scripts.
  destruct (choco_pkgs (pkg_software p));
    [|rewrite lookup_insert_ne by congruence];
    (destruct (winget_pkgs (pkg_software p)); [reflexivity|];
     now rewrite lookup_insert_ne by congruence).
Qed.






End generate.




Section export.



End export.




(** C9. The [export_date] of an exported package is the empty string, in
    the package and in the file written, whatever the state exported and
    whenever the export runs: no date is recorded. *)
Theorem C9_export_date_is_empty_string (g : ScannerGUI) (dir : gmap string string) :
  match export_selection g dir with
  | Some out =>
      ∃ p, build_package g = Some p
           ∧ export_date p = ""
           ∧ out !! package_file = Some (json_dump (package_json p))
           ∧ ∃ rest, package_json p = JDict (("export_date", JStr "") :: rest)
  | None => build_package g = None
  end.
Proof.
  unfold export_selection. destruct (build_package g) as [p|] eqn:E; [|reflexivity].
  exists p. split; [reflexivity|].
  assert (Hd : export_date p = "").
  { unfold build_package in E. destruct (scan_data g); [|discriminate].
    now inversion E. }
  split; [exact Hd|]. split.
  - rewrite generate_other by discriminate. now rewrite lookup_insert_eq.
  - unfold package_json. rewrite Hd. eexists. reflexivity.
Qed.

(** The head of the file an export of the sample scan writes. *)
Example C9_sample_export_date :
  ∃ out text,
    export_selection sample_gui ∅ = Some out
    ∧ out !! package_file = Some text
    ∧ String.prefix ("{" +:+ LF +:+ "  " +:+ DQ +:+ "export_date" +:+ DQ
                     +:+ ": " +:+ DQ +:+ DQ +:+ "," +:+ LF) text = true.
Proof.
  eexists. eexists. split; [reflexivity|].
  split; [vm_compute; reflexivity | vm_compute; reflexivity].
Qed.

(** C3. The package file an export writes is a function of the loaded
    scan, the two selection states, the configuration boxes and the three
    licence boxes: two exports that agree on these write the same text,
    whatever the directory already holds and whatever the rest of the
    state (search boxes, tree rows, scan path) is; and with a scan loaded
    the export does write the file. *)
Theorem C3_export_twice_same_package_file
  (g1 g2 : ScannerGUI) (dir1 dir2 : gmap string string) :
  scan_data g1 = scan_data g2 ->
  selections_software g1 = selections_software g2 ->
  selections_store_apps g1 = selections_store_apps g2 ->
  config_options g1 = config_options g2 ->
  include_windows_key g1 = include_windows_key g2 ->
  include_office_keys g1 = include_office_keys g2 ->
  include_wifi g1 = include_wifi g2 ->
  (fun out : gmap string string => out !! package_file) <$> export_selection g1 dir1
  = (fun out : gmap string string => out !! package_file) <$> export_selection g2 dir2
  ∧ (is_Some (scan_data g1) ->
     ∃ out text, export_selection g1 dir1 = Some out
                 ∧ out !! package_file = Some text).
Proof.
  intros Hsd Hsw Hst Hco Hwk Hok Hwf.
  assert (Hp : build_package g1 = build_package g2).
  { unfold build_package, export_software, export_store_apps, export_licenses.
    now rewrite Hsd, Hsw, Hst, Hco, Hwk, Hok, Hwf. }
  split.
  - unfold export_selection. rewrite Hp.
    destruct (build_package g2) as [p|]; [|reflexivity]. simpl.
    rewrite !generate_other by discriminate.
    now rewrite !lookup_insert_eq.
  - intros [d Hd]. unfold export_selection, build_package. rewrite Hd.
    eexists. eexists. split; [reflexivity|].
    rewrite generate_other by discriminate. now rewrite lookup_insert_eq.
Qed.

Lemma C3_export_twice_same_package_file_witness :
  (fun out : gmap string string => out !! package_file)
    <$> export_selection sample_gui ∅
  = (fun out : gmap string string => out !! package_file)
    <$> export_selection (type_search sample_gui software "tool")
          (default ∅ (export_selection sample_gui ∅))
  ∧ (is_Some (scan_data sample_gui) ->
     ∃ out text, export_selection sample_gui ∅ = Some out
                 ∧ out !! package_file = Some text).
Proof.
  apply (C3_export_twice_same_package_file sample_gui
           (type_search sample_gui software "tool") ∅
           (default ∅ (export_selection sample_gui ∅))); reflexivity.
Defined.

(** ** Dictionaries in insertion order *)

Section odict_facts.
Context {K V : Type} `{EqDecision K}.
Implicit Types (d : list (K * V)) (k : K) (v : V).

Lemma od_get_set d k v k' :
  od_get (od_set d k v) k' = if decide (k = k') then Some v else od_get d k'.
Proof.
  induction d as [|[k0 v0] d IH]; simpl.
  - destruct (decide (k' = k)), (decide (k = k')); congruence.
  - destruct (decide (k = k0)) as [->|N]; simpl.
    + destruct (decide (k' = k0)), (decide (k0 = k')); congruence.
    + rewrite IH. destruct (decide (k' = k0)), (decide (k = k')); congruence.
Qed.

Lemma od_get_set_eq d k v : od_get (od_set d k v) k = Some v.
Proof. rewrite od_get_set. now destruct (decide (k = k)). Qed.

Lemma od_get_set_ne d k v k' : k ≠ k' -> od_get (od_set d k v) k' = od_get d k'.
Proof. intros N. rewrite od_get_set. now destruct (decide (k = k')). Qed.

Lemma od_get_is_Some d k : is_Some (od_get d k) <-> k ∈ d.*1.
Proof.
  induction d as [|[k0 v0] d IH]; simpl.
  - split; [intros [? ?]; discriminate | intros H'; inversion H'].
  - rewrite elem_of_cons. destruct (decide (k = k0)) as [->|N].
    + split; [now left | intros _; now eexists].
    + rewrite IH. split; [now right | intros [?|?]; [contradiction | assumption]].
Qed.

Lemma od_mem_true d k : od_mem d k = true <-> k ∈ d.*1.
Proof. unfold od_mem. apply bool_decide_eq_true. Qed.

(** Writing an existing key moves no key. *)
Lemma od_set_keys_in d k v : k ∈ d.*1 -> (od_set d k v).*1 = d.*1.
Proof.
  induction d as [|[k0 v0] d IH]; simpl; [intros H'; inversion H'|].
  intros Hin. destruct (decide (k = k0)) as [->|N]; simpl; [reflexivity|].
  f_equal. apply IH. apply elem_of_cons in Hin as [?|?]; [contradiction|assumption].
Qed.

(** A new key goes last. *)
Lemma od_set_keys_new d k v : k ∉ d.*1 -> (od_set d k v).*1 = d.*1 ++ [k].
Proof.
  induction d as [|[k0 v0] d IH]; simpl; [reflexivity|].
  intros Hnin. rewrite not_elem_of_cons in Hnin. destruct Hnin as [N Hnin].
  destruct (decide (k = k0)); [contradiction|]. simpl. f_equal. now apply IH.
Qed.

Lemma od_set_keys_elem d k v k' : k' ∈ (od_set d k v).*1 <-> k' = k ∨ k' ∈ d.*1.
Proof.
  destruct (decide (k ∈ d.*1)) as [Hin|Hnin].
  - rewrite od_set_keys_in by assumption. split; [now right|].
    intros [->|?]; assumption.
  - rewrite od_set_keys_new by assumption.
    rewrite elem_of_app, list_elem_of_singleton. tauto.
Qed.

Lemma od_set_NoDup d k v : NoDup d.*1 -> NoDup (od_set d k v).*1.
Proof.
  intros Hnd. destruct (decide (k ∈ d.*1)) as [Hin|Hnin].
  - now rewrite od_set_keys_in.
  - rewrite od_set_keys_new by assumption.
    apply NoDup_app. split; [assumption|]. split; [|apply NoDup_singleton].
    intros x Hx Hx'. apply list_elem_of_singleton in Hx'. now subst.
Qed.

(** With distinct keys, the value an item carries is the value a lookup
    finds. *)
Lemma od_get_elem d k v : NoDup d.*1 -> (k, v) ∈ d -> od_get d k = Some v.
Proof.
  induction d as [|[k0 v0] d IH]; simpl; intros Hnd Hin; [inversion Hin|].
  apply NoDup_cons in Hnd as [Hk0 Hnd].
  apply elem_of_cons in Hin as [E|Hin].
  - inversion E; subst. now destruct (decide (k0 = k0)).
  - destruct (decide (k = k0)) as [->|N]; [|now apply IH].
    exfalso. apply Hk0. apply list_elem_of_fmap. now exists (k0, v).
Qed.

Lemma od_set_app_new (d1 d2 : list (K * V)) k v :
  k ∉ d1.*1 -> od_set (d1 ++ d2) k v = d1 ++ od_set d2 k v.
Proof.
  induction d1 as [|[k0 v0] d1 IH]; simpl; [reflexivity|].
  intros Hnin. rewrite not_elem_of_cons in Hnin. destruct Hnin as [N Hnin].
  destruct (decide (k = k0)); [contradiction|]. f_equal. now apply IH.
Qed.
End odict_facts.

(** ** The state setters *)

Section setters.
Implicit Types (g : ScannerGUI) (c : category).

Lemma selections_set_selections g c c' d :
  selections (set_selections g c d) c' = if decide (c = c') then d else selections g c'.
Proof. now destruct c, c'. Qed.

Lemma selections_set_tree g c c' t :
  selections (set_tree g c t) c' = selections g c'.
Proof. now destruct c, c'. Qed.

Lemma tree_set_tree g c c' t :
  tree (set_tree g c t) c' = if decide (c = c') then t else tree g c'.
Proof. now destruct c, c'. Qed.

Lemma tree_set_selections g c c' d :
  tree (set_selections g c d) c' = tree g c'.
Proof. now destruct c, c'. Qed.
End setters.

(** ** Selection handlers *)

Section handlers.
Implicit Types (g : ScannerGUI) (c : category) (item k : iid).

(** A handler that folds over rows changes the selection of a row only
    if one of its rounds does. *)
Lemma fold_rows_other (F : ScannerGUI -> iid -> ScannerGUI) c k
  (touches : iid -> Prop) :
  (∀ g x, ¬ touches x ->
     od_get (selections (F g x) c) k = od_get (selections g c) k) ->
  ∀ ch g, (∀ x, x ∈ ch -> ¬ touches x) ->
    od_get (selections (fold_left F ch g) c) k = od_get (selections g c) k.
Proof.
  intros HF ch. induction ch as [|x ch IH]; intros g Hch; simpl; [reflexivity|].
  rewrite IH by (intros y Hy; apply Hch; now right).
  apply HF, Hch. now left.
Qed.

Lemma fold_rows_keeps (F : ScannerGUI -> iid -> ScannerGUI) c k :
  (∀ g x, is_Some (od_get (selections g c) k) ->
     is_Some (od_get (selections (F g x) c) k)) ->
  ∀ ch g, is_Some (od_get (selections g c) k) ->
    is_Some (od_get (selections (fold_left F ch g) c) k).
Proof.
  intros HF ch. induction ch as [|x ch IH]; intros g Hk; simpl; [assumption|].
  apply IH, HF, Hk.
Qed.

Lemma mark_get c0 b g item c k :
  od_get (selections (mark c0 b g item) c) k
  = if decide (c0 = c ∧ item = k) then Some b else od_get (selections g c) k.
Proof.
  unfold mark. rewrite selections_set_tree, selections_set_selections.
  destruct (decide (c0 = c)) as [->|Nc].
  - rewrite od_get_set. destruct (decide (item = k)) as [->|Nk].
    + now rewrite decide_True.
    + rewrite decide_False by tauto.
      destruct (od_mem (selections g c) item); [reflexivity|].
      now rewrite od_get_set_ne.
  - now rewrite decide_False by tauto.
Qed.

Lemma mark_winget_other g item c k :
  ¬ (software = c ∧ item = k) ->
  od_get (selections (mark_winget g item) c) k = od_get (selections g c) k.
Proof.
  intros H. unfold mark_winget.
  rewrite selections_set_tree, selections_set_selections.
  case_decide as Hc; [subst c|reflexivity].
  apply od_get_set_ne. intros ->. now apply H.
Qed.

Lemma mark_winget_keeps g item c k :
  is_Some (od_get (selections g c) k) ->
  is_Some (od_get (selections (mark_winget g item) c) k).
Proof.
  intros Hk. unfold mark_winget.
  rewrite selections_set_tree, selections_set_selections.
  case_decide as Hc; [subst c|assumption].
  rewrite od_get_set. now case_decide.
Qed.

Lemma mark_keeps c0 b g item c k :
  is_Some (od_get (selections g c) k) ->
  is_Some (od_get (selections (mark c0 b g item) c) k).
Proof. intros Hk. rewrite mark_get. now case_decide. Qed.

(** Typing in a search box changes no selection. *)
Lemma type_search_selections g c term c' :
  selections (type_search g c term) c' = selections g c'.
Proof.
  unfold type_search, filter_tree. rewrite selections_set_tree.
  now destruct c, c'.
Qed.

(** The rows a button acts on are those displayed when it is pressed. *)
Lemma marks_hidden c0 b g c k :
  k ∉ children (tree g c) ->
  od_get (selections (fold_left (mark c0 b) (children (tree g c0)) g) c) k
  = od_get (selections g c) k.
Proof.
  intros Hk. apply (fold_rows_other _ c k (fun x => c0 = c ∧ x = k)).
  - intros g' x H. rewrite mark_get. now rewrite decide_False.
  - intros x Hx [-> ->]. contradiction.
Qed.

(** One action leaves the selection of a row that is not displayed as it
    was. *)
Lemma step_hidden g (o : op) c k :
  k ∉ children (tree g c) ->
  od_get (selections (step g o) c) k = od_get (selections g c) k.
Proof.
  intros Hk. destruct o as [c0 y|c0|c0| |c0 term]; simpl.
  - unfold toggle_selection, identify_row.
    destruct (children (tree g c0) !! y) as [item|] eqn:Ey; [|reflexivity].
    destruct (od_get (selections g c0) item) as [b|]; [|reflexivity].
    rewrite selections_set_tree, selections_set_selections.
    case_decide as Hc; [subst c0|reflexivity].
    apply od_get_set_ne. intros ->. apply Hk.
    eapply list_elem_of_lookup_2, Ey.
  - unfold select_all. pose proof (marks_hidden c0 true g c k Hk) as H.
    now destruct (children (tree g c0)).
  - unfold deselect_all. pose proof (marks_hidden c0 false g c k Hk) as H.
    now destruct (children (tree g c0)).
  - unfold select_winget.
    apply (fold_rows_other _ c k (fun x => software = c ∧ x = k)).
    + intros g' x H. now apply mark_winget_other.
    + intros x Hx [<- ->]. contradiction.
  - now rewrite type_search_selections.
Qed.

(** One action removes no key. *)
Lemma step_keeps g (o : op) c k :
  is_Some (od_get (selections g c) k) ->
  is_Some (od_get (selections (step g o) c) k).
Proof.
  intros Hk. destruct o as [c0 y|c0|c0| |c0 term]; simpl.
  - unfold toggle_selection.
    destruct (identify_row (tree g c0) y) as [item|]; [|assumption].
    destruct (od_get (selections g c0) item) as [b|]; [|assumption].
    rewrite selections_set_tree, selections_set_selections.
    case_decide as Hc; [subst c0|assumption].
    rewrite od_get_set. now case_decide.
  - unfold select_all. destruct (children (tree g c0)) as [|x ch]; [assumption|].
    apply fold_rows_keeps; [|assumption]. intros; now apply mark_keeps.
  - unfold deselect_all. destruct (children (tree g c0)) as [|x ch]; [assumption|].
    apply fold_rows_keeps; [|assumption]. intros; now apply mark_keeps.
  - unfold select_winget.
    apply fold_rows_keeps; [|assumption]. intros; now apply mark_winget_keeps.
  - now rewrite type_search_selections.
Qed.
End handlers.

(** C4. Along every sequence of clicks, Select All, Deselect All, Select
    Winget Available and search-box edits, an identifier that is a key of a
    category's selection stays a key, with a boolean value; and as long as
    every action other than a search-box edit starts from a state in which
    the identifier is not displayed, its selection at the end is the one it
    had at the start. *)
Theorem C4_selection_keys_persist_hidden_preserved
  (g : ScannerGUI) (ops : list op) (c : category) (item : iid) :
  is_Some (od_get (selections g c) item) ->
  (∃ b : bool, od_get (selections (run ops g) c) item = Some b)
  ∧ (Forall (fun s : ScannerGUI * op =>
               is_search s.2 = true ∨ item ∉ children (tree s.1 c))
            (trace ops g)
     -> od_get (selections (run ops g) c) item = od_get (selections g c) item).
Proof.
  revert g. unfold run. induction ops as [|o ops IH]; intros g Hk; simpl.
  - split; [exact Hk | reflexivity].
  - destruct (IH (step g o) (step_keeps g o c item Hk)) as [IH1 IH2].
    split; [exact IH1|]. intros Htr. apply Forall_cons in Htr as [Ho Htr].
    rewrite (IH2 Htr). simpl in Ho. destruct Ho as [Ho|Ho].
    + destruct o; try discriminate. simpl. now rewrite type_search_selections.
    + now apply step_hidden.
Qed.

Lemma C4_selection_keys_persist_hidden_preserved_witness :
  let ops := [ TypeSearch software "tool"; SelectAll software;
               DeselectAll software; Toggle software 0; SelectWinget;
               TypeSearch software "" ] in
  (∃ b : bool, od_get (selections (run ops sample_gui) software) (sw_ 2) = Some b)
  ∧ od_get (selections (run ops sample_gui) software) (sw_ 2)
    = od_get (selections sample_gui software) (sw_ 2).
Proof.
  intros ops.
  destruct (C4_selection_keys_persist_hidden_preserved sample_gui ops software (sw_ 2))
    as [H1 H2]; [apply (bool_decide_unpack _); vm_compute; exact I|].
  split; [exact H1|]. apply H2.
  apply (bool_decide_unpack _). vm_compute. exact I.
Defined.

Section select_deselect.
Implicit Types (g : ScannerGUI) (c : category) (item k : iid).

Lemma select_all_fold g c :
  select_all g c = fold_left (mark c true) (children (tree g c)) g.
Proof. unfold select_all. now destruct (children (tree g c)). Qed.

Lemma deselect_all_fold g c :
  deselect_all g c = fold_left (mark c false) (children (tree g c)) g.
Proof. unfold deselect_all. now destruct (children (tree g c)). Qed.

Lemma children_mark c0 b g x c :
  children (tree (mark c0 b g x) c) = children (tree g c).
Proof.
  unfold mark. rewrite tree_set_tree, tree_set_selections.
  now case_decide; subst.
Qed.

Lemma children_marks c0 b ch g c :
  children (tree (fold_left (mark c0 b) ch g) c) = children (tree g c).
Proof.
  revert g. induction ch as [|x ch IH]; intros g; simpl; [reflexivity|].
  now rewrite IH, children_mark.
Qed.

Lemma marks_get c0 b ch g c k :
  od_get (selections (fold_left (mark c0 b) ch g) c) k
  = if decide (c0 = c ∧ k ∈ ch) then Some b else od_get (selections g c) k.
Proof.
  revert g. induction ch as [|x ch IH]; intros g; simpl.
  - rewrite decide_False; [reflexivity|]. intros [_ H]. inversion H.
  - rewrite IH, mark_get.
    destruct (decide (c0 = c ∧ k ∈ ch)) as [[-> Hin]|N].
    + rewrite decide_True; [reflexivity|]. split; [reflexivity|now right].
    + destruct (decide (c0 = c ∧ x = k)) as [[-> ->]|N'].
      * rewrite decide_True; [reflexivity|]. split; [reflexivity|now left].
      * rewrite decide_False; [reflexivity|].
        intros [-> H]. apply elem_of_cons in H as [->|H]; tauto.
Qed.

Lemma mark_NoDup c0 b g x c :
  NoDup (selections g c).*1 -> NoDup (selections (mark c0 b g x) c).*1.
Proof.
  intros Hnd. unfold mark.
  rewrite selections_set_tree, selections_set_selections.
  case_decide as Hc; [subst c0|assumption].
  apply od_set_NoDup. case_if; [assumption | now apply od_set_NoDup].
Qed.

Lemma marks_NoDup c0 b ch g c :
  NoDup (selections g c).*1 ->
  NoDup (selections (fold_left (mark c0 b) ch g) c).*1.
Proof.
  revert g. induction ch as [|x ch IH]; intros g Hnd; simpl; [assumption|].
  now apply IH, mark_NoDup.
Qed.

(** An export of a selection in which nothing is ticked is empty. *)
Lemma export_selected_none {A B} (f : A -> B) (sel : list (iid * bool))
  (src : list A) :
  (∀ kv, kv ∈ sel -> kv.2 = false) -> export_selected f sel src = [].
Proof.
  unfold export_selected. induction sel as [|[k v] sel IH]; intros H; simpl;
    [reflexivity|].
  assert (E : v = false) by (apply (H (k, v)); now left).
  subst v. simpl. apply IH.
  intros kv Hkv. apply H. now right.
Qed.
(** An export lists no entry when every ticked key has an index past the
    end of the scan's list. *)
Lemma export_selected_out_of_range {A B} (f : A -> B) (sel : list (iid * bool))
  (src : list A) :
  (∀ kv, kv ∈ sel -> kv.2 = true -> length src <= iid_index kv.1) ->
  export_selected f sel src = [].
Proof.
  unfold export_selected. induction sel as [|[k v] sel IH]; intros H; simpl;
    [reflexivity|].
  rewrite IH by (intros kv Hkv; apply H; now right).
  destruct v; [|reflexivity].
  rewrite (lookup_ge_None_2 src (iid_index k)); [reflexivity|].
  apply (H (k, true)); [now left | reflexivity].
Qed.
End select_deselect.

(** C5, as the code has it. Select All followed by Deselect All on a
    category leaves every identifier displayed in the category's tree
    deselected and the
    selection of every other identifier as it was. An export performed
    immediately afterwards contains no entry for the category when every
    ticked identifier of the category that denotes an entry of the scan
    (its index is below the number of the scan's entries) is displayed in
    the tree: no such identifier is hidden by the search filter or left
    without a row. A ticked identifier left by an earlier, longer scan,
    whose index is past the end of the scan, does not matter: the export
    skips it. *)
Theorem C5_select_all_then_deselect_all_displayed
  (g : ScannerGUI) (c : category) :
  NoDup (selections g c).*1 ->
  let g' := deselect_all (select_all g c) c in
  (∀ item, item ∈ children (tree g c) ->
     od_get (selections g' c) item = Some false)
  ∧ (∀ item, item ∉ children (tree g c) ->
       od_get (selections g' c) item = od_get (selections g c) item)
  ∧ (∀ d,
       (∀ item, od_get (selections g c) item = Some true ->
                iid_index item < scanned_rows d c ->
                item ∈ children (tree g c)) ->
       match c with
       | software => export_software g' d = []
       | store_apps => export_store_apps g' d = []
       end).
Proof.
  intros Hnd g'.
  assert (Hget : ∀ k, od_get (selections g' c) k
                      = if decide (k ∈ children (tree g c)) then Some false
                        else od_get (selections g c) k).
  { intros k. unfold g'.
    rewrite deselect_all_fold, select_all_fold, children_marks, !marks_get.
    destruct (decide (k ∈ children (tree g c))) as [Hin|Hnin].
    - now rewrite decide_True.
    - now rewrite !decide_False by tauto. }
  split; [|split].
  - intros item Hin. rewrite Hget. now rewrite decide_True.
  - intros item Hnin. rewrite Hget. now rewrite decide_False.
  - intros d Hall.
    assert (Hnd' : NoDup (selections g' c).*1).
    { unfold g'. rewrite deselect_all_fold, select_all_fold.
      now apply marks_NoDup, marks_NoDup. }
    assert (Hout : ∀ kv, kv ∈ selections g' c -> kv.2 = true ->
                         scanned_rows d c <= iid_index kv.1).
    { intros [k v] Hkv Hv. simpl in *. subst v.
      pose proof (od_get_elem _ _ _ Hnd' Hkv) as E. rewrite Hget in E.
      case_decide as Hin; [discriminate|].
      destruct (le_lt_dec (scanned_rows d c) (iid_index k)) as [Hle|Hlt];
        [exact Hle|].
      exfalso. now apply Hin, Hall. }
    destruct c; simpl in Hout.
    + unfold export_software.
      destruct (sd_mappings d); [now apply export_selected_out_of_range|].
      destruct (sd_software d) as [inv|]; [|reflexivity].
      destruct (InstalledSoftware inv);
        [now apply export_selected_out_of_range|reflexivity].
    + unfold export_store_apps.
      destruct (sd_software d) as [inv|]; [|reflexivity].
      destruct (StoreApps inv);
        [now apply export_selected_out_of_range|reflexivity].
Qed.

(** At the scanner that loaded the three packages of the sample scan and
    then a scan of one package: the keys [sw_1] and [sw_2] are ticked and
    have no row, and the export after Select All and Deselect All is
    empty. *)
Lemma C5_select_all_then_deselect_all_displayed_witness :
  let g' := deselect_all (select_all reloaded_gui software) software in
  od_get (selections reloaded_gui software) (sw_ 2) = Some true
  ∧ od_get (selections g' software) (sw_ 2) = Some true
  ∧ od_get (selections g' software) (sw_ 0) = Some false
  ∧ export_software g' short_scan = [].
Proof.
  intros g'.
  destruct (C5_select_all_then_deselect_all_displayed reloaded_gui software)
    as [H1 [_ H3]]; [apply (bool_decide_unpack _); vm_compute; exact I|].
  split; [reflexivity|]. split; [reflexivity|]. split.
  - apply H1. apply (bool_decide_unpack _). vm_compute. exact I.
  - apply H3. intros item Hsel Hlt.
    destruct item as [[|i]|i]; simpl in Hlt; [|lia|discriminate Hsel].
    apply (bool_decide_unpack _). vm_compute. exact I.
Defined.

(** C5 as stated fails: with the search box hiding a ticked row, Select
    All followed by Deselect All leaves that row ticked, and the export
    that follows contains it. *)
Lemma C5_counterexample :
  let g := type_search sample_gui software "tool" in
  let g' := deselect_all (select_all g software) software in
  children (tree g software) = [sw_ 0; sw_ 1]
  ∧ od_get (selections g' software) (sw_ 2) = Some true
  ∧ pkg_software <$> build_package g' = Some [editor_c].
Proof. repeat split. Qed.

(** Why the amended condition is on ticked identifiers and not on hidden
    rows only. The user ticks the store app, hides a software row with the
    search box and loads the scan again: the load clears both trees and
    raises on the hidden software row, before any store row is entered.
    No store row is hidden (the store tree has no row at all), Select All
    and Deselect All find nothing to act on, and the export lists the
    store app. *)
Lemma ticked_key_without_row_is_exported :
  let g0 := type_search (toggle_selection sample_gui store_apps 0) software "tool" in
  let g := state_of (load_scan g0 "D:/scan" sample_scan) in
  let g' := deselect_all (select_all g store_apps) store_apps in
  load_scan g0 "D:/scan" sample_scan = Raised g
  ∧ items (tree g store_apps) = []
  ∧ od_get (selections g store_apps) (store_ 0) = Some true
  ∧ pkg_store_apps <$> build_package g' = Some [store_entry photos].
Proof.
  intros g0 g g'.
  split; [vm_compute; reflexivity|]. split; [vm_compute; reflexivity|].
  split; vm_compute; reflexivity.
Qed.

(** ** Loading a scan *)

Section populate.
Implicit Types (g : ScannerGUI) (c : category) (sel : list (iid * bool)).

Lemma selections_set_all_iids g c l c' :
  selections (set_all_iids g c l) c' = selections g c'.
Proof. now destruct c, c'. Qed.

Lemma populate_rows_done c mk b rows :
  ∀ i g g', populate_rows c mk b rows i g = Done g' ->
    selections g' c = set_rows mk b i (length rows) (selections g c)
    ∧ (∀ c', c' ≠ c -> selections g' c' = selections g c')
    ∧ scan_data g' = scan_data g.
Proof.
  induction rows as [|vals rows IH]; intros i g g' H; simpl in H.
  - inversion H; subst. repeat split.
  - destruct (tree_insert (tree g c) (mk i) _) as [t|]; [|discriminate].
    apply IH in H as [H1 [H2 H3]]. split; [|split].
    + rewrite H1. unfold set_rows. simpl.
      rewrite selections_set_all_iids, selections_set_selections.
      rewrite decide_True by reflexivity. now rewrite selections_set_tree.
    + intros c' N. rewrite (H2 c' N).
      rewrite selections_set_all_iids, selections_set_selections.
      rewrite decide_False by congruence. now rewrite selections_set_tree.
    + rewrite H3. now destruct c.
Qed.

Lemma set_rows_in_order (mk : nat -> iid) (b : bool) sel k :
  Inj (=) (=) mk ->
  sel.*1 = mk <$> seq 0 k ->
  ∀ n, set_rows mk b 0 n sel = ((fun j => (mk j, b)) <$> seq 0 n) ++ drop n sel.
Proof.
  intros Hinj Hkeys n. unfold set_rows. induction n as [|n IH].
  - now rewrite drop_0.
  - rewrite seq_S, fold_left_app, IH. simpl.
    rewrite od_set_app_new.
    2:{ rewrite <- list_fmap_compose. intros Hin.
        apply list_elem_of_fmap in Hin as [j [E Hj]]. simpl in E.
        apply Hinj in E. subst j. apply elem_of_seq in Hj. lia. }
    rewrite fmap_app, <- app_assoc. f_equal. simpl.
    destruct (sel !! n) as [[k0 v0]|] eqn:En.
    + rewrite (drop_S _ _ _ En). simpl.
      assert (Ek : k0 = mk n).
      { assert (H1 : sel.*1 !! n = Some k0) by now rewrite list_lookup_fmap, En.
        rewrite Hkeys, list_lookup_fmap in H1.
        destruct (seq 0 k !! n) as [j|] eqn:Ej; [|discriminate].
        apply lookup_seq in Ej as [-> _]. now inversion H1. }
      subst k0. now rewrite decide_True.
    + apply lookup_ge_None in En.
      rewrite !drop_ge by lia. reflexivity.
Qed.

(** The rows of the source, each exported: the selection holds the keys
    of the [n] rows, all ticked or none. *)
Lemma export_selected_rows {A B} (f : A -> B) (mk : nat -> iid) (b : bool)
  (src : list A) :
  (∀ j, iid_index (mk j) = j) ->
  ∀ i, export_selected f ((fun j => (mk j, b)) <$> seq i (length src - i)) src
       = if b then f <$> drop i src else [].
Proof.
  intros Hmk i. unfold export_selected.
  remember (length src - i) as n eqn:En. revert i En.
  induction n as [|n IH]; intros i En; simpl.
  - rewrite drop_ge by lia. now destruct b.
  - rewrite IH by lia. rewrite Hmk. destruct b; [|reflexivity].
    destruct (src !! i) as [x|] eqn:Ei.
    + now rewrite (drop_S _ _ _ Ei).
    + apply lookup_ge_None in Ei. lia.
Qed.

Lemma export_selected_app {A B} (f : A -> B) sel1 sel2 (src : list A) :
  export_selected f (sel1 ++ sel2) src
  = export_selected f sel1 src ++ export_selected f sel2 src.
Proof. unfold export_selected. apply flat_map_app. Qed.

(** Keys past the end of the source export nothing. *)
Lemma export_selected_past {A B} (f : A -> B) sel (src : list A) :
  (∀ kv, kv ∈ sel -> length src <= iid_index kv.1) ->
  export_selected f sel src = [].
Proof.
  unfold export_selected. induction sel as [|[k v] sel IH]; intros H; simpl;
    [reflexivity|].
  rewrite IH by (intros kv Hkv; apply H; now right).
  pose proof (H (k, v) ltac:(now left)) as Hk. simpl in Hk.
  rewrite (proj2 (lookup_ge_None src (iid_index k))) by lia.
  now destruct v.
Qed.

(** After the rows of a source are entered, an export of that source
    lists all of it when the rows are entered ticked and none of it when
    they are entered unticked. *)
Lemma export_after_set_rows {A B} (f : A -> B) (mk : nat -> iid) (b : bool)
  sel (src : list A) :
  Inj (=) (=) mk -> (∀ j, iid_index (mk j) = j) ->
  keys_in_order mk sel ->
  export_selected f (set_rows mk b 0 (length src) sel) src
  = if b then f <$> src else [].
Proof.
  intros Hinj Hmk [k Hkeys].
  rewrite (set_rows_in_order mk b sel k Hinj Hkeys), export_selected_app.
  pose proof (export_selected_rows f mk b src Hmk 0) as H.
  rewrite Nat.sub_0_r, drop_0 in H. rewrite H.
  rewrite export_selected_past; [now destruct b; rewrite ?app_nil_r|].
  intros [k0 v0] Hkv. simpl.
  apply list_elem_of_lookup in Hkv as [i Hi].
  rewrite lookup_drop in Hi.
  assert (H1 : sel.*1 !! (length src + i) = Some k0)
    by now rewrite list_lookup_fmap, Hi.
  rewrite Hkeys, list_lookup_fmap in H1.
  destruct (seq 0 k !! (length src + i)) as [j|] eqn:Ej; [|discriminate].
  apply lookup_seq in Ej as [-> _]. inversion H1. rewrite Hmk. lia.
Qed.

Lemma set_rows_get (mk : nat -> iid) (b : bool) sel :
  Inj (=) (=) mk ->
  ∀ n i j, i <= j < i + n -> od_get (set_rows mk b i n sel) (mk j) = Some b.
Proof.
  intros Hinj n. unfold set_rows. revert sel.
  induction n as [|n IH]; intros sel i j Hj; [lia|].
  rewrite seq_S, fold_left_app. simpl. rewrite od_get_set.
  case_decide as E; [reflexivity|].
  apply IH. assert (j ≠ i + n) by congruence. lia.
Qed.

Lemma populate_licenses_selections d g c :
  selections (populate_licenses d g) c = selections g c.
Proof.
  unfold populate_licenses. destruct (sd_licenses d); [|reflexivity].
  case_if; [now destruct c | reflexivity].
Qed.

Lemma populate_licenses_scan_data d g :
  scan_data (populate_licenses d g) = scan_data g.
Proof.
  unfold populate_licenses. destruct (sd_licenses d); [|reflexivity].
  now case_if.
Qed.

(** What a completed [_populate_ui] leaves in the two selections. *)
Lemma populate_ui_done g g' d :
  scan_data g = Some d ->
  populate_ui g = Done g' ->
  selections g' software
    = set_rows sw_ true 0 (scanned_rows d software) (selections g software)
  ∧ selections g' store_apps
    = set_rows store_ false 0 (scanned_rows d store_apps) (selections g store_apps)
  ∧ scan_data g' = Some d.
Proof.
  intros Hsd. unfold populate_ui. rewrite Hsd.
  destruct (scan_data_falsy (Some d)) eqn:Ef.
  - intros H. inversion H; subst g'. clear H.
    unfold scan_data_falsy in Ef. unfold scanned_rows.
    destruct (sd_software d), (sd_mappings d), (sd_licenses d), (sd_config d);
      try discriminate.
    now repeat split.
  - set (g3 := set_all_iids _ store_apps []).
    assert (H3 : ∀ c, selections g3 c = selections g c) by now intros [].
    assert (H3' : scan_data g3 = Some d) by exact Hsd.
    clearbody g3. unfold and_then.
    destruct (match sd_mappings d with
              | Some m => populate_rows software sw_ true (map mapping_row m) 0 g3
              | None =>
                  match sd_software d with
                  | Some inv =>
                      populate_rows software sw_ true
                        (map installed_row (or_empty (InstalledSoftware inv))) 0 g3
                  | None => Done g3
                  end
              end) as [g4|g4] eqn:E4; [|discriminate].
    assert (H4 : selections g4 software
                 = set_rows sw_ true 0 (scanned_rows d software) (selections g software)
                 ∧ selections g4 store_apps = selections g store_apps
                 ∧ scan_data g4 = Some d).
    { unfold scanned_rows. destruct (sd_mappings d) as [m|].
      - apply populate_rows_done in E4 as [H1 [H2 H5]].
        rewrite H1, (H2 store_apps) by discriminate.
        now rewrite length_map, !H3, H5.
      - destruct (sd_software d) as [inv|].
        + apply populate_rows_done in E4 as [H1 [H2 H5]].
          rewrite H1, (H2 store_apps) by discriminate.
          now rewrite length_map, !H3, H5.
        + inversion E4; subst g4. now rewrite !H3. }
    destruct H4 as [H4a [H4b H4c]].
    destruct (match sd_software d with
              | Some inv =>
                  populate_rows store_apps store_ false
                    (map store_row (or_empty (StoreApps inv))) 0 g4
              | None => Done g4
              end) as [g5|g5] eqn:E5; [|discriminate].
    intros H. inversion H; subst g'. clear H.
    rewrite !populate_licenses_selections, populate_licenses_scan_data.
    unfold scanned_rows at 2. destruct (sd_software d) as [inv|].
    + apply populate_rows_done in E5 as [H1 [H2 H5]].
      rewrite H1, (H2 software) by discriminate.
      now rewrite length_map, H4a, H4b, H5.
    + inversion E5; subst g5. now rewrite H4a, H4b.
Qed.

Lemma sw_inj : Inj (=) (=) sw_.
Proof. intros i j E. now inversion E. Qed.

Lemma store_inj : Inj (=) (=) store_.
Proof. intros i j E. now inversion E. Qed.
End populate.

(** ** Reachable states *)

Section invariant.
Implicit Types (t : Treeview) (g : ScannerGUI) (c : category) (item : iid).

Lemma tree_set_text_keys t item b : (items (tree_set_text t item b)).*1 = (items t).*1.
Proof.
  unfold tree_set_text. simpl. rewrite <- list_fmap_compose.
  apply list_fmap_ext. intros i [k r] _. simpl. now case_decide.
Qed.

Lemma tree_values_Some t item vals :
  tree_values t item = Some vals -> item ∈ (items t).*1.
Proof.
  unfold tree_values. intros H. apply od_get_is_Some.
  destruct (od_get (items t) item); [now eexists | discriminate].
Qed.

Lemma filter_loop_items search_term visible t (iids : list iid) :
  items (filter_loop search_term visible t iids) = items t.
Proof.
  revert t. induction iids as [|x iids IH]; intros t; cbn [filter_loop];
    [reflexivity|].
  destruct (tree_values t x) as [[|v vals]|]; [apply IH| |reflexivity].
  rewrite IH. repeat case_if; reflexivity.
Qed.

Lemma filter_loop_children search_term visible t (iids : list iid) item :
  item ∈ children (filter_loop search_term visible t iids) ->
  item ∈ children t ∨ item ∈ (items t).*1.
Proof.
  revert t. induction iids as [|x iids IH]; intros t; cbn [filter_loop];
    [intros ?; now left|].
  destruct (tree_values t x) as [[|v vals]|] eqn:Ev;
    [apply IH| |intros ?; now left].
  intros H. apply IH in H.
  apply tree_values_Some in Ev.
  match type of H with
  | context [children ?t'] =>
      assert (Ht : items t' = items t
                   ∧ ∀ y, y ∈ children t' -> y ∈ children t ∨ y = x)
  end.
  { repeat case_if; (split; [reflexivity|]); simpl; intros y Hy;
      try (now left).
    - apply elem_of_app in Hy as [Hy|Hy%list_elem_of_singleton]; [|now right].
      left. now apply list_elem_of_filter in Hy as [_ Hy].
    - left. now apply list_elem_of_filter in Hy as [_ Hy]. }
  destruct Ht as [Hi Hc]. rewrite Hi in H.
  destruct H as [H|H]; [|now right].
  apply Hc in H as [H| ->]; [now left | now right].
Qed.

(** Marking a row that has a key moves no key. *)
Lemma mark_keys c0 b g x c :
  (c0 = c -> x ∈ (selections g c).*1) ->
  (selections (mark c0 b g x) c).*1 = (selections g c).*1.
Proof.
  intros Hx. unfold mark. rewrite selections_set_tree, selections_set_selections.
  case_decide as Hc; [subst c0|reflexivity].
  specialize (Hx eq_refl).
  rewrite (proj2 (od_mem_true _ _) Hx). now apply od_set_keys_in.
Qed.

Lemma mark_items c0 b g x c :
  (items (tree (mark c0 b g x) c)).*1 = (items (tree g c)).*1.
Proof.
  unfold mark. rewrite tree_set_tree, tree_set_selections.
  case_decide as Hc; [subst c0|reflexivity]. apply tree_set_text_keys.
Qed.

Lemma mark_winget_keys g x c :
  (software = c -> x ∈ (selections g c).*1) ->
  (selections (mark_winget g x) c).*1 = (selections g c).*1.
Proof.
  intros Hx. unfold mark_winget. rewrite selections_set_tree, selections_set_selections.
  case_decide as Hc; [subst c|reflexivity].
  now apply od_set_keys_in, Hx.
Qed.

Lemma mark_winget_tree g x c :
  (items (tree (mark_winget g x) c)).*1 = (items (tree g c)).*1
  ∧ children (tree (mark_winget g x) c) = children (tree g c).
Proof.
  unfold mark_winget. rewrite tree_set_tree, tree_set_selections.
  case_decide as Hc; [subst c|now split]. split; [apply tree_set_text_keys|reflexivity].
Qed.

Lemma mark_ok c0 b g x c keys :
  (c0 = c -> x ∈ children (tree g c)) ->
  category_ok g c keys -> category_ok (mark c0 b g x) c keys.
Proof.
  intros Hx (Hk & Hch & Hit). unfold category_ok.
  rewrite mark_keys, mark_items, children_mark.
  - now repeat split.
  - intros E. rewrite Hk. apply Hit, Hch, Hx, E.
Qed.

Lemma mark_winget_ok g x c keys :
  (software = c -> x ∈ children (tree g c)) ->
  category_ok g c keys -> category_ok (mark_winget g x) c keys.
Proof.
  intros Hx (Hk & Hch & Hit). unfold category_ok.
  destruct (mark_winget_tree g x c) as [-> ->].
  rewrite mark_winget_keys.
  - now repeat split.
  - intros E. rewrite Hk. apply Hit, Hch, Hx, E.
Qed.

Lemma fold_rounds_ok (F : ScannerGUI -> iid -> ScannerGUI) c0 c keys :
  (∀ g x, children (tree (F g x) c) = children (tree g c)) ->
  (∀ g x, (c0 = c -> x ∈ children (tree g c)) ->
          category_ok g c keys -> category_ok (F g x) c keys) ->
  ∀ ch g, (c0 = c -> ∀ x, x ∈ ch -> x ∈ children (tree g c)) ->
    category_ok g c keys -> category_ok (fold_left F ch g) c keys.
Proof.
  intros Hch HF ch. induction ch as [|x ch IH]; intros g Hin Hok; simpl;
    [assumption|].
  apply IH.
  - intros E y Hy. rewrite Hch. apply (Hin E). now right.
  - apply HF; [|assumption]. intros E. apply (Hin E). now left.
Qed.

Lemma step_ok g (o : op) c keys :
  category_ok g c keys -> category_ok (step g o) c keys.
Proof.
  intros Hok. destruct o as [c0 y|c0|c0| |c0 term]; simpl.
  - unfold toggle_selection, identify_row.
    destruct (children (tree g c0) !! y) as [item|] eqn:Ey; [|assumption].
    destruct (od_get (selections g c0) item) as [b|] eqn:Eg; [|assumption].
    destruct Hok as (Hk & Hch & Hit). unfold category_ok.
    rewrite selections_set_tree, selections_set_selections, tree_set_tree,
      tree_set_selections.
    case_decide as Hc; [subst c0|now repeat split].
    rewrite tree_set_text_keys. simpl. rewrite od_set_keys_in; [now repeat split|].
    apply od_get_is_Some. rewrite Eg. now eexists.
  - rewrite select_all_fold.
    apply (fold_rounds_ok _ c0);
      [intros; apply children_mark| |now intros ->|assumption].
    intros; now apply mark_ok.
  - rewrite deselect_all_fold.
    apply (fold_rounds_ok _ c0);
      [intros; apply children_mark| |now intros ->|assumption].
    intros; now apply mark_ok.
  - unfold select_winget.
    apply (fold_rounds_ok _ software);
      [intros; apply mark_winget_tree| | |assumption].
    + intros; now apply mark_winget_ok.
    + now intros <-.
  - destruct Hok as (Hk & Hch & Hit). unfold category_ok.
    rewrite type_search_selections. split; [assumption|].
    unfold type_search, filter_tree. rewrite tree_set_tree.
    case_decide as Hc; [subst c0|now split].
    rewrite filter_loop_items.
    assert (Et : tree (set_search g c term) c = tree g c) by now destruct c.
    rewrite Et. split; [|assumption].
    intros item H. apply filter_loop_children in H as [H|H]; [now apply Hch|assumption].
Qed.
Lemma tree_deletes t (l : list iid) :
  (∀ kv, kv ∈ items (fold_left tree_delete l t) -> kv ∈ items t ∧ kv.1 ∉ l)
  ∧ (∀ x, x ∈ children (fold_left tree_delete l t) -> x ∈ children t ∧ x ∉ l).
Proof.
  revert t. induction l as [|x l IH]; intros t; simpl.
  - split; intros y Hy; (split; [assumption | apply not_elem_of_nil]).
  - destruct (IH (tree_delete t x)) as [H1 H2]. split.
    + intros kv Hkv. apply H1 in Hkv as [Hkv Hn]. simpl in Hkv.
      apply list_elem_of_filter in Hkv as [Hne Hkv].
      split; [assumption|]. apply not_elem_of_cons. now split.
    + intros y Hy. apply H2 in Hy as [Hy Hn]. simpl in Hy.
      apply list_elem_of_filter in Hy as [Hne Hy].
      split; [assumption|]. apply not_elem_of_cons. now split.
Qed.

Lemma nil_no_elem {A} (l : list A) : (∀ x, x ∉ l) -> l = [].
Proof. destruct l as [|x l]; [reflexivity|]. intros H. destruct (H x). now left. Qed.

(** Clearing a tree empties its display and adds no row. *)
Lemma tree_clear_children t : children (tree_clear t) = [].
Proof.
  apply nil_no_elem. intros x Hx.
  apply (proj2 (tree_deletes t (children t))) in Hx as [Hx Hn]. contradiction.
Qed.

Lemma tree_clear_items t item :
  item ∈ (items (tree_clear t)).*1 -> item ∈ (items t).*1.
Proof.
  intros H. apply list_elem_of_fmap in H as [kv [-> H]].
  apply (proj1 (tree_deletes t (children t))) in H as [H _].
  now apply list_elem_of_fmap_2.
Qed.

(** With no row detached, clearing a tree empties the widget. *)
Lemma tree_clear_all t :
  (∀ item, item ∈ (items t).*1 -> item ∈ children t) -> tree_clear t = empty_tree.
Proof.
  intros H. pose proof (tree_clear_children t) as Hc.
  assert (Hi : items (tree_clear t) = []).
  { apply nil_no_elem. intros kv Hkv.
    apply (proj1 (tree_deletes t (children t))) in Hkv as [Hkv Hn].
    apply Hn, H. now apply list_elem_of_fmap_2. }
  destruct (tree_clear t). simpl in *. now subst.
Qed.

Lemma tree_set_all_iids g c l c' : tree (set_all_iids g c l) c' = tree g c'.
Proof. now destruct c, c'. Qed.

Lemma state_of_and_then (o : outcome) (k : ScannerGUI -> outcome) :
  state_of (and_then o k)
  = match o with Done g => state_of (k g) | Raised g => g end.
Proof. now destruct o. Qed.

(** One loop of [_populate_ui], completed or not, keeps the invariant of
    its category, with keys up to the larger of the old count and the
    rows entered, and leaves the other category alone. *)
Lemma populate_rows_ok c (mk : nat -> iid) (b : bool) (rows : list (list string)) :
  Inj (=) (=) mk ->
  ∀ i g k, i <= k -> category_ok g c (mk <$> seq 0 k) ->
    (∃ k', category_ok (state_of (populate_rows c mk b rows i g)) c (mk <$> seq 0 k'))
    ∧ (∀ c' keys, c' ≠ c -> category_ok g c' keys ->
         category_ok (state_of (populate_rows c mk b rows i g)) c' keys).
Proof.
  intros Hinj. induction rows as [|vals rows IH]; intros i g k Hik Hok; simpl.
  - split; [now exists k | tauto].
  - destruct (tree_insert (tree g c) (mk i) _) as [t|] eqn:Et; simpl;
      [|split; [now exists k | tauto]].
    unfold tree_insert in Et. case_match; [discriminate|]. inversion Et as [Et']. clear Et.
    set (g3 := set_all_iids _ _ _).
    assert (H3 : category_ok g3 c (mk <$> seq 0 (k `max` S i))).
    { destruct Hok as (Hk & Hch & Hit). unfold category_ok, g3.
      rewrite selections_set_all_iids, tree_set_all_iids,
        selections_set_selections, tree_set_selections, tree_set_tree,
        selections_set_tree, !decide_True by reflexivity.
      subst t. simpl.
      assert (Hkeys : (od_set (selections g c) (mk i) b).*1 = mk <$> seq 0 (k `max` S i)).
      { destruct (decide (i < k)) as [Hlt|Hge].
        - rewrite od_set_keys_in.
          + rewrite Hk. f_equal. f_equal. lia.
          + rewrite Hk. apply list_elem_of_fmap_2, elem_of_seq. lia.
        - assert (i = k) by lia. subst i.
          rewrite od_set_keys_new.
          + rewrite Hk. replace (k `max` S k) with (S k) by lia.
            now rewrite seq_S, fmap_app.
          + rewrite Hk. intros Hin.
            apply list_elem_of_fmap in Hin as [j [E Hj]].
            apply Hinj in E. subst j. apply elem_of_seq in Hj. lia. }
      split; [exact Hkeys|]. split.
      - intros item. rewrite fmap_app, !elem_of_app. simpl.
        intros [Hx|Hx]; [left; now apply Hch | now right].
      - intros item. rewrite fmap_app, elem_of_app. simpl.
        intros [Hx|Hx%list_elem_of_singleton].
        + apply Hit in Hx. apply list_elem_of_fmap in Hx as [j [-> Hj]].
          apply list_elem_of_fmap_2, elem_of_seq. apply elem_of_seq in Hj. lia.
        + subst item. apply list_elem_of_fmap_2, elem_of_seq. lia. }
    destruct (IH (S i) g3 (k `max` S i) ltac:(lia) H3) as [IH1 IH2].
    split; [exact IH1|].
    intros c' keys N Hok'. apply IH2; [assumption|].
    destruct Hok' as (Hk' & Hch' & Hit'). unfold category_ok, g3.
    rewrite selections_set_all_iids, tree_set_all_iids,
      selections_set_selections, tree_set_selections, tree_set_tree,
      selections_set_tree, !decide_False by congruence.
    now repeat split.
Qed.
Lemma well_formed_category g :
  well_formed g <-> ∀ c, ∃ k, category_ok g c (mk_iid c <$> seq 0 k).
Proof.
  unfold well_formed, keys_in_order, rows_have_keys, category_ok.
  split; intros H c; specialize (H c).
  - destruct H as [[k Hk] [H1 H2]]. exists k. rewrite <- Hk. now repeat split.
  - destruct H as [k (Hk & H1 & H2)]. rewrite Hk. split; [now exists k | now split].
Qed.

Lemma mk_iid_inj c : Inj (=) (=) (mk_iid c).
Proof. destruct c; intros i j E; now inversion E. Qed.

Lemma populate_rows_wf c (b : bool) (rows : list (list string)) g :
  well_formed g -> well_formed (state_of (populate_rows c (mk_iid c) b rows 0 g)).
Proof.
  rewrite !well_formed_category. intros H c'.
  destruct (H c) as [k Hk].
  destruct (populate_rows_ok c (mk_iid c) b rows (mk_iid_inj c) 0 g k
              ltac:(lia) Hk) as [[k' H1] H2].
  destruct (decide (c' = c)) as [->|N]; [now exists k'|].
  destruct (H c') as [k0 Hk0]. exists k0. now apply H2.
Qed.

Lemma populate_licenses_ok d g c keys :
  category_ok g c keys -> category_ok (populate_licenses d g) c keys.
Proof.
  unfold populate_licenses. destruct (sd_licenses d); [|tauto].
  case_if; [|tauto]. now destruct c.
Qed.

(** Clearing the two trees keeps the invariant. *)
Lemma cleared_ok g c keys :
  category_ok g c keys ->
  category_ok
    (set_all_iids
       (set_all_iids
          (set_tree (set_tree g software (tree_clear (software_tree g)))
             store_apps
             (tree_clear (store_apps_tree
                (set_tree g software (tree_clear (software_tree g))))))
          software []) store_apps []) c keys.
Proof.
  intros (Hk & Hch & Hit). unfold category_ok.
  destruct c; simpl; rewrite tree_clear_children;
    (split; [exact Hk|]); (split; [intros item Hi; inversion Hi|]);
    intros item Hi; apply Hit; now apply tree_clear_items.
Qed.

Lemma populate_ui_wf g : well_formed g -> well_formed (state_of (populate_ui g)).
Proof.
  intros Hwf. unfold populate_ui. case_if; [assumption|].
  destruct (scan_data g) as [d|]; [|assumption].
  set (g3 := set_all_iids _ store_apps []).
  assert (H3 : well_formed g3).
  { apply well_formed_category. intros c.
    destruct (proj1 (well_formed_category g) Hwf c) as [k Hk].
    exists k. now apply cleared_ok. }
  clearbody g3. rewrite state_of_and_then.
  set (o1 := match sd_mappings d with Some _ => _ | None => _ end).
  assert (H4 : well_formed (state_of o1)).
  { unfold o1. destruct (sd_mappings d); [apply (populate_rows_wf software), H3|].
    destruct (sd_software d); [apply (populate_rows_wf software), H3 | exact H3]. }
  destruct o1 as [g4|g4]; [|exact H4]. simpl in H4.
  rewrite state_of_and_then.
  set (o2 := match sd_software d with Some _ => _ | None => _ end).
  assert (H5 : well_formed (state_of o2)).
  { unfold o2. destruct (sd_software d);
      [apply (populate_rows_wf store_apps), H4 | exact H4]. }
  destruct o2 as [g5|g5]; [|exact H5]. simpl in H5. simpl.
  apply well_formed_category. intros c.
  destruct (proj1 (well_formed_category g5) H5 c) as [k Hk].
  exists k. now apply populate_licenses_ok.
Qed.

Lemma load_scan_wf g path d :
  well_formed g -> well_formed (state_of (load_scan g path d)).
Proof. intros H. unfold load_scan. now apply populate_ui_wf. Qed.

Lemma step_wf g (o : op) : well_formed g -> well_formed (step g o).
Proof.
  rewrite !well_formed_category. intros H c. destruct (H c) as [k Hk].
  exists k. now apply step_ok.
Qed.

(** Every state the application can be in is well formed. *)
Lemma reachable_well_formed g : reachable g -> well_formed g.
Proof.
  induction 1 as [|g o _ IH|g path d _ IH].
  - intros c. split; [exists 0; now destruct c|]. split; intros item Hi;
      destruct c; inversion Hi.
  - now apply step_wf.
  - now apply load_scan_wf.
Qed.
(** A loop of [_populate_ui] over a tree that holds the rows before [i]
    and no other completes. *)
Lemma populate_rows_completes c (mk : nat -> iid) (b : bool)
  (rows : list (list string)) :
  Inj (=) (=) mk ->
  ∀ i g, (items (tree g c)).*1 = mk <$> seq 0 i ->
    ∃ g', populate_rows c mk b rows i g = Done g'
          ∧ ∀ c', c' ≠ c -> tree g' c' = tree g c'.
Proof.
  intros Hinj. induction rows as [|vals rows IH]; intros i g Hi; simpl.
  - now exists g.
  - unfold tree_insert.
    assert (Hnew : od_mem (items (tree g c)) (mk i) = false).
    { apply not_true_is_false. rewrite od_mem_true, Hi. intros Hin.
      apply list_elem_of_fmap in Hin as [j [E Hj]]. apply Hinj in E. subst j.
      apply elem_of_seq in Hj. lia. }
    rewrite Hnew.
    match goal with
    | |- ∃ g', populate_rows _ _ _ _ _ ?g3 = _ ∧ _ =>
        destruct (IH (S i) g3) as [g' [Hg' Hother]]
    end.
    + rewrite tree_set_all_iids, tree_set_selections, tree_set_tree,
        decide_True by reflexivity.
      cbn [items]. rewrite fmap_app, Hi, seq_S, fmap_app. reflexivity.
    + exists g'. split; [exact Hg'|]. intros c' N. rewrite (Hother c' N).
      now rewrite tree_set_all_iids, tree_set_selections, tree_set_tree,
        decide_False by congruence.
Qed.

(** With no row detached by a search filter, loading a scan completes. *)
Lemma load_scan_completes g path d :
  (∀ c item, item ∈ (items (tree g c)).*1 -> item ∈ children (tree g c)) ->
  ∃ g', load_scan g path d = Done g'.
Proof.
  intros Hshown. unfold load_scan, populate_ui.
  cbn [scan_data software_tree store_apps_tree].
  case_if; [now eexists|].
  rewrite (tree_clear_all (software_tree g)) by apply (Hshown software).
  cbn [store_apps_tree set_tree].
  rewrite (tree_clear_all (store_apps_tree g)) by apply (Hshown store_apps).
  set (g3 := set_all_iids _ store_apps []).
  assert (H3 : ∀ c, tree g3 c = empty_tree) by now intros [].
  clearbody g3. unfold and_then.
  assert (H4 : ∃ g4, match sd_mappings d with
                     | Some m => populate_rows software sw_ true (map mapping_row m) 0 g3
                     | None =>
                         match sd_software d with
                         | Some inv =>
                             populate_rows software sw_ true
                               (map installed_row (or_empty (InstalledSoftware inv))) 0 g3
                         | None => Done g3
                         end
                     end = Done g4 ∧ tree g4 store_apps = empty_tree).
  { destruct (sd_mappings d) as [m|].
    - destruct (populate_rows_completes software sw_ true (map mapping_row m)
                  (mk_iid_inj software) 0 g3) as [g4 [E H]];
        [now rewrite H3|].
      exists g4. split; [exact E|]. now rewrite H, H3.
    - destruct (sd_software d) as [inv|]; [|now exists g3].
      destruct (populate_rows_completes software sw_ true
                  (map installed_row (or_empty (InstalledSoftware inv)))
                  (mk_iid_inj software) 0 g3) as [g4 [E H]];
        [now rewrite H3|].
      exists g4. split; [exact E|]. now rewrite H, H3. }
  destruct H4 as [g4 [-> H4]].
  destruct (sd_software d) as [inv|]; [|now eexists].
  destruct (populate_rows_completes store_apps store_ false
              (map store_row (or_empty (StoreApps inv)))
              (mk_iid_inj store_apps) 0 g4) as [g5 [-> _]];
    [now rewrite H4|].
  now eexists.
Qed.
End invariant.

(** A completed load followed by an export, from selections whose keys
    are in row order. *)
Lemma load_then_export (g g' : ScannerGUI) (path : string) (d : ScanData) :
  keys_in_order sw_ (selections g software) ->
  keys_in_order store_ (selections g store_apps) ->
  load_scan g path d = Done g' ->
  (∀ i, i < scanned_rows d software ->
     od_get (selections g' software) (sw_ i) = Some true)
  ∧ (∀ i, i < scanned_rows d store_apps ->
       od_get (selections g' store_apps) (store_ i) = Some false)
  ∧ ∃ p, build_package g' = Some p
         ∧ pkg_software p = scanned_software d
         ∧ pkg_store_apps p = [].
Proof.
  intros Hsw Hst Hload. unfold load_scan in Hload.
  apply populate_ui_done with (d := d) in Hload as [H1 [H2 H3]];
    [|reflexivity].
  change (selections _ software) with (selections g software) in H1 at 2.
  change (selections _ store_apps) with (selections g store_apps) in H2 at 2.
  split; [|split].
  - intros i Hi. rewrite H1. apply set_rows_get; [apply sw_inj | lia].
  - intros i Hi. rewrite H2. apply set_rows_get; [apply store_inj | lia].
  - unfold build_package. rewrite H3. eexists. split; [reflexivity|].
    cbn [pkg_software pkg_store_apps]. split.
    + unfold export_software, scanned_software.
      change (selections_software g') with (selections g' software).
      rewrite H1. unfold scanned_rows.
      destruct (sd_mappings d) as [m|].
      * rewrite (export_after_set_rows id sw_ true _ m sw_inj (fun _ => eq_refl) Hsw).
        apply list_fmap_id.
      * destruct (sd_software d) as [inv|]; [|reflexivity].
        destruct (InstalledSoftware inv) as [l|]; cbn [or_empty].
        -- now rewrite (export_after_set_rows manual_entry sw_ true _ l sw_inj
                          (fun _ => eq_refl) Hsw).
        -- reflexivity.
    + unfold export_store_apps.
      change (selections_store_apps g') with (selections g' store_apps).
      rewrite H2. unfold scanned_rows.
      destruct (sd_software d) as [inv|]; [|reflexivity].
      destruct (StoreApps inv) as [l|]; cbn [or_empty]; [|reflexivity].
      now rewrite (export_after_set_rows store_entry store_ false _ l store_inj
                     (fun _ => eq_refl) Hst).
Qed.

(** C10. In every state the application can be in, a load of a scan that
    completes leaves every software row selected and every store-app row
    deselected, so that the export that follows, with no selection changed,
    lists all the scanned software and no store app. *)
Theorem C10_load_selects_all_software_no_store_apps
  (g g' : ScannerGUI) (path : string) (d : ScanData) :
  reachable g ->
  load_scan g path d = Done g' ->
  (∀ i, i < scanned_rows d software ->
     od_get (selections g' software) (sw_ i) = Some true)
  ∧ (∀ i, i < scanned_rows d store_apps ->
       od_get (selections g' store_apps) (store_ i) = Some false)
  ∧ ∃ p, build_package g' = Some p
         ∧ pkg_software p = scanned_software d
         ∧ pkg_store_apps p = [].
Proof.
  intros Hreach Hload.
  pose proof (reachable_well_formed g Hreach) as Hwf.
  apply (load_then_export g g' path d); [| |exact Hload].
  - exact (proj1 (Hwf software)).
  - exact (proj1 (Hwf store_apps)).
Qed.

Lemma C10_load_selects_all_software_no_store_apps_witness :
  let g := step sample_gui (DeselectAll software) in
  ∃ g', load_scan g "D:/scan" sample_scan = Done g'
  ∧ (∀ i, i < 3 -> od_get (selections g' software) (sw_ i) = Some true)
  ∧ (∀ i, i < 1 -> od_get (selections g' store_apps) (store_ i) = Some false)
  ∧ ∃ p, build_package g' = Some p
         ∧ pkg_software p = [tool_a; tool_b; editor_c]
         ∧ pkg_store_apps p = [].
Proof.
  intros g. exists sample_gui.
  assert (Hload : load_scan g "D:/scan" sample_scan = Done sample_gui)
    by (vm_compute; reflexivity).
  split; [exact Hload|].
  apply (C10_load_selects_all_software_no_store_apps g sample_gui "D:/scan" sample_scan).
  - apply reach_step. exact (reach_load init "D:/scan" sample_scan reach_init).
  - exact Hload.
Defined.

Import Restore.

(** ** The resolver report *)

Section report.
Implicit Types (content u url : string) (all_found found : list string).

(** The handler has a result: the enumeration in order of first
    occurrence is one of those [list(set(..))] can produce. *)
Lemma list_of_set_remove_dups (xs : list string) :
  list_of_set xs (remove_dups xs).
Proof.
  split; [apply NoDup_remove_dups | intros x; apply elem_of_remove_dups].
Qed.

Lemma update_installer_results_runs (file : report_file) (results : list string) :
  update_installer_results file results (update_installer_results_run file results).
Proof.
  destruct file as [| |content]; simpl; try reflexivity.
  exists (remove_dups (extracted content)).
  split; [apply list_of_set_remove_dups | reflexivity].
Qed.

Lemma elem_of_found_urls all_found u :
  u ∈ found_urls_of all_found <-> u ∈ all_found ∧ placeholder u = false.
Proof.
  unfold found_urls_of. rewrite !list_elem_of_In, filter_In.
  now rewrite negb_true_iff.
Qed.

Lemma elem_of_selectable found url :
  url ∈ selectable_urls_of found <-> url ∈ found ∧ search_fallback url = false.
Proof.
  unfold selectable_urls_of. rewrite !list_elem_of_In, filter_In.
  now rewrite negb_true_iff.
Qed.

Lemma found_urls_NoDup all_found :
  NoDup all_found -> NoDup (found_urls_of all_found).
Proof. rewrite !NoDup_ListNoDup. apply List.NoDup_filter. Qed.

Lemma selectable_NoDup found : NoDup found -> NoDup (selectable_urls_of found).
Proof. rewrite !NoDup_ListNoDup. apply List.NoDup_filter. Qed.

(** The rows of the download tree are the selectable URLs. *)
Lemma view_tree (info : search_info) found :
  download_selection_tree (view info found) = selectable_urls_of found.
Proof.
  unfold view. destruct found as [|x found]; [reflexivity|].
  now destruct (selectable_urls_of (x :: found)).
Qed.

Lemma view_info (info : search_info) found :
  installer_search_info (view info found) = info.
Proof.
  unfold view. destruct found as [|x found]; [reflexivity|].
  now destruct (selectable_urls_of (x :: found)).
Qed.

Lemma count_occ_NoDup (l : list string) (x : string) :
  NoDup l -> count_occ string_dec l x = if bool_decide (x ∈ l) then 1 else 0.
Proof.
  intros Hnd. case_bool_decide as Hin.
  - apply list_elem_of_In in Hin. apply NoDup_ListNoDup in Hnd.
    now apply NoDup_count_occ'.
  - apply count_occ_not_In. now rewrite <- list_elem_of_In.
Qed.

Lemma filter_drops_one (f : string -> bool) (l : list string) (x : string) :
  x ∈ l -> f x = false -> length (List.filter f l) < length l.
Proof.
  induction l as [|y l IH]; intros Hin Hf; [inversion Hin|]. simpl.
  apply elem_of_cons in Hin as [<-|Hin].
  - rewrite Hf. pose proof (List.filter_length_le f l). lia.
  - specialize (IH Hin Hf). destruct (f y); simpl; lia.
Qed.

Lemma filter_Permutation_bool (f : string -> bool) (l1 l2 : list string) :
  l1 ≡ₚ l2 -> List.filter f l1 ≡ₚ List.filter f l2.
Proof.
  intros Hp.
  induction Hp as [|x l l' _ IH|x y l|l l' l'' _ IH1 _ IH2]; simpl.
  - constructor.
  - destruct (f x); [now apply perm_skip | exact IH].
  - destruct (f x), (f y); try reflexivity. apply perm_swap.
  - exact (perm_trans IH1 IH2).
Qed.

(** Two enumerations of one set give candidate lists of one length. *)
Lemma found_urls_length (xs l1 l2 : list string) :
  list_of_set xs l1 -> list_of_set xs l2 ->
  length (found_urls_of l1) = length (found_urls_of l2).
Proof.
  intros [Hnd1 H1] [Hnd2 H2].
  assert (Hp : l1 ≡ₚ l2).
  { apply NoDup_Permutation; [assumption..|]. intros x. now rewrite H1, H2. }
  unfold found_urls_of. now apply Permutation_length, filter_Permutation_bool.
Qed.
End report.

(** C6. Whatever order [list(set(..))] yields, the candidate list holds no
    URL twice, holds exactly the URLs of the two extraction passes that
    are not the empty-installer placeholders, and a URL found both as a
    markdown-link target and as a bare token is in it once, or not at all
    if it is a placeholder. *)
Theorem C6_link_and_bare_url_listed_once
  (content : string) (all_found : list string) (u : string) :
  list_of_set (extracted content) all_found ->
  u ∈ findall match_link content ->
  u ∈ findall match_raw content ->
  let found_urls := found_urls_of all_found in
  NoDup found_urls
  ∧ (∀ x, x ∈ found_urls
          <-> (x ∈ findall match_link content ∨ x ∈ findall match_raw content)
              ∧ placeholder x = false)
  ∧ count_occ string_dec found_urls u = (if placeholder u then 0 else 1).
Proof.
  intros [Hnd Hset] Hlink Hraw found_urls.
  assert (Hf : NoDup found_urls) by now apply found_urls_NoDup.
  split; [exact Hf|]. split.
  - intros x. unfold found_urls.
    rewrite elem_of_found_urls, Hset. unfold extracted.
    now rewrite elem_of_app.
  - rewrite (count_occ_NoDup _ _ Hf). unfold found_urls.
    destruct (placeholder u) eqn:Ep.
    + rewrite bool_decide_eq_false_2; [reflexivity|].
      rewrite elem_of_found_urls. intros [_ ?]. congruence.
    + rewrite bool_decide_eq_true_2; [reflexivity|].
      apply elem_of_found_urls. split; [|exact Ep].
      apply Hset. unfold extracted. apply elem_of_app. now left.
Qed.

Lemma C6_link_and_bare_url_listed_once_witness :
  let found_urls := found_urls_of (remove_dups (extracted spec_report)) in
  NoDup found_urls
  ∧ (∀ x, x ∈ found_urls
          <-> (x ∈ findall match_link spec_report ∨ x ∈ findall match_raw spec_report)
              ∧ placeholder x = false)
  ∧ count_occ string_dec found_urls "https://x/y.exe"
    = (if placeholder "https://x/y.exe" then 0 else 1).
Proof.
  apply (C6_link_and_bare_url_listed_once spec_report
           (remove_dups (extracted spec_report)) "https://x/y.exe").
  - apply list_of_set_remove_dups.
  - apply (bool_decide_unpack _). vm_compute. exact I.
  - apply (bool_decide_unpack _). vm_compute. exact I.
Defined.

(** C7. A URL of the report that holds the search-engine query pattern is
    not a row of the download tree, while the total the handler reports
    counts it: the total is the number of distinct extracted URLs that are
    not placeholders, of which it is one, and is larger than the number of
    rows offered. *)
Theorem C7_search_fallback_excluded_but_counted
  (content : string) (results : list string) (v : ResultsView) (url : string) :
  update_installer_results (Report content) results v ->
  url ∈ extracted content ->
  placeholder url = false ->
  search_fallback url = true ->
  (url ∉ download_selection_tree v)
  ∧ url ∈ found_urls_of (remove_dups (extracted content))
  ∧ installer_search_info v
    = SearchFound (length (found_urls_of (remove_dups (extracted content))))
                  (count_sections content)
  ∧ length (download_selection_tree v)
    < length (found_urls_of (remove_dups (extracted content))).
Proof.
  intros [all_found [Hset ->]] Hin Hp Hs. simpl.
  rewrite view_tree, view_info.
  assert (Hfound : url ∈ found_urls_of all_found).
  { apply elem_of_found_urls. split; [now apply Hset | exact Hp]. }
  rewrite (found_urls_length _ _ _ (list_of_set_remove_dups _) Hset).
  split; [|split; [|split]].
  - rewrite elem_of_selectable. intros [_ ?]. congruence.
  - apply elem_of_found_urls. split; [now apply elem_of_remove_dups | exact Hp].
  - reflexivity.
  - unfold selectable_urls_of.
    apply (filter_drops_one _ _ url Hfound). now rewrite Hs.
Qed.

Lemma C7_search_fallback_excluded_but_counted_witness :
  let v := update_installer_results_run (Report spec_report) [] in
  let url := "https://www.google.com/search?q=foo" in
  (url ∉ download_selection_tree v)
  ∧ url ∈ found_urls_of (remove_dups (extracted spec_report))
  ∧ installer_search_info v
    = SearchFound (length (found_urls_of (remove_dups (extracted spec_report))))
                  (count_sections spec_report)
  ∧ length (download_selection_tree v)
    < length (found_urls_of (remove_dups (extracted spec_report))).
Proof.
  apply (C7_search_fallback_excluded_but_counted spec_report []).
  - apply update_installer_results_runs.
  - apply (bool_decide_unpack _). vm_compute. exact I.
  - vm_compute. reflexivity.
  - vm_compute. reflexivity.
Defined.

Example spec_report_view :
  update_installer_results_run (Report spec_report) []
  = {| installer_search_info := SearchFound 2 1;
       download_selection_tree := ["https://x/y.exe"];
       download_info_label := DirectUrls 1 |}.
Proof. vm_compute. reflexivity. Qed.

(** ** Restore phases *)

Section phases.
Implicit Types (w : World) (g : RestoreGUI).

Lemma stream_run (lines : list string) g :
  stream lines g = (inr tt, logged g (map strip lines)).
Proof.
  revert g. induction lines as [|l lines IH]; intros g; simpl.
  - unfold ret, logged. rewrite app_nil_r. now destruct g.
  - unfold bind, log. rewrite IH. unfold logged. simpl.
    now rewrite <- app_assoc.
Qed.

(** The return code of a backend process has no part in a phase. *)
Lemma backend_phase_exit_zero w script banner g :
  backend_phase (exit_zero w) script banner g = backend_phase w script banner g.
Proof.
  unfold backend_phase. simpl.
  destruct (package_dir w !! script); [|reflexivity].
  unfold bind, log, popen. simpl.
  now destruct (powershell w script).
Qed.

(** A phase whose process prints bytes that cannot be decoded logs the
    lines before them and raises: nothing in [full] catches the error. *)
Lemma backend_phase_undecodable w script banner g text out err :
  package_dir w !! script = Some text ->
  powershell w script = Undecodable out err ->
  backend_phase w script banner g
  = (inl err,
     {| package_path := package_path g;
        restore_options := restore_options g;
        log_text := log_text g ++ (LF +:+ banner) :: map strip out;
        progress_label := progress_label g;
        started := started g ++ [script] |}).
Proof.
  intros Hd Hp. unfold backend_phase. rewrite Hd.
  unfold bind, log, popen. simpl. rewrite Hp. simpl.
  unfold bind. rewrite stream_run.
  unfold raise, logged. simpl. now rewrite <- app_assoc.
Qed.

Lemma restore_exit_zero w g : restore (exit_zero w) g = restore w g.
Proof.
  unfold restore, bind, try_except, log, set_progress_label, popen. simpl.
  now destruct (powershell w temp_restore_script).
Qed.

Lemma bind_ext {A B} (c1 c2 : M A) (k1 k2 : A -> M B) g :
  (∀ g, c1 g = c2 g) -> (∀ a g, k1 a g = k2 a g) ->
  bind c1 k1 g = bind c2 k2 g.
Proof.
  intros Hc Hk. unfold bind. rewrite Hc.
  destruct (c2 g) as [[e|a] g']; [reflexivity | apply Hk].
Qed.

Lemma bind_run {A B} (c : M A) (k : A -> M B) g (a : A) g1 :
  c g = (inr a, g1) -> bind c k g = k a g1.
Proof. intros H. unfold bind. now rewrite H. Qed.

Lemma bind_raise {A B} (c : M A) (k : A -> M B) g (e : string) g1 :
  c g = (inl e, g1) -> bind c k g = (inl e, g1).
Proof. intros H. unfold bind. now rewrite H. Qed.

Lemma log_run (message : string) g :
  log message g = (inr tt, logged g [message]).
Proof. reflexivity. Qed.

Lemma logged_logged g l1 l2 : logged (logged g l1) l2 = logged g (l1 ++ l2).
Proof. unfold logged. cbn. now rewrite <- app_assoc. Qed.

Lemma restore_configs_exit_zero w g :
  restore_configs (exit_zero w) g = restore_configs w g.
Proof.
  unfold restore_configs. destruct (package_path g); [|reflexivity].
  apply restore_exit_zero.
Qed.

Lemma full_exit_zero w g : full (exit_zero w) g = full w g.
Proof.
  unfold full.
  repeat (apply bind_ext;
          [intros; first [apply backend_phase_exit_zero | reflexivity] | intros]).
  apply restore_configs_exit_zero.
Qed.

(** The exit status of the processes has no part in a full restore. *)
Lemma full_restore_exit_zero w confirmed g :
  full_restore (exit_zero w) confirmed g = full_restore w confirmed g.
Proof.
  unfold full_restore. destruct (package_path g); [|reflexivity].
  destruct confirmed; [apply full_exit_zero | reflexivity].
Qed.

(** A phase whose script is missing does nothing. *)
Lemma backend_phase_missing w script banner g :
  package_dir w !! script = None -> backend_phase w script banner g = (inr tt, g).
Proof. intros H. unfold backend_phase. now rewrite H. Qed.

(** A phase whose script is there and starts logs its banner and its
    output, whatever the exit status. *)
Lemma backend_phase_run w script banner g text out rc :
  package_dir w !! script = Some text ->
  powershell w script = Exits out rc ->
  backend_phase w script banner g
  = (inr tt,
     {| package_path := package_path g;
        restore_options := restore_options g;
        log_text := log_text g ++ (LF +:+ banner) :: map strip out;
        progress_label := progress_label g;
        started := started g ++ [script] |}).
Proof.
  intros Hd Hp. unfold backend_phase. rewrite Hd.
  unfold bind, log, popen. simpl. rewrite Hp. simpl.
  rewrite stream_run. unfold logged. simpl. now rewrite <- app_assoc.
Qed.

Lemma backend_phase_spec w script banner g :
  (is_Some (package_dir w !! script) ->
   ∃ out rc, powershell w script = Exits out rc) ->
  backend_phase w script banner g
  = (inr tt,
     {| package_path := package_path g;
        restore_options := restore_options g;
        log_text := log_text g ++ backend_log w script banner;
        progress_label := progress_label g;
        started := started g ++ phase_started w script |}).
Proof.
  intros H. unfold backend_log, phase_started.
  destruct (package_dir w !! script) as [text|] eqn:Ed.
  - destruct H as [out [rc Hp]]; [now eexists|].
    rewrite Hp. now apply backend_phase_run with (text := text) (rc := rc).
  - rewrite backend_phase_missing by assumption.
    rewrite !app_nil_r. now destruct g.
Qed.

Lemma restore_spec w g :
  restore w g
  = (inr tt,
     {| package_path := package_path g;
        restore_options := restore_options g;
        log_text := log_text g ++ config_log w;
        progress_label :=
          (config_outcome w).1.2;
        started :=
          started g ++ (config_outcome w).2 |}).
Proof.
  unfold restore, config_log, config_outcome, bind, try_except, report_error,
    log, set_progress_label, popen.
  simpl. destruct (powershell w temp_restore_script) as [out rc|out err|e]; simpl.
  - rewrite stream_run. unfold logged. simpl.
    now rewrite <- !app_assoc.
  - unfold bind. rewrite stream_run. unfold raise, ret, logged. simpl.
    now rewrite <- !app_assoc.
  - unfold ret. now rewrite app_nil_r.
Qed.

(** Three lines, two backend phases, three lines, the configuration
    phase: the shape of [full], with the lines left open. *)
Lemma phases_spec w g path (l1 l2 l3 b1 b2 l4 l5 l6 : string) :
  package_path g = Some path ->
  (∀ script, script ∈ [winget_script; choco_script] ->
     is_Some (package_dir w !! script) ->
     ∃ out rc, powershell w script = Exits out rc) ->
  bind (log l1) (fun _ =>
  bind (log l2) (fun _ =>
  bind (log l3) (fun _ =>
  bind (backend_phase w winget_script b1) (fun _ =>
  bind (backend_phase w choco_script b2) (fun _ =>
  bind (log l4) (fun _ =>
  bind (log l5) (fun _ =>
  bind (log l6) (fun _ => restore_configs w)))))))) g
  = (inr tt,
     {| package_path := package_path g;
        restore_options := restore_options g;
        log_text :=
          log_text g
          ++ [l1; l2; l3]
          ++ backend_log w winget_script b1
          ++ backend_log w choco_script b2
          ++ [l4; l5; l6]
          ++ config_log w;
        progress_label :=
          (config_outcome w).1.2;
        started :=
          started g
          ++ phase_started w winget_script ++ phase_started w choco_script
          ++ (config_outcome w).2 |}).
Proof.
  intros Hpath H.
  assert (Hw := H winget_script ltac:(set_solver)).
  assert (Hc := H choco_script ltac:(set_solver)).
  rewrite (bind_run _ _ _ _ _ (log_run _ _)).
  rewrite (bind_run _ _ _ _ _ (log_run _ _)).
  rewrite (bind_run _ _ _ _ _ (log_run _ _)).
  rewrite (bind_run _ _ _ _ _ (backend_phase_spec w _ _ _ Hw)).
  rewrite (bind_run _ _ _ _ _ (backend_phase_spec w _ _ _ Hc)).
  rewrite (bind_run _ _ _ _ _ (log_run _ _)).
  rewrite (bind_run _ _ _ _ _ (log_run _ _)).
  rewrite (bind_run _ _ _ _ _ (log_run _ _)).
  unfold restore_configs, logged.
  cbn [package_path restore_options log_text progress_label started].
  rewrite Hpath, restore_spec.
  cbn [package_path restore_options log_text progress_label started].
  f_equal. f_equal.
  - rewrite <- !app_assoc. reflexivity.
  - now rewrite <- !app_assoc.
Qed.

(** The thread body [full], when the backend scripts that are there
    start. *)
Lemma full_spec w g path :
  package_path g = Some path ->
  (∀ script, script ∈ [winget_script; choco_script] ->
     is_Some (package_dir w !! script) ->
     ∃ out rc, powershell w script = Exits out rc) ->
  full w g
  = (inr tt,
     {| package_path := package_path g;
        restore_options := restore_options g;
        log_text :=
          log_text g
          ++ [rule; "PHASE 1: Installing Software"; rule]
          ++ backend_log w winget_script "Installing via Winget..."
          ++ backend_log w choco_script "Installing via Chocolatey..."
          ++ [LF +:+ rule; "PHASE 2: Restoring Configuration"; rule +:+ LF]
          ++ config_log w;
        progress_label :=
          (config_outcome w).1.2;
        started :=
          started g
          ++ phase_started w winget_script ++ phase_started w choco_script
          ++ (config_outcome w).2 |}).
Proof. intros Hpath H. unfold full. now apply phases_spec with (path := path). Qed.

(** The whole run from a freshly loaded package. *)
Lemma full_restore_spec w path :
  (∀ script, script ∈ [winget_script; choco_script] ->
     is_Some (package_dir w !! script) ->
     ∃ out rc, powershell w script = Exits out rc) ->
  full_restore w true (loaded path)
  = (inr tt,
     {| package_path := Some path;
        restore_options := restore_options (loaded path);
        log_text :=
          [rule; "PHASE 1: Installing Software"; rule]
          ++ backend_log w winget_script "Installing via Winget..."
          ++ backend_log w choco_script "Installing via Chocolatey..."
          ++ [LF +:+ rule; "PHASE 2: Restoring Configuration"; rule +:+ LF]
          ++ config_log w;
        progress_label :=
          (config_outcome w).1.2;
        started :=
          phase_started w winget_script ++ phase_started w choco_script
          ++ (config_outcome w).2 |}).
Proof.
  intros H. unfold full_restore.
  change (package_path (loaded path)) with (Some path).
  cbv iota. exact (full_spec w (loaded path) path eq_refl H).
Qed.
(** A full restore in which a backend prints output that cannot be
    decoded: the lines before the offending bytes are logged, the error
    leaves the worker, and neither the rest of the software phase nor the
    configuration phase runs. *)
Lemma full_stops_on_undecodable_output w g path script out err :
  package_path g = Some path ->
  script ∈ [winget_script; choco_script] ->
  is_Some (package_dir w !! script) ->
  powershell w script = Undecodable out err ->
  (script = choco_script ->
   is_Some (package_dir w !! winget_script) ->
   ∃ out rc, powershell w winget_script = Exits out rc) ->
  full_restore w true g
  = (inl err,
     {| package_path := package_path g;
        restore_options := restore_options g;
        log_text :=
          log_text g ++ [rule; "PHASE 1: Installing Software"; rule]
          ++ (if bool_decide (script = winget_script) then []
              else backend_log w winget_script "Installing via Winget...")
          ++ (LF +:+ (if bool_decide (script = winget_script)
                      then "Installing via Winget..."
                      else "Installing via Chocolatey...")) :: map strip out;
        progress_label := progress_label g;
        started :=
          started g ++ (if bool_decide (script = winget_script) then []
                        else phase_started w winget_script) ++ [script] |}).
Proof.
  intros Hpath Hs [text Hd] Hp Hw.
  assert (full_restore w true g = full w g) as ->
    by (unfold full_restore; now rewrite Hpath).
  unfold full.
  rewrite (bind_run _ _ _ tt _ (log_run _ g)).
  rewrite (bind_run _ _ _ tt _ (log_run _ _)).
  rewrite (bind_run _ _ _ tt _ (log_run _ _)).
  rewrite !logged_logged.
  apply elem_of_cons in Hs as [->|Hs].
  - rewrite bool_decide_eq_true_2 by reflexivity.
    rewrite (bind_raise _ _ _ err _
               (backend_phase_undecodable w winget_script _ _ text out err Hd Hp)).
    unfold logged. cbn. f_equal. f_equal. now rewrite <- !app_assoc.
  - apply list_elem_of_singleton in Hs. subst script.
    rewrite bool_decide_eq_false_2 by discriminate.
    rewrite (bind_run _ _ _ tt _
               (backend_phase_spec w winget_script _ _ (Hw eq_refl))).
    rewrite (bind_raise _ _ _ err _
               (backend_phase_undecodable w choco_script _ _ text out err Hd Hp)).
    unfold logged. cbn. f_equal. f_equal; now rewrite <- !app_assoc.
Qed.
End phases.

(** C2, as the code has it. In a full restore the exit status of a backend
    process plays no part: the run, its log included, is what it is when
    every
    process exits with zero. When each install script that is present
    starts and prints output that the pipe's text reader can decode, the
    run raises nothing, logs the output lines of each backend, goes on to
    the configuration phase and, if the configuration process starts and
    its output can be decoded, ends with the progress label "Configuration
    restore complete". A backend whose script file is missing has no
    process started and the run goes on all the same. *)
Theorem C2_backend_exit_ignored_restore_completes (w : World) (path : string) :
  (∀ script, script ∈ [winget_script; choco_script] ->
     is_Some (package_dir w !! script) ->
     ∃ out rc, powershell w script = Exits out rc) ->
  let r := full_restore w true (loaded path) in
  r = full_restore (exit_zero w) true (loaded path)
  ∧ r.1 = inr tt
  ∧ (∀ script out rc, script ∈ [winget_script; choco_script] ->
       is_Some (package_dir w !! script) ->
       powershell w script = Exits out rc ->
       script ∈ started r.2 ∧ ∀ l, l ∈ out -> strip l ∈ log_text r.2)
  ∧ "PHASE 2: Restoring Configuration" ∈ log_text r.2
  ∧ "Starting configuration restore..." ∈ log_text r.2
  ∧ ((∃ out rc, powershell w temp_restore_script = Exits out rc) ->
     progress_label r.2 = "Configuration restore complete"
     ∧ last (log_text r.2) = Some "Configuration restore complete!")
  ∧ (∀ script, script ∈ [winget_script; choco_script] ->
       package_dir w !! script = None -> script ∉ started r.2).
Proof.
  intros H r.
  assert (Hr : r = _) by exact (full_restore_spec w path H).
  split; [unfold r; now rewrite full_restore_exit_zero|].
  rewrite Hr. cbn [fst snd log_text progress_label started].
  assert (Hcs : ∀ script, script ∈ [winget_script; choco_script] ->
                          script ∉ (config_outcome w).2).
  { intros script Hs. unfold config_outcome.
    assert (script ≠ temp_restore_script).
    { apply elem_of_cons in Hs as [->|Hs%list_elem_of_singleton];
        [|subst script]; discriminate. }
    destruct (powershell w temp_restore_script); cbn; set_solver. }
  split; [reflexivity|]. split; [|split; [|split; [|split]]].
  - intros script out rc Hs [text Hd] Hp.
    assert (Hb : ∀ banner, backend_log w script banner = (LF +:+ banner) :: map strip out).
    { intros banner. unfold backend_log. now rewrite Hd, Hp. }
    assert (Hst : phase_started w script = [script]).
    { unfold phase_started. now rewrite Hd. }
    apply elem_of_cons in Hs as [->|Hs%list_elem_of_singleton]; [|subst script].
    + split; [rewrite Hst; set_solver|].
      intros l Hl. rewrite Hb.
      assert (strip l ∈ map strip out) by now apply list_elem_of_fmap_2.
      set_solver.
    + split; [rewrite Hst; set_solver|].
      intros l Hl. rewrite Hb.
      assert (strip l ∈ map strip out) by now apply list_elem_of_fmap_2.
      set_solver.
  - set_solver.
  - unfold config_log. set_solver.
  - intros [out [rc Hp]]. unfold config_log, config_outcome. rewrite Hp.
    cbn [fst snd]. split; [reflexivity|].
    rewrite !app_assoc, app_comm_cons, !app_assoc. apply last_snoc.
  - intros script Hs Hd.
    assert (Hst : phase_started w script = []).
    { unfold phase_started. now rewrite Hd. }
    assert (Hother : ∀ s', s' ≠ script -> script ∉ phase_started w s').
    { intros s' N. unfold phase_started. destruct (package_dir w !! s'); set_solver. }
    specialize (Hcs script Hs).
    apply elem_of_cons in Hs as [->|Hs%list_elem_of_singleton]; [|subst script].
    + rewrite Hst. simpl. rewrite not_elem_of_app. split; [|exact Hcs].
      apply Hother. discriminate.
    + rewrite Hst. rewrite not_elem_of_app. split.
      * apply Hother. discriminate.
      * exact Hcs.
Qed.

Lemma C2_backend_exit_ignored_restore_completes_witness :
  let r := full_restore (world_with_exit 1) true (loaded "D:/ReWin") in
  r = full_restore (exit_zero (world_with_exit 1)) true (loaded "D:/ReWin")
  ∧ r.1 = inr tt
  ∧ progress_label r.2 = "Configuration restore complete".
Proof.
  destruct (C2_backend_exit_ignored_restore_completes (world_with_exit 1) "D:/ReWin")
    as [H1 [H2 [_ [_ [_ [H6 _]]]]]].
  - intros script Hs _.
    apply elem_of_cons in Hs as [->|Hs%list_elem_of_singleton]; [|subst script];
      eexists; eexists; vm_compute; reflexivity.
  - split; [exact H1|]. split; [exact H2|]. apply H6.
    eexists. eexists. vm_compute. reflexivity.
Defined.

(** C2 as stated fails, in three ways. A backend's non-zero exit leaves no
    line in the log, which is the log of the run in which the backend
    exits with zero. A run without install script files logs the phase
    banners and the configuration restore, with no line about a skipped
    backend. And a backend phase can abort the run: when the Winget
    process prints, before it exits, a byte that the pipe's text reader
    cannot decode, the error leaves the worker, the log stops at the last
    line read, and the configuration phase is not reached. *)
Lemma C2_counterexample :
  log_text (full_restore (world_with_exit 1) true (loaded "D:/ReWin")).2
  = log_text (full_restore (world_with_exit 0) true (loaded "D:/ReWin")).2
  ∧ log_text (full_restore world_without_scripts true (loaded "D:/ReWin")).2
    = [ rule; "PHASE 1: Installing Software"; rule;
        LF +:+ rule; "PHASE 2: Restoring Configuration"; rule +:+ LF;
        "Starting configuration restore..."; "restored";
        "Configuration restore complete!" ]
  ∧ full_restore world_undecodable true (loaded "D:/ReWin")
    = (inl "'charmap' codec can't decode byte 0x81 in position 11: character maps to <undefined>",
       {| package_path := Some "D:/ReWin";
          restore_options := restore_options (loaded "D:/ReWin");
          log_text := [ rule; "PHASE 1: Installing Software"; rule;
                        LF +:+ "Installing via Winget...";
                        "Installing vendor.toola..." ];
          progress_label := "Ready";
          started := ["install_winget.ps1"] |}).
Proof.
  split; [vm_compute; reflexivity|]. split; vm_compute; reflexivity.
Qed.

(** * Further properties

    Properties of the two programs beyond the specification's claims: the
    rest of the scanner's handlers (summary tab, search filter, licence
    boxes, reloading), and of the restore program the download list, the
    single installs, the software tab and the option boxes. *)

(** ** The scanner *)

(** ** Export lists the ticked rows *)

Section ticked.

Lemma omap_ext_Forall {A B} (f g : A -> option B) (l : list A) :
  Forall (fun x => f x = g x) l -> omap f l = omap g l.
Proof.
  induction 1 as [|x l E _ IH]; [reflexivity|].
  cbn [omap list_omap]. now rewrite E, IH.
Qed.

Lemma omap_none {A B} (f : A -> option B) (l : list A) :
  Forall (fun x => f x = None) l -> omap f l = [].
Proof.
  induction 1 as [|x l E _ IH]; [reflexivity|].
  cbn [omap list_omap]. now rewrite E, IH.
Qed.

Lemma omap_seq_cut {B} (F : nat -> option B) (a b : nat) :
  (∀ j, a <= j -> F j = None) -> omap F (seq 0 (a + b)) = omap F (seq 0 a).
Proof.
  intros H. rewrite seq_app, omap_app, (omap_none F (seq (0 + a) b)).
  - apply app_nil_r.
  - apply Forall_forall. intros j Hj. apply elem_of_seq in Hj. apply H. lia.
Qed.

Lemma omap_seq_min {B} (F : nat -> option B) (a b : nat) :
  (∀ j, a <= j -> F j = None) -> (∀ j, b <= j -> F j = None) ->
  omap F (seq 0 a) = omap F (seq 0 b).
Proof.
  intros Ha Hb. destruct (decide (a <= b)) as [L|L].
  - replace b with (a + (b - a)) by lia. now rewrite omap_seq_cut.
  - replace a with (b + (a - b)) by lia. now rewrite omap_seq_cut.
Qed.

Lemma od_get_absent {V} (sel : list (iid * V)) (k : iid) :
  k ∉ sel.*1 -> od_get sel k = None.
Proof.
  intros H. destruct (od_get sel k) eqn:G; [|reflexivity].
  exfalso. apply H, od_get_is_Some. eauto.
Qed.

Lemma export_selected_indices {A B} (f : A -> B) (mk : nat -> iid)
  (src : list A) :
  Inj (=) (=) mk -> (∀ j, iid_index (mk j) = j) ->
  ∀ sel i, sel.*1 = mk <$> seq i (length sel) ->
    export_selected f sel src
    = omap (fun j => if bool_decide (od_get sel (mk j) = Some true)
                     then f <$> src !! j else None)
           (seq i (length sel)).
Proof.
  intros Hinj Hidx. induction sel as [|[k v] sel IH]; intros i Hk; [reflexivity|].
  simpl in Hk. injection Hk as -> Hk.
  cbn [length seq omap list_omap].
  assert (od_get ((mk i, v) :: sel) (mk i) = Some v) as ->.
  { cbn [od_get]. now rewrite decide_True. }
  rewrite (omap_ext_Forall _
             (fun j => if bool_decide (od_get sel (mk j) = Some true)
                       then f <$> src !! j else None) (seq (S i) (length sel))).
  - rewrite <- (IH (S i) Hk). unfold export_selected. cbn [flat_map fst snd].
    rewrite Hidx. destruct v.
    + rewrite bool_decide_eq_true_2 by reflexivity.
      now destruct (src !! i).
    + rewrite bool_decide_eq_false_2 by discriminate. reflexivity.
  - apply Forall_forall. intros j Hj. apply elem_of_seq in Hj.
    cbn [od_get]. rewrite decide_False; [reflexivity|].
    intros E. apply Hinj in E. lia.
Qed.

Lemma export_selected_ticked {A B} (f : A -> B) (mk : nat -> iid)
  (sel : list (iid * bool)) (src : list A) :
  Inj (=) (=) mk -> (∀ j, iid_index (mk j) = j) ->
  keys_in_order mk sel ->
  export_selected f sel src = f <$> ticked_rows mk sel src.
Proof.
  intros Hinj Hidx [k Hk].
  assert (length sel = k) as Hlen.
  { rewrite <- (length_fmap fst sel), Hk, length_fmap. apply length_seq. }
  rewrite (export_selected_indices f mk src Hinj Hidx sel 0)
    by now rewrite Hlen.
  unfold ticked_rows. rewrite list_fmap_omap.
  rewrite Hlen.
  rewrite (omap_seq_min _ k (length src)).
  - apply omap_ext_Forall, Forall_forall. intros j _.
    now destruct (bool_decide _).
  - intros j Hj. rewrite od_get_absent; [now rewrite bool_decide_eq_false_2|].
    rewrite Hk. intros Hin. apply list_elem_of_fmap in Hin as (x & Hx & Hs).
    apply Hinj in Hx. subst x. apply elem_of_seq in Hs. lia.
  - intros j Hj. rewrite (lookup_ge_None_2 src j Hj).
    now destruct (bool_decide _).
Qed.

End ticked.

Section summary.

Lemma ticked_rows_fmap {A B} (f : A -> B) mk sel (src : list A) :
  ticked_rows mk sel (f <$> src) = f <$> ticked_rows mk sel src.
Proof.
  unfold ticked_rows. rewrite length_fmap, list_fmap_omap.
  apply omap_ext_Forall, Forall_forall. intros j _.
  rewrite list_lookup_fmap. now destruct (bool_decide _).
Qed.

Lemma omap_length_le {A B} (f : A -> option B) (l : list A) :
  length (omap f l) <= length l.
Proof.
  induction l as [|x l IH]; [reflexivity|].
  cbn [omap list_omap length]. destruct (f x); cbn [length]; lia.
Qed.

Lemma ticked_rows_length {A} mk sel (src : list A) :
  length (ticked_rows mk sel src) <= length src.
Proof.
  unfold ticked_rows. etrans; [apply omap_length_le|]. now rewrite length_seq.
Qed.

Lemma export_selected_length {A B} (f : A -> B) sel (src : list A) :
  length (export_selected f sel src) <= count_selected sel.
Proof.
  unfold export_selected, count_selected.
  induction sel as [|[k v] sel IH]; [reflexivity|].
  cbn [flat_map List.filter fst snd]. rewrite length_app.
  destruct v; cbn [length]; [|lia].
  destruct (src !! iid_index k); cbn [length]; lia.
Qed.

Lemma reachable_keys g c : reachable g -> keys_in_order (mk_iid c) (selections g c).
Proof. intros H. apply reachable_well_formed in H. apply (H c). Qed.

Lemma export_software_ticked g d :
  reachable g ->
  export_software g d = ticked_rows sw_ (selections_software g) (scanned_software d).
Proof.
  intros Hr. pose proof (reachable_keys g software Hr) as Hk. cbn in Hk.
  unfold export_software, scanned_software.
  destruct (sd_mappings d) as [m|].
  - rewrite (export_selected_ticked id sw_) by (try apply sw_inj; auto).
    apply list_fmap_id.
  - destruct (sd_software d) as [inv|]; [|reflexivity].
    destruct (InstalledSoftware inv) as [l|]; [|reflexivity].
    cbn [or_empty]. rewrite ticked_rows_fmap.
    apply export_selected_ticked; try apply sw_inj; auto.
Qed.

Lemma export_store_apps_ticked g d :
  reachable g ->
  export_store_apps g d
  = store_entry <$> ticked_rows store_ (selections_store_apps g)
                      (match sd_software d with
                       | Some inv => or_empty (StoreApps inv)
                       | None => []
                       end).
Proof.
  intros Hr. pose proof (reachable_keys g store_apps Hr) as Hk. cbn in Hk.
  unfold export_store_apps.
  destruct (sd_software d) as [inv|]; [|reflexivity].
  destruct (StoreApps inv) as [l|]; [|reflexivity].
  cbn [or_empty]. apply export_selected_ticked; try apply store_inj; auto.
Qed.

Lemma scanned_software_length d :
  length (scanned_software d) = scanned_rows d software.
Proof.
  unfold scanned_software, scanned_rows.
  destruct (sd_mappings d); [reflexivity|].
  destruct (sd_software d); [|reflexivity]. now rewrite length_map.
Qed.

Lemma total_software_rows g d :
  scan_data g = Some d -> total_software (update_summary g) = scanned_rows d software.
Proof.
  intros E. unfold update_summary. cbn [total_software]. rewrite E.
  unfold scan_data_falsy, scanned_rows.
  destruct (sd_mappings d), (sd_software d), (sd_licenses d), (sd_config d);
    reflexivity.
Qed.

Lemma total_store_rows g d :
  scan_data g = Some d -> total_store (update_summary g) = scanned_rows d store_apps.
Proof.
  intros E. unfold update_summary. cbn [total_store]. rewrite E.
  unfold scan_data_falsy, scanned_rows.
  destruct (sd_mappings d), (sd_software d), (sd_licenses d), (sd_config d);
    reflexivity.
Qed.

Lemma od_mem_get {V} (d : list (iid * V)) k :
  od_mem d k = bool_decide (is_Some (od_get d k)).
Proof.
  apply bool_decide_ext. unfold od_mem. symmetry. apply od_get_is_Some.
Qed.

Lemma tally_method_sum t n kv :
  let r := tally_method t n kv in
  r.1.1 + r.1.2 + r.2
  = n.1.1 + n.1.2 + n.2 + (if kv.2 && od_mem (items t) kv.1 then 1 else 0).
Proof.
  destruct n as [[w c] m], kv as [k v]. unfold tally_method. cbn [fst snd].
  rewrite od_mem_get. unfold tree_values.
  destruct v; cbn [andb]; [|cbn; lia].
  destruct (od_get (items t) k) as [r|]; cbn [fmap option_fmap option_map].
  - rewrite bool_decide_eq_true_2 by eauto.
    destruct (String.eqb _ "Winget"); [cbn; lia|].
    destruct (String.eqb _ "Chocolatey"); cbn; lia.
  - rewrite bool_decide_eq_false_2 by (intros [? ?]; discriminate). cbn. lia.
Qed.

(** The method counters, as counts over the selection. *)
Lemma tally_methods_sum t sel :
  let n := tally_methods t sel in
  n.1.1 + n.1.2 + n.2
  = length (List.filter (fun kv : iid * bool => kv.2 && od_mem (items t) kv.1) sel).
Proof.
  unfold tally_methods.
  assert (∀ sel (n : nat * nat * nat),
    let r := fold_left (tally_method t) sel n in
    r.1.1 + r.1.2 + r.2
    = n.1.1 + n.1.2 + n.2
      + length (List.filter (fun kv : iid * bool => kv.2 && od_mem (items t) kv.1) sel))
    as H.
  { clear sel. induction sel as [|kv sel IH]; intros n.
    - cbn. lia.
    - cbn [fold_left List.filter]. cbv zeta in IH |- *. rewrite IH.
      pose proof (tally_method_sum t n kv) as E. cbv zeta in E. rewrite E.
      destruct (kv.2 && od_mem (items t) kv.1); cbn [length]; lia. }
  cbv zeta in H |- *. rewrite H. cbn. lia.
Qed.

Lemma filter_and_length {A} (p q : A -> bool) (l : list A) :
  length (List.filter (fun x => p x && q x) l) <= length (List.filter p l).
Proof.
  induction l as [|x l IH]; [reflexivity|].
  cbn [List.filter]. destruct (p x), (q x); cbn [andb length]; lia.
Qed.

End summary.

(** X1. In every state the application can be in, an export lists exactly
    the scanned software whose row is ticked, in the order of the scan, and
    the store apps whose row is ticked, in the order of the scan. *)
Theorem X1_export_lists_ticked_rows_in_scan_order (g : ScannerGUI) (d : ScanData) :
  reachable g ->
  scan_data g = Some d ->
  ∃ p, build_package g = Some p
       ∧ pkg_software p
         = ticked_rows sw_ (selections g software) (scanned_software d)
       ∧ pkg_store_apps p
         = store_entry <$> ticked_rows store_ (selections g store_apps)
                             (match sd_software d with
                              | Some inv => or_empty (StoreApps inv)
                              | None => []
                              end).
Proof.
  intros Hr Hd. unfold build_package. rewrite Hd. eexists. split; [reflexivity|].
  cbn [pkg_software pkg_store_apps selections]. split.
  - now apply export_software_ticked.
  - now apply export_store_apps_ticked.
Qed.

Lemma X1_export_lists_ticked_rows_in_scan_order_witness :
  let g := step sample_gui (Toggle software 1) in
  ∃ p, build_package g = Some p
       ∧ pkg_software p = [tool_a; editor_c]
       ∧ pkg_store_apps p = [].
Proof.
  intros g.
  destruct (X1_export_lists_ticked_rows_in_scan_order g sample_scan)
    as (p & Hp & Hs & Ha).
  - apply reach_step. exact (reach_load init "D:/scan" sample_scan reach_init).
  - vm_compute. reflexivity.
  - exists p. split; [exact Hp|]. split.
    + rewrite Hs. vm_compute. reflexivity.
    + rewrite Ha. vm_compute. reflexivity.
Defined.

(** X2. In every state the application can be in, an export lists no more
    software than the summary tab reports as selected and no more than it
    reports as scanned, and likewise for store apps. *)
Theorem X2_export_within_summary_counts (g : ScannerGUI) (p : Package) :
  reachable g ->
  build_package g = Some p ->
  length (pkg_software p) <= selected_software (update_summary g)
  ∧ length (pkg_software p) <= total_software (update_summary g)
  ∧ length (pkg_store_apps p) <= selected_store (update_summary g)
  ∧ length (pkg_store_apps p) <= total_store (update_summary g).
Proof.
  intros Hr Hp. unfold build_package in Hp.
  destruct (scan_data g) as [d|] eqn:Hd; [|discriminate].
  injection Hp as <-. cbn [pkg_software pkg_store_apps].
  rewrite (total_software_rows g d Hd), (total_store_rows g d Hd).
  cbn [update_summary selected_software selected_store].
  repeat split.
  - unfold export_software.
    destruct (sd_mappings d); [apply export_selected_length|].
    destruct (sd_software d) as [inv|]; [|cbn; lia].
    destruct (InstalledSoftware inv); [apply export_selected_length|cbn; lia].
  - rewrite export_software_ticked by exact Hr.
    rewrite <- scanned_software_length. apply ticked_rows_length.
  - unfold export_store_apps.
    destruct (sd_software d) as [inv|]; [|cbn; lia].
    destruct (StoreApps inv); [apply export_selected_length|cbn; lia].
  - rewrite export_store_apps_ticked by exact Hr. rewrite length_fmap.
    etrans; [apply ticked_rows_length|]. unfold scanned_rows.
    now destruct (sd_software d).
Qed.

Lemma X2_export_within_summary_counts_witness :
  let g := step sample_gui (Toggle software 1) in
  ∃ p, build_package g = Some p
       ∧ length (pkg_software p) <= 2 ∧ length (pkg_software p) <= 3
       ∧ length (pkg_store_apps p) <= 0 ∧ length (pkg_store_apps p) <= 1.
Proof.
  intros g.
  assert (∃ p, build_package g = Some p) as [p Hp]
    by (eexists; vm_compute; reflexivity).
  exists p. split; [exact Hp|].
  apply (X2_export_within_summary_counts g p).
  - apply reach_step. exact (reach_load init "D:/scan" sample_scan reach_init).
  - exact Hp.
Defined.

(** X3. The three install-method counters of the summary tab add up to the
    number of ticked software keys whose row the tree still holds; they
    never exceed the number reported as selected, and reach it when every
    ticked key has a row. *)
Theorem X3_summary_method_counts (g : ScannerGUI) :
  let s := update_summary g in
  winget_count s + choco_count s + manual_count s
  = length (List.filter
              (fun kv : iid * bool => kv.2 && od_mem (items (software_tree g)) kv.1)
              (selections_software g))
  ∧ winget_count s + choco_count s + manual_count s <= selected_software s
  ∧ ((∀ item, (item, true) ∈ selections_software g ->
        item ∈ (items (software_tree g)).*1) ->
     winget_count s + choco_count s + manual_count s = selected_software s).
Proof.
  cbv zeta. cbn [update_summary winget_count choco_count manual_count selected_software].
  pose proof (tally_methods_sum (software_tree g) (selections_software g)) as E.
  cbv zeta in E. rewrite E. split; [reflexivity|]. split.
  - apply (filter_and_length (fun kv : iid * bool => kv.2)).
  - intros H. unfold count_selected. f_equal.
    apply List.filter_ext_in. intros [k v] Hin. cbn [fst snd].
    destruct v; [|reflexivity]. cbn [andb].
    apply od_mem_true, H. now apply list_elem_of_In.
Qed.

Section more_handlers.

Lemma count_selected_app {K} (a b : list (K * bool)) :
  count_selected (a ++ b) = count_selected a + count_selected b.
Proof. unfold count_selected. now rewrite List.filter_app, length_app. Qed.

Lemma count_selected_rows (mk : nat -> iid) (b : bool) i n :
  count_selected ((fun j => (mk j, b)) <$> seq i n) = if b then n else 0.
Proof.
  unfold count_selected. revert i. induction n as [|n IH]; intros i.
  - now destruct b.
  - cbn [seq fmap list_fmap List.filter snd]. specialize (IH (S i)).
    destruct b; cbn [length]; [f_equal|]; exact IH.
Qed.

Lemma load_scan_done g path d g' :
  load_scan g path d = Done g' ->
  selections g' software
    = set_rows sw_ true 0 (scanned_rows d software) (selections g software)
  ∧ selections g' store_apps
    = set_rows store_ false 0 (scanned_rows d store_apps) (selections g store_apps)
  ∧ scan_data g' = Some d.
Proof.
  intros H. unfold load_scan in H.
  apply (populate_ui_done _ g' d) in H; [exact H|reflexivity].
Qed.

Lemma tree_values_set_text t x b item :
  tree_values (tree_set_text t x b) item = tree_values t item.
Proof.
  unfold tree_values, tree_set_text. cbn [items].
  induction (items t) as [|[k r] l IH]; [reflexivity|].
  cbn [map fst snd]. destruct (decide (k = x)) as [->|N]; cbn [od_get fst snd].
  - case_decide; [reflexivity|exact IH].
  - case_decide; [reflexivity|exact IH].
Qed.

Lemma mark_winget_values g x item :
  tree_values (software_tree (mark_winget g x)) item
  = tree_values (software_tree g) item.
Proof. unfold mark_winget. cbn. apply tree_values_set_text. Qed.

Lemma marks_winget_values ch g item :
  tree_values (software_tree (fold_left mark_winget ch g)) item
  = tree_values (software_tree g) item.
Proof.
  revert g. induction ch as [|x ch IH]; intros g; [reflexivity|].
  cbn [fold_left]. now rewrite IH, mark_winget_values.
Qed.

Lemma marks_winget_get ch g item :
  item ∈ ch ->
  od_get (selections_software (fold_left mark_winget ch g)) item
  = Some (String.eqb (row_method (default [] (tree_values (software_tree g) item)))
                     "Winget").
Proof.
  induction ch as [|x ch IH] using rev_ind; intros Hin; [inversion Hin|].
  rewrite fold_left_app. cbn [fold_left].
  unfold mark_winget at 1. cbn [set_tree set_selections selections_software].
  rewrite od_get_set. case_decide as E.
  - subst x. now rewrite marks_winget_values.
  - apply elem_of_app in Hin as [Hin|Hin]; [now apply IH|].
    apply list_elem_of_singleton in Hin. congruence.
Qed.

Lemma od_set_back {K V} `{EqDecision K} (d : list (K * V)) k v b :
  od_get d k = Some b -> od_set (od_set d k v) k b = d.
Proof.
  induction d as [|[k' v'] d IH]; intros H; [discriminate|].
  cbn [od_get od_set] in *. case_decide as E.
  - injection H as ->. subst k'. cbn [od_set]. now rewrite decide_True.
  - cbn [od_set]. rewrite decide_False by exact E. now rewrite IH.
Qed.

End more_handlers.

(** X4. In every state the application can be in, a load that completes
    leaves the summary tab reporting as selected all the scanned software
    plus the ticked keys that earlier, longer scans left behind; the
    selected store apps it reports are such left-over keys only. *)
Theorem X4_summary_after_load_counts_stale_keys
  (g g' : ScannerGUI) (path : string) (d : ScanData) :
  reachable g ->
  load_scan g path d = Done g' ->
  selected_software (update_summary g')
  = total_software (update_summary g')
    + count_selected (drop (scanned_rows d software) (selections g software))
  ∧ selected_store (update_summary g')
    = count_selected (drop (scanned_rows d store_apps) (selections g store_apps)).
Proof.
  intros Hr Hl. destruct (load_scan_done g path d g' Hl) as (Hs & Ha & Hd).
  rewrite (total_software_rows g' d Hd).
  cbn [update_summary selected_software selected_store].
  cbn [selections] in Hs, Ha. rewrite Hs, Ha.
  destruct (reachable_keys g software Hr) as [k Hk].
  destruct (reachable_keys g store_apps Hr) as [k' Hk'].
  cbn [mk_iid selections] in Hk, Hk'.
  rewrite (set_rows_in_order sw_ true _ k sw_inj Hk).
  rewrite (set_rows_in_order store_ false _ k' store_inj Hk').
  rewrite !count_selected_app, !count_selected_rows. split; reflexivity.
Qed.

Lemma X4_summary_after_load_counts_stale_keys_witness :
  let short := {| sd_software := None; sd_mappings := Some [tool_b];
                  sd_licenses := None; sd_config := None |} in
  ∃ g', load_scan sample_gui "D:/scan2" short = Done g'
        ∧ selected_software (update_summary g') = 3
        ∧ total_software (update_summary g') = 1
        ∧ selected_store (update_summary g') = 0.
Proof.
  intros short.
  exists (state_of (load_scan sample_gui "D:/scan2" short)).
  assert (load_scan sample_gui "D:/scan2" short
          = Done (state_of (load_scan sample_gui "D:/scan2" short))) as Hl
    by (vm_compute; reflexivity).
  split; [exact Hl|].
  destruct (X4_summary_after_load_counts_stale_keys sample_gui _ "D:/scan2" short
              (reach_load init "D:/scan" sample_scan reach_init) Hl)
    as [H1 H2].
  rewrite H1, H2. vm_compute. repeat split.
Defined.

(** X5. Select Winget Available leaves every displayed software row ticked
    exactly when the install-method column of the row reads Winget. *)
Theorem X5_select_winget_ticks_winget_rows (g : ScannerGUI) (item : iid) :
  item ∈ children (software_tree g) ->
  od_get (selections (select_winget g) software) item
  = Some (String.eqb
            (row_method (default [] (tree_values (software_tree g) item)))
            "Winget").
Proof. intros Hin. now apply marks_winget_get. Qed.

Lemma X5_select_winget_ticks_winget_rows_witness :
  od_get (selections (select_winget sample_gui) software) (sw_ 0) = Some true
  ∧ od_get (selections (select_winget sample_gui) software) (sw_ 2) = Some false.
Proof.
  split.
  - rewrite (X5_select_winget_ticks_winget_rows sample_gui (sw_ 0)).
    + vm_compute. reflexivity.
    + apply (bool_decide_unpack _). vm_compute. exact I.
  - rewrite (X5_select_winget_ticks_winget_rows sample_gui (sw_ 2)).
    + vm_compute. reflexivity.
    + apply (bool_decide_unpack _). vm_compute. exact I.
Defined.

(** X6. Clicking the same row twice restores the selection of both
    categories, and with it the package an export builds. A click below
    the last displayed row, or on a row whose identifier is not a key of
    the category's selection, changes nothing at all. *)
Theorem X6_toggle_twice_restores_selection
  (g : ScannerGUI) (c : category) (y : nat) :
  let g2 := toggle_selection (toggle_selection g c y) c y in
  (∀ c', selections g2 c' = selections g c')
  ∧ build_package g2 = build_package g
  ∧ (length (children (tree g c)) <= y -> toggle_selection g c y = g)
  ∧ (identify_row (tree g c) y = None -> toggle_selection g c y = g)
  ∧ (∀ item, identify_row (tree g c) y = Some item ->
       od_get (selections g c) item = None -> toggle_selection g c y = g).
Proof.
  cbv zeta.
  assert (Hnone : identify_row (tree g c) y = None -> toggle_selection g c y = g).
  { intros E. unfold toggle_selection. now rewrite E. }
  assert (Hbelow : length (children (tree g c)) <= y -> toggle_selection g c y = g).
  { intros Hy. apply Hnone. unfold identify_row. now apply lookup_ge_None_2. }
  assert (Hnokey : ∀ item, identify_row (tree g c) y = Some item ->
                     od_get (selections g c) item = None ->
                     toggle_selection g c y = g).
  { intros item E N. unfold toggle_selection. now rewrite E, N. }
  cut ((∀ c', selections (toggle_selection (toggle_selection g c y) c y) c'
              = selections g c')
       ∧ build_package (toggle_selection (toggle_selection g c y) c y)
         = build_package g).
  { intros [H1 H2]. repeat (split; [assumption|]). assumption. }
  clear Hnone Hbelow Hnokey.
  assert (∀ c', selections (toggle_selection (toggle_selection g c y) c y) c'
                = selections g c') as Hsel.
  { intros c'. unfold toggle_selection.
    destruct (identify_row (tree g c) y) as [item|] eqn:Hrow.
    2:{ now rewrite Hrow. }
    destruct (od_get (selections g c) item) as [b|] eqn:Hget.
    2:{ now rewrite Hrow, Hget. }
    rewrite tree_set_tree, decide_True by reflexivity.
    unfold identify_row in *. cbn [tree_set_text children]. rewrite Hrow.
    rewrite selections_set_tree, selections_set_selections,
      decide_True by reflexivity.
    rewrite od_get_set_eq.
    rewrite selections_set_tree, selections_set_selections.
    rewrite Bool.negb_involutive.
    case_decide as E; [|now rewrite selections_set_tree, selections_set_selections,
                          decide_False by exact E].
    subst c'. now apply od_set_back. }
  split; [exact Hsel|].
  assert (∀ g0 : ScannerGUI,
            scan_data (toggle_selection g0 c y) = scan_data g0
            ∧ config_options (toggle_selection g0 c y) = config_options g0
            ∧ include_windows_key (toggle_selection g0 c y) = include_windows_key g0
            ∧ include_office_keys (toggle_selection g0 c y) = include_office_keys g0
            ∧ include_wifi (toggle_selection g0 c y) = include_wifi g0) as Hrest.
  { intros g0. unfold toggle_selection.
    destruct (identify_row (tree g0 c) y); [|repeat split].
    destruct (od_get (selections g0 c) _); repeat split. }
  destruct (Hrest (toggle_selection g c y)) as (E1 & E2 & E3 & E4 & E5).
  destruct (Hrest g) as (F1 & F2 & F3 & F4 & F5).
  pose proof (Hsel software) as Hs. pose proof (Hsel store_apps) as Ha.
  cbn [selections] in Hs, Ha.
  unfold build_package, export_software, export_store_apps, export_licenses.
  rewrite E1, E2, E3, E4, E5, F1, F2, F3, F4, F5, Hs, Ha. reflexivity.
Qed.

(** On the sample scan, whose software tree shows three rows: a click on
    the eighth row's place changes nothing, and two clicks on the first row
    leave the export as it was. *)
Lemma X6_toggle_twice_restores_selection_witness :
  toggle_selection sample_gui software 7 = sample_gui
  ∧ build_package (toggle_selection (toggle_selection sample_gui software 0) software 0)
    = build_package sample_gui.
Proof.
  split.
  - destruct (X6_toggle_twice_restores_selection sample_gui software 7)
      as (_ & _ & Hbelow & _).
    apply Hbelow. vm_compute. lia.
  - apply (X6_toggle_twice_restores_selection sample_gui software 0).
Defined.

Section licences.

Lemma populate_rows_boxes c mk b rows :
  ∀ i g,
    include_windows_key (state_of (populate_rows c mk b rows i g)) = include_windows_key g
    ∧ include_office_keys (state_of (populate_rows c mk b rows i g)) = include_office_keys g
    ∧ include_wifi (state_of (populate_rows c mk b rows i g)) = include_wifi g.
Proof.
  induction rows as [|vals rows IH]; intros i g; cbn [populate_rows].
  - repeat split.
  - destruct (tree_insert _ _ _) as [t|]; [|repeat split].
    destruct (IH (S i) (set_all_iids
                (set_selections (set_tree g c t) c
                   (od_set (selections (set_tree g c t) c) (mk i) b)) c
                (all_iids (set_selections (set_tree g c t) c
                   (od_set (selections (set_tree g c t) c) (mk i) b)) c ++ [mk i])))
      as (E1 & E2 & E3).
    rewrite E1, E2, E3. repeat split.
Qed.

Lemma populate_ui_boxes g g' d :
  scan_data g = Some d ->
  populate_ui g = Done g' ->
  include_windows_key g' = include_windows_key g
  ∧ include_office_keys g' = include_office_keys g && negb (masked_office d)
  ∧ include_wifi g' = include_wifi g.
Proof.
  intros Hd. unfold populate_ui. rewrite Hd.
  destruct (scan_data_falsy (Some d)) eqn:Hf.
  - intros [= <-]. unfold masked_office.
    unfold scan_data_falsy in Hf.
    destruct (sd_licenses d); [now destruct (sd_software d), (sd_mappings d)|].
    now rewrite Bool.andb_true_r.
  - set (g3 := set_all_iids _ store_apps []).
    assert (include_windows_key g3 = include_windows_key g
            ∧ include_office_keys g3 = include_office_keys g
            ∧ include_wifi g3 = include_wifi g) as (A1 & A2 & A3) by repeat split.
    clearbody g3. unfold and_then.
    match goal with
    | |- match ?o with Done _ => _ | Raised _ => _ end = _ -> _ =>
        assert (include_windows_key (state_of o) = include_windows_key g3
                ∧ include_office_keys (state_of o) = include_office_keys g3
                ∧ include_wifi (state_of o) = include_wifi g3) as (B1 & B2 & B3);
        [|destruct o as [g4|]; [|discriminate]]
    end.
    { destruct (sd_mappings d); [apply populate_rows_boxes|].
      destruct (sd_software d); [apply populate_rows_boxes|repeat split]. }
    cbn [state_of] in B1, B2, B3.
    match goal with
    | |- match ?o with Done _ => _ | Raised _ => _ end = _ -> _ =>
        assert (include_windows_key (state_of o) = include_windows_key g4
                ∧ include_office_keys (state_of o) = include_office_keys g4
                ∧ include_wifi (state_of o) = include_wifi g4) as (C1 & C2 & C3);
        [|destruct o as [g5|]; [|discriminate]]
    end.
    { destruct (sd_software d); [apply populate_rows_boxes|repeat split]. }
    cbn [state_of] in C1, C2, C3.
    intros [= <-]. unfold populate_licenses, masked_office.
    destruct (sd_licenses d) as [lic|].
    + destruct (existsb masked_key (or_empty (Office lic)));
        cbn [set_include_office_keys include_windows_key include_office_keys include_wifi];
        rewrite ?Bool.andb_false_r, ?Bool.andb_true_r; repeat split; congruence.
    + rewrite Bool.andb_true_r. repeat split; congruence.
Qed.

Lemma load_scan_boxes g path d g' :
  load_scan g path d = Done g' ->
  include_windows_key g' = include_windows_key g
  ∧ include_office_keys g' = include_office_keys g && negb (masked_office d)
  ∧ include_wifi g' = include_wifi g.
Proof.
  intros H. unfold load_scan in H.
  apply (populate_ui_boxes _ g' d) in H; [exact H|reflexivity].
Qed.

Lemma licence_bundles g d :
  ("windows_key" ∈ (export_licenses g d).*1
     <-> is_Some (sd_licenses d) ∧ include_windows_key g = true)
  ∧ ("office_keys" ∈ (export_licenses g d).*1
     <-> is_Some (sd_licenses d) ∧ include_office_keys g = true)
  ∧ ("wifi_profiles" ∈ (export_licenses g d).*1
     <-> is_Some (sd_licenses d) ∧ include_wifi g = true).
Proof.
  unfold export_licenses.
  destruct (sd_licenses d) as [lic|], (include_windows_key g),
    (include_office_keys g), (include_wifi g).
  all: split; [|split].
  all: match goal with
       | |- ?k ∈ ?l <-> _ =>
           first
             [ assert (k ∈ l) by (apply (bool_decide_unpack _); vm_compute; exact I);
               split; [intros _; split; [eauto|reflexivity] | intros _; assumption]
             | assert (k ∉ l) by (apply (bool_decide_unpack _); vm_compute; exact I);
               split; [intros; contradiction
                      | intros [Hs Hb];
                        first [discriminate Hb | destruct Hs as [? Hs]; discriminate Hs]] ]
       end.
Qed.

End licences.

(** X7. The package holds a licence bundle exactly when licence data was
    scanned and the bundle's box is ticked: an unticked box keeps the
    Windows key, the Office keys and the WiFi profiles out of the export. *)
Theorem X7_licence_bundle_exported_iff_box_ticked
  (g : ScannerGUI) (d : ScanData) (p : Package) :
  scan_data g = Some d ->
  build_package g = Some p ->
  ("windows_key" ∈ (licenses p).*1
     <-> is_Some (sd_licenses d) ∧ include_windows_key g = true)
  ∧ ("office_keys" ∈ (licenses p).*1
     <-> is_Some (sd_licenses d) ∧ include_office_keys g = true)
  ∧ ("wifi_profiles" ∈ (licenses p).*1
     <-> is_Some (sd_licenses d) ∧ include_wifi g = true).
Proof.
  intros Hd Hp. unfold build_package in Hp. rewrite Hd in Hp.
  injection Hp as <-. cbn [licenses]. apply licence_bundles.
Qed.

Lemma X7_licence_bundle_exported_iff_box_ticked_witness :
  ∃ p, build_package sample_gui = Some p
       ∧ ("windows_key" ∈ (licenses p).*1
          <-> is_Some (sd_licenses sample_scan) ∧ include_windows_key sample_gui = true).
Proof.
  assert (∃ p, build_package sample_gui = Some p) as [p Hp]
    by (eexists; vm_compute; reflexivity).
  exists p. split; [exact Hp|].
  apply (X7_licence_bundle_exported_iff_box_ticked sample_gui sample_scan p).
  - vm_compute. reflexivity.
  - exact Hp.
Defined.

(** X8. A load never ticks a licence box: it leaves the Windows and WiFi
    boxes as they were and unticks the Office box when the scan shows a
    masked Office key. The export that follows a load of such a scan holds
    no Office keys and records [include_office] as false. *)
Theorem X8_masked_office_keys_not_exported
  (g g' : ScannerGUI) (path : string) (d : ScanData) (p : Package) :
  load_scan g path d = Done g' ->
  build_package g' = Some p ->
  include_windows_key g' = include_windows_key g
  ∧ include_wifi g' = include_wifi g
  ∧ include_office_keys g' = include_office_keys g && negb (masked_office d)
  ∧ (masked_office d = true ->
     ("office_keys" ∉ (licenses p).*1)
     ∧ dict_lookup (licenses p) "include_office" = Some (JBool false)).
Proof.
  intros Hl Hp. destruct (load_scan_boxes g path d g' Hl) as (E1 & E2 & E3).
  destruct (load_scan_done g path d g' Hl) as (_ & _ & Hd).
  repeat split; try assumption.
  - intros Hk. unfold build_package in Hp. rewrite Hd in Hp.
    injection Hp as <-. cbn [licenses] in Hk.
    apply (licence_bundles g' d) in Hk as [_ Hk].
    rewrite E2, H, Bool.andb_false_r in Hk. discriminate.
  - unfold build_package in Hp. rewrite Hd in Hp. injection Hp as <-.
    cbn [licenses]. unfold export_licenses.
    rewrite E2, H, Bool.andb_false_r. reflexivity.
Qed.

Lemma X8_masked_office_keys_not_exported_witness :
  ∃ g' p, load_scan init "D:/scan" masked_scan = Done g'
          ∧ build_package g' = Some p
          ∧ include_office_keys g' = false
          ∧ ("office_keys" ∉ (licenses p).*1).
Proof.
  exists (state_of (load_scan init "D:/scan" masked_scan)).
  assert (load_scan init "D:/scan" masked_scan
          = Done (state_of (load_scan init "D:/scan" masked_scan))) as Hl
    by (vm_compute; reflexivity).
  assert (∃ p, build_package (state_of (load_scan init "D:/scan" masked_scan)) = Some p)
    as [p Hp] by (eexists; vm_compute; reflexivity).
  exists p. split; [exact Hl|]. split; [exact Hp|].
  destruct (X8_masked_office_keys_not_exported init _ "D:/scan" masked_scan p Hl Hp)
    as (_ & _ & E & H).
  split; [rewrite E; vm_compute; reflexivity|].
  apply H. vm_compute. reflexivity.
Defined.

Section reload.

Lemma tree_delete_keeps t x item :
  item ≠ x -> item ∈ (items t).*1 -> item ∈ (items (tree_delete t x)).*1.
Proof.
  intros N Hin. unfold tree_delete. cbn [items].
  apply list_elem_of_fmap in Hin as [[k r] [-> Hin]].
  apply list_elem_of_fmap. exists (k, r). split; [reflexivity|].
  apply list_elem_of_filter. split; [exact N|exact Hin].
Qed.

Lemma tree_deletes_keep (l : list iid) :
  ∀ t item, item ∉ l -> item ∈ (items t).*1 ->
    item ∈ (items (fold_left tree_delete l t)).*1.
Proof.
  induction l as [|x l IH]; intros t item Hl Hin; [exact Hin|].
  cbn [fold_left]. apply not_elem_of_cons in Hl as [N Hl].
  apply IH; [exact Hl|]. now apply tree_delete_keeps.
Qed.

(** A detached row survives the clearing of the tree. *)
Lemma tree_clear_keeps t item :
  item ∈ (items t).*1 -> item ∉ children t -> item ∈ (items (tree_clear t)).*1.
Proof. intros Hin Hc. now apply tree_deletes_keep. Qed.

Lemma populate_rows_refused c (mk : nat -> iid) (b : bool)
  (rows : list (list string)) :
  ∀ i g j, i <= j < i + length rows -> mk j ∈ (items (tree g c)).*1 ->
    ∃ g', populate_rows c mk b rows i g = Raised g'.
Proof.
  induction rows as [|vals rows IH]; intros i g j Hj Hin; cbn [length] in Hj;
    [lia|].
  cbn [populate_rows]. unfold tree_insert.
  destruct (od_mem (items (tree g c)) (mk i)) eqn:Hm; [now eexists|].
  assert (j ≠ i) as N.
  { intros ->. apply od_mem_true in Hin. congruence. }
  apply (IH (S i) _ j); [lia|].
  rewrite tree_set_all_iids, tree_set_selections, tree_set_tree,
    decide_True by reflexivity.
  cbn [items]. rewrite fmap_app. apply elem_of_app. now left.
Qed.

Lemma populate_rows_other_tree c (mk : nat -> iid) (b : bool)
  (rows : list (list string)) c' :
  c' ≠ c ->
  ∀ i g, tree (state_of (populate_rows c mk b rows i g)) c' = tree g c'.
Proof.
  intros N. induction rows as [|vals rows IH]; intros i g; cbn [populate_rows];
    [reflexivity|].
  destruct (tree_insert _ _ _) as [t|]; [|reflexivity].
  rewrite IH.
  now rewrite tree_set_all_iids, tree_set_selections, tree_set_tree,
    decide_False by congruence.
Qed.

Lemma load_scan_refused g path d c j :
  mk_iid c j ∈ (items (tree g c)).*1 ->
  mk_iid c j ∉ children (tree g c) ->
  j < scanned_rows d c ->
  ∃ g', load_scan g path d = Raised g'.
Proof.
  intros Hin Hout Hj. unfold load_scan, populate_ui.
  cbn [scan_data software_tree store_apps_tree].
  assert (scan_data_falsy (Some d) = false) as ->.
  { unfold scan_data_falsy, scanned_rows in *.
    destruct c, (sd_mappings d), (sd_software d); try reflexivity;
      cbn in Hj; lia. }
  set (g3 := set_all_iids _ store_apps []).
  assert (∀ c0, mk_iid c0 j ∈ (items (tree g c0)).*1 ->
                mk_iid c0 j ∉ children (tree g c0) ->
                mk_iid c0 j ∈ (items (tree g3 c0)).*1) as H3.
  { intros [] Hi Ho; cbn; now apply tree_clear_keeps. }
  specialize (H3 c Hin Hout). clearbody g3. unfold and_then.
  destruct c; cbn [mk_iid scanned_rows] in *.
  - destruct (sd_mappings d) as [m|].
    + destruct (populate_rows_refused software sw_ true (map mapping_row m)
                  0 g3 j) as [g' ->]; [rewrite length_map; lia|exact H3|].
      now eexists.
    + destruct (sd_software d) as [inv|]; [|lia].
      destruct (populate_rows_refused software sw_ true
                  (map installed_row (or_empty (InstalledSoftware inv)))
                  0 g3 j) as [g' ->]; [rewrite length_map; lia|exact H3|].
      now eexists.
  - destruct (sd_software d) as [inv|]; [|destruct (sd_mappings d); lia].
    match goal with
    | |- ∃ g', match ?o with Done _ => _ | Raised _ => _ end = _ =>
        assert (tree (state_of o) store_apps = tree g3 store_apps) as Ht;
        [|destruct o as [g4|g4]; [|now eexists]]
    end.
    { destruct (sd_mappings d);
        [apply populate_rows_other_tree; discriminate|].
      apply populate_rows_other_tree; discriminate. }
    cbn [state_of] in Ht.
    destruct (populate_rows_refused store_apps store_ false
                (map store_row (or_empty (StoreApps inv))) 0 g4 j) as [g' ->];
      [rewrite length_map; lia|now rewrite Ht|].
    now eexists.
Qed.

Lemma populate_rows_accepted c (mk : nat -> iid) (b : bool)
  (rows : list (list string)) :
  Inj (=) (=) mk ->
  ∀ i g, (∀ j, i <= j < i + length rows -> mk j ∉ (items (tree g c)).*1) ->
    ∃ g', populate_rows c mk b rows i g = Done g'.
Proof.
  intros Hinj. induction rows as [|vals rows IH]; intros i g H;
    cbn [populate_rows]; [now eexists|].
  unfold tree_insert.
  assert (od_mem (items (tree g c)) (mk i) = false) as ->.
  { apply not_true_is_false. rewrite od_mem_true. apply H. cbn [length]. lia. }
  apply IH. intros j Hj.
  rewrite tree_set_all_iids, tree_set_selections, tree_set_tree,
    decide_True by reflexivity.
  cbn [items]. rewrite fmap_app. apply not_elem_of_app. split.
  - apply H. cbn [length]. lia.
  - cbn. intros Hin. apply list_elem_of_singleton in Hin.
    apply Hinj in Hin. lia.
Qed.

Lemma tree_clear_hidden t item :
  item ∈ (items (tree_clear t)).*1 -> item ∈ (items t).*1 ∧ item ∉ children t.
Proof.
  intros Hin. apply list_elem_of_fmap in Hin as [[k r] [-> Hin]].
  apply (proj1 (tree_deletes t (children t))) in Hin as [Hin Hout].
  split; [|exact Hout]. apply list_elem_of_fmap. now exists (k, r).
Qed.

Lemma load_scan_accepted g path d :
  (∀ c j, j < scanned_rows d c ->
     mk_iid c j ∈ (items (tree g c)).*1 -> mk_iid c j ∈ children (tree g c)) ->
  ∃ g', load_scan g path d = Done g'.
Proof.
  intros H. unfold load_scan, populate_ui.
  cbn [scan_data software_tree store_apps_tree].
  case_if; [now eexists|].
  set (g3 := set_all_iids _ store_apps []).
  assert (∀ c j, j < scanned_rows d c -> mk_iid c j ∉ (items (tree g3 c)).*1)
    as H3.
  { intros c j Hj Hin.
    assert (mk_iid c j ∈ (items (tree_clear (tree g c))).*1) as Hc
      by (destruct c; exact Hin).
    apply tree_clear_hidden in Hc as [Hi Ho]. apply Ho. now apply H. }
  clearbody g3. unfold and_then.
  set (o1 := match sd_mappings d with Some _ => _ | None => _ end).
  assert ((∃ g4, o1 = Done g4)
          ∧ tree (state_of o1) store_apps = tree g3 store_apps) as [[g4 E1] Ht].
  { unfold o1. pose proof (H3 software) as Hs. cbn [scanned_rows mk_iid] in Hs.
    destruct (sd_mappings d) as [m|].
    - split; [|apply populate_rows_other_tree; discriminate].
      apply (populate_rows_accepted software sw_ true _ sw_inj).
      intros j Hj. rewrite length_map in Hj. apply Hs. lia.
    - destruct (sd_software d) as [inv|]; [|split; [now eexists|reflexivity]].
      split; [|apply populate_rows_other_tree; discriminate].
      apply (populate_rows_accepted software sw_ true _ sw_inj).
      intros j Hj. rewrite length_map in Hj. apply Hs. lia. }
  rewrite E1 in Ht |- *. cbn [state_of] in Ht.
  pose proof (H3 store_apps) as Hs. cbn [scanned_rows mk_iid] in Hs.
  destruct (sd_software d) as [inv|]; [|now eexists].
  destruct (populate_rows_accepted store_apps store_ false
              (map store_row (or_empty (StoreApps inv))) store_inj 0 g4)
    as [g5 ->]; [|now eexists].
  intros j Hj. rewrite length_map in Hj. rewrite Ht. apply Hs. lia.
Qed.

End reload.

(** X9. A scan cannot be loaded while the search filter hides a row that
    the scan has too: the hidden row is still in the tree, the tree refuses
    its identifier, and the load raises. *)
Theorem X9_load_fails_while_filter_hides_a_row
  (g : ScannerGUI) (path : string) (d : ScanData) (c : category) (j : nat) :
  mk_iid c j ∈ (items (tree g c)).*1 ->
  mk_iid c j ∉ children (tree g c) ->
  j < scanned_rows d c ->
  ∃ g', load_scan g path d = Raised g'.
Proof. apply load_scan_refused. Qed.

Lemma X9_load_fails_while_filter_hides_a_row_witness :
  ∃ g', load_scan (type_search sample_gui software "tool") "D:/scan" sample_scan
        = Raised g'.
Proof.
  apply (X9_load_fails_while_filter_hides_a_row
           (type_search sample_gui software "tool") "D:/scan" sample_scan software 2).
  - apply (bool_decide_unpack _). vm_compute. exact I.
  - apply (bool_decide_unpack _). vm_compute. exact I.
  - vm_compute. lia.
Defined.

(** X10. For scan files of the shape [ScanData] describes (every list the
    code iterates is absent or an array of objects; a key that holds
    [null] or another value is outside this shape, and the code raises on
    it), loading the scan runs to its end exactly when no row with an
    index of the scan is hidden by a search filter: rows that are
    displayed are deleted before the new ones are entered, and hidden rows
    past the end of the scan are not in the way. *)
Theorem X10_load_completes_iff_no_scan_row_hidden
  (g : ScannerGUI) (path : string) (d : ScanData) :
  (∃ g', load_scan g path d = Done g')
  <-> (∀ c j, j < scanned_rows d c ->
         mk_iid c j ∈ (items (tree g c)).*1 -> mk_iid c j ∈ children (tree g c)).
Proof.
  split; [|apply load_scan_accepted].
  intros [g' Hdone] c j Hj Hin.
  destruct (decide (mk_iid c j ∈ children (tree g c))) as [Hc|Hc]; [exact Hc|].
  destruct (load_scan_refused g path d c j Hin Hc Hj) as [g'' Hr].
  rewrite Hr in Hdone. discriminate.
Qed.

(** X11. The text of an install script, Winget or Chocolatey: the header,
    one line per package in the order of the export, each but the last
    closed by a comma, and the footer. *)
Theorem X11_script_lists_packages_in_order
  (p : Package) (dir : gmap string string)
  (file header footer : string) (ids pkgs : list json) (last : json) :
  (file, header, footer, ids)
    ∈ [ (winget_file, winget_header, winget_footer, winget_pkgs (pkg_software p));
        (choco_file, choco_header, choco_footer, choco_pkgs (pkg_software p)) ] ->
  ids = pkgs ++ [last] ->
  generate_install_scripts p dir !! file
  = Some (header +:+ joined (map pkg_line pkgs) +:+ quoted last +:+ LF +:+ footer).
Proof.
  intros Hin Hids.
  assert (∀ h f, render_script h f (pkgs ++ [last])
                 = h +:+ joined (map pkg_line pkgs) +:+ quoted last +:+ LF +:+ f)
    as Hrender.
  { intros h f. unfold render_script. rewrite rstrip_script.
    now rewrite !append_assoc. }
  apply elem_of_cons in Hin as [Hin|Hin].
  - injection Hin as -> -> -> Hi. rewrite generate_winget, <- Hi, Hids.
    destruct (pkgs ++ [last]) eqn:E; [now destruct pkgs|].
    now rewrite Hrender.
  - apply list_elem_of_singleton in Hin.
    injection Hin as -> -> -> Hi. rewrite generate_choco, <- Hi, Hids.
    destruct (pkgs ++ [last]) eqn:E; [now destruct pkgs|].
    now rewrite Hrender.
Qed.

Lemma X11_script_lists_packages_in_order_witness :
  generate_install_scripts sample_package ∅ !! winget_file
  = Some (winget_header +:+ quoted (JStr "vendor.toola") +:+ LF +:+ winget_footer)
  ∧ generate_install_scripts sample_package ∅ !! choco_file
    = Some (choco_header +:+ quoted (JStr "editorc") +:+ LF +:+ choco_footer).
Proof.
  split.
  - apply (X11_script_lists_packages_in_order sample_package ∅
             winget_file winget_header winget_footer
             (winget_pkgs (pkg_software sample_package)) [] (JStr "vendor.toola")).
    + now left.
    + vm_compute. reflexivity.
  - apply (X11_script_lists_packages_in_order sample_package ∅
             choco_file choco_header choco_footer
             (choco_pkgs (pkg_software sample_package)) [] (JStr "editorc")).
    + right. now left.
    + vm_compute. reflexivity.
Defined.

Section filter.

Lemma row_matches_items t t' term item :
  items t' = items t -> row_matches t' term item = row_matches t term item.
Proof. intros H. unfold row_matches, tree_values. now rewrite H. Qed.

Lemma tree_values_items t t' item :
  items t' = items t -> tree_values t' item = tree_values t item.
Proof. intros H. unfold tree_values. now rewrite H. Qed.

(** One round of the filter loop on a row that holds values. *)
Lemma filter_loop_cons term visible t x rest v vals :
  tree_values t x = Some (v :: vals) ->
  filter_loop term visible t (x :: rest)
  = filter_loop term visible
      (if row_matches t term x
       then if bool_decide (x ∈ visible) then t else tree_reattach t x
       else if bool_decide (x ∈ visible) then tree_detach t x else t)
      rest.
Proof.
  intros E. cbn [filter_loop]. unfold row_matches. rewrite E. reflexivity.
Qed.

Lemma filter_round_children term (visible : list iid) t x z :
  z ∈ children (if row_matches t term x
                then if bool_decide (x ∈ visible) then t else tree_reattach t x
                else if bool_decide (x ∈ visible) then tree_detach t x else t)
  <-> if decide (z = x)
      then if row_matches t term x
           then x ∉ visible ∨ x ∈ children t
           else (x ∉ visible) ∧ x ∈ children t
      else z ∈ children t.
Proof.
  destruct (row_matches t term x); case_bool_decide as Hv;
    unfold tree_reattach, tree_detach; cbn [children];
    rewrite ?elem_of_app, ?list_elem_of_filter, ?list_elem_of_singleton;
    destruct (decide (z = x)) as [->|N]; tauto.
Qed.

Lemma filter_round_items term (visible : list iid) t x :
  items (if row_matches t term x
         then if bool_decide (x ∈ visible) then t else tree_reattach t x
         else if bool_decide (x ∈ visible) then tree_detach t x else t)
  = items t.
Proof. now destruct (row_matches t term x), (bool_decide (x ∈ visible)). Qed.

(** The rows displayed when the loop ends. *)
Lemma filter_loop_elem term (visible : list iid) (iids : list iid) :
  ∀ t, (∀ x, x ∈ iids -> ∃ v vals, tree_values t x = Some (v :: vals)) ->
  ∀ y, y ∈ children (filter_loop term visible t iids)
       <-> if bool_decide (y ∈ iids)
           then if row_matches t term y
                then y ∉ visible ∨ y ∈ children t
                else (y ∉ visible) ∧ y ∈ children t
           else y ∈ children t.
Proof.
  induction iids as [|x iids IH]; intros t Hv y.
  - cbn [filter_loop]. rewrite bool_decide_eq_false_2 by apply not_elem_of_nil.
    reflexivity.
  - destruct (Hv x) as (v & vals & E); [now left|].
    rewrite (filter_loop_cons term visible t x iids v vals E).
    rewrite IH.
    2:{ intros x' Hx'. destruct (Hv x') as (v' & vals' & E'); [now right|].
        exists v', vals'. rewrite <- E'. apply tree_values_items.
        apply filter_round_items. }
    rewrite (row_matches_items t _ term y) by apply filter_round_items.
    generalize (filter_round_children term visible t x y).
    destruct (decide (y = x)) as [->|N].
    + rewrite (bool_decide_eq_true_2 (x ∈ x :: iids)) by now left.
      destruct (bool_decide (x ∈ iids)), (bool_decide (x ∈ visible)),
        (row_matches t term x); tauto.
    + assert (bool_decide (y ∈ x :: iids) = bool_decide (y ∈ iids)) as ->.
      { apply bool_decide_ext. rewrite elem_of_cons. tauto. }
      destruct (bool_decide (y ∈ iids)), (row_matches t term y); tauto.
Qed.

(** A second pass of the loop over the rows it left displayed changes
    nothing. *)
Lemma filter_loop_fixed term (visible : list iid) (iids : list iid) t :
  (∀ x, x ∈ iids -> row_matches t term x = bool_decide (x ∈ visible)) ->
  filter_loop term visible t iids = t.
Proof.
  induction iids as [|x iids IH]; intros H; [reflexivity|].
  destruct (tree_values t x) as [[|v vals]|] eqn:E.
  - cbn [filter_loop]. rewrite E. apply IH. intros x' Hx'. apply H. now right.
  - rewrite (filter_loop_cons term visible t x iids v vals E).
    rewrite (H x) by now left.
    assert ((if bool_decide (x ∈ visible)
             then if bool_decide (x ∈ visible) then t else tree_reattach t x
             else if bool_decide (x ∈ visible) then tree_detach t x else t) = t)
      as -> by now destruct (bool_decide (x ∈ visible)).
    apply IH. intros x' Hx'. apply H. now right.
  - cbn [filter_loop]. now rewrite E.
Qed.

Lemma type_search_tree g c term :
  tree (type_search g c term) c
  = filter_loop (lower term) (children (tree g c)) (tree g c) (all_iids g c).
Proof. now destruct c. Qed.

Lemma type_search_tree_other g c term c' :
  c' ≠ c -> tree (type_search g c term) c' = tree g c'.
Proof. now destruct c, c'. Qed.

Lemma type_search_all_iids g c term c' :
  all_iids (type_search g c term) c' = all_iids g c'.
Proof. now destruct c, c'. Qed.

Lemma type_search_children g c term :
  rows_listed g c ->
  ∀ y, y ∈ children (tree (type_search g c term) c)
       <-> y ∈ all_iids g c ∧ row_matches (tree g c) (lower term) y = true.
Proof.
  intros [Hv Hc] y. rewrite type_search_tree.
  rewrite (filter_loop_elem _ _ _ _ Hv).
  case_bool_decide as Hy.
  - destruct (row_matches (tree g c) (lower term) y).
    + split; [now intros _|]. intros _.
      destruct (decide (y ∈ children (tree g c))); tauto.
    + split; [tauto|]. intros [_ ?]. discriminate.
  - split; [|tauto]. intros H. exfalso. apply Hy. now apply Hc.
Qed.

Lemma str_in_empty s : str_in "" s = true.
Proof. now destruct s. Qed.

Lemma row_matches_empty t item v vals :
  tree_values t item = Some (v :: vals) -> row_matches t "" item = true.
Proof. intros E. unfold row_matches. rewrite E. now rewrite str_in_empty. Qed.

Lemma same_rows_refl g : same_rows g g.
Proof. intros c. repeat split. Qed.

Lemma same_rows_trans g1 g2 g3 :
  same_rows g1 g2 -> same_rows g2 g3 -> same_rows g1 g3.
Proof.
  intros H1 H2 c. destruct (H1 c) as (A1 & A2 & A3), (H2 c) as (B1 & B2 & B3).
  repeat split; [congruence|congruence|]. intros item. now rewrite B3.
Qed.

Lemma same_rows_listed g g' c : same_rows g g' -> rows_listed g c -> rows_listed g' c.
Proof.
  intros H [Hv Hc]. destruct (H c) as (A1 & A2 & A3). split.
  - intros item. rewrite A1, A3. apply Hv.
  - intros item. rewrite A1, A2. apply Hc.
Qed.

Lemma same_rows_set_text g c0 d item b :
  same_rows g (set_tree (set_selections g c0 d) c0 (tree_set_text (tree g c0) item b)).
Proof.
  intros c. split; [now destruct c0, c|].
  rewrite tree_set_tree. case_decide as E.
  - subst c. split; [reflexivity|]. intros x. apply tree_values_set_text.
  - rewrite tree_set_selections. now split.
Qed.

Lemma same_rows_fold (F : ScannerGUI -> iid -> ScannerGUI) :
  (∀ g x, same_rows g (F g x)) ->
  ∀ ch g, same_rows g (fold_left F ch g).
Proof.
  intros HF. induction ch as [|x ch IH]; intros g; [apply same_rows_refl|].
  cbn [fold_left]. eapply same_rows_trans; [apply HF|apply IH].
Qed.

Lemma same_rows_step g (o : op) :
  is_search o = false -> same_rows g (step g o).
Proof.
  destruct o as [c y|c|c| |c term]; cbn [is_search step]; intros Hs.
  - unfold toggle_selection.
    destruct (identify_row _ _); [|apply same_rows_refl].
    destruct (od_get _ _); [|apply same_rows_refl].
    apply same_rows_set_text.
  - unfold select_all. destruct (children (tree g c)) eqn:E;
      [apply same_rows_refl|].
    apply same_rows_fold. intros g0 x. apply same_rows_set_text.
  - unfold deselect_all. destruct (children (tree g c)) eqn:E;
      [apply same_rows_refl|].
    apply same_rows_fold. intros g0 x. apply same_rows_set_text.
  - unfold select_winget. apply same_rows_fold. intros g0 x.
    apply (same_rows_set_text g0 software).
  - discriminate Hs.
Qed.

Lemma step_listed g (o : op) :
  (∀ c, rows_listed g c) -> ∀ c, rows_listed (step g o) c.
Proof.
  intros H c. destruct (is_search o) eqn:Es.
  - destruct o as [| | | |c0 term]; try discriminate. cbn [step].
    destruct (decide (c = c0)) as [->|N].
    + split.
      * intros item. rewrite type_search_all_iids, type_search_tree.
        intros Hi. destruct (proj1 (H c0) item Hi) as (v & vals & E).
        exists v, vals. rewrite <- E. apply tree_values_items, filter_loop_items.
      * intros item Hi. rewrite type_search_all_iids.
        now apply (type_search_children g c0 term (H c0)) in Hi as [Hi _].
    + destruct (H c) as [Hv Hc]. split.
      * intros item. rewrite type_search_all_iids, type_search_tree_other by exact N.
        apply Hv.
      * intros item. rewrite type_search_all_iids, type_search_tree_other by exact N.
        apply Hc.
  - apply (same_rows_listed g); [now apply same_rows_step|apply H].
Qed.

Lemma od_get_app {K V} `{EqDecision K} (l1 l2 : list (K * V)) k :
  od_get (l1 ++ l2) k
  = match od_get l1 k with Some v => Some v | None => od_get l2 k end.
Proof.
  induction l1 as [|[k' v'] l1 IH]; [reflexivity|].
  cbn [app od_get]. case_decide; [reflexivity|exact IH].
Qed.

Lemma all_iids_set_all_iids g c l c' :
  all_iids (set_all_iids g c l) c' = if decide (c = c') then l else all_iids g c'.
Proof. now destruct c, c'. Qed.

Lemma all_iids_set_selections g c d c' :
  all_iids (set_selections g c d) c' = all_iids g c'.
Proof. now destruct c, c'. Qed.

Lemma all_iids_set_tree g c t c' :
  all_iids (set_tree g c t) c' = all_iids g c'.
Proof. now destruct c, c'. Qed.

Lemma populate_rows_listed c (mk : nat -> iid) (b : bool)
  (rows : list (list string)) :
  Forall (fun r => r ≠ []) rows ->
  ∀ i g, (∀ c', rows_listed g c') ->
         ∀ c', rows_listed (state_of (populate_rows c mk b rows i g)) c'.
Proof.
  induction 1 as [|vals rows Hne _ IH]; intros i g Hg; cbn [populate_rows];
    [exact Hg|].
  unfold tree_insert. destruct (od_mem (items (tree g c)) (mk i)) eqn:Hm;
    [exact Hg|].
  apply IH. intros c'.
  destruct (decide (c' = c)) as [->|N].
  - destruct (Hg c) as [Hv Hc]. split.
    + intros item. rewrite all_iids_set_all_iids, decide_True by reflexivity.
      rewrite all_iids_set_selections, all_iids_set_tree.
      rewrite tree_set_all_iids, tree_set_selections, tree_set_tree,
        decide_True by reflexivity.
      unfold tree_values. cbn [items]. rewrite od_get_app.
      intros Hi. apply elem_of_app in Hi as [Hi|Hi].
      * destruct (Hv item Hi) as (v & rest & E). unfold tree_values in E.
        destruct (od_get (items (tree g c)) item); [|discriminate].
        eauto.
      * apply list_elem_of_singleton in Hi. subst item.
        assert (od_get (items (tree g c)) (mk i) = None) as ->.
        { destruct (od_get (items (tree g c)) (mk i)) eqn:G; [|reflexivity].
          assert (od_mem (items (tree g c)) (mk i) = true)
            by (apply od_mem_true, od_get_is_Some; eauto).
          congruence. }
        cbn [od_get]. rewrite decide_True by reflexivity.
        cbn [fmap option_fmap option_map values].
        destruct vals as [|v rest]; [congruence|]. eauto.
    + intros item. rewrite all_iids_set_all_iids, decide_True by reflexivity.
      rewrite all_iids_set_selections, all_iids_set_tree.
      rewrite tree_set_all_iids, tree_set_selections, tree_set_tree,
        decide_True by reflexivity.
      cbn [children]. rewrite !elem_of_app. intros [Hi|Hi]; [|now right].
      left. now apply Hc.
  - destruct (Hg c') as [Hv Hc]. split.
    + intros item. rewrite all_iids_set_all_iids, decide_False by congruence.
      rewrite all_iids_set_selections, all_iids_set_tree.
      rewrite tree_set_all_iids, tree_set_selections, tree_set_tree,
        decide_False by congruence.
      apply Hv.
    + intros item. rewrite all_iids_set_all_iids, decide_False by congruence.
      rewrite all_iids_set_selections, all_iids_set_tree.
      rewrite tree_set_all_iids, tree_set_selections, tree_set_tree,
        decide_False by congruence.
      apply Hc.
Qed.

Lemma rows_not_empty {A} (f : A -> list string) (l : list A) :
  (∀ x, f x ≠ []) -> Forall (fun r => r ≠ []) (map f l).
Proof.
  intros H. apply Forall_forall. intros r Hr.
  apply list_elem_of_fmap in Hr as [x [-> _]]. apply H.
Qed.

Lemma populate_ui_listed g :
  (∀ c, rows_listed g c) -> ∀ c, rows_listed (state_of (populate_ui g)) c.
Proof.
  intros Hg. unfold populate_ui. case_if; [exact Hg|].
  destruct (scan_data g) as [d|]; [|exact Hg].
  set (g3 := set_all_iids _ store_apps []).
  assert (∀ c, rows_listed g3 c) as H3.
  { intros c. split.
    - intros item Hi. destruct c; inversion Hi.
    - intros item Hi. exfalso.
      assert (children (tree g3 c) = []) as Hnil
        by (destruct c; apply tree_clear_children).
      rewrite Hnil in Hi. inversion Hi. }
  clearbody g3. rewrite state_of_and_then.
  set (o1 := match sd_mappings d with Some _ => _ | None => _ end).
  assert (∀ c, rows_listed (state_of o1) c) as H4.
  { unfold o1. destruct (sd_mappings d).
    - apply populate_rows_listed; [|exact H3].
      apply rows_not_empty. discriminate.
    - destruct (sd_software d); [|exact H3].
      apply populate_rows_listed; [|exact H3].
      apply rows_not_empty. discriminate. }
  destruct o1 as [g4|g4]; [|exact H4]. cbn [state_of] in H4.
  rewrite state_of_and_then.
  set (o2 := match sd_software d with Some _ => _ | None => _ end).
  assert (∀ c, rows_listed (state_of o2) c) as H5.
  { unfold o2. destruct (sd_software d); [|exact H4].
    apply populate_rows_listed; [|exact H4].
    apply rows_not_empty. discriminate. }
  destruct o2 as [g5|g5]; [|exact H5]. cbn [state_of] in H5 |- *.
  intros c. unfold populate_licenses.
  destruct (sd_licenses d); [|apply H5].
  case_if; [|apply H5].
  destruct (H5 c) as [Hv Hc]. split; intros item; destruct c; first [apply Hv|apply Hc].
Qed.

Lemma reachable_listed g : reachable g -> ∀ c, rows_listed g c.
Proof.
  induction 1 as [|g o _ IH|g path d _ IH].
  - intros c. split; intros item Hi; destruct c; inversion Hi.
  - now apply step_listed.
  - unfold load_scan. apply populate_ui_listed.
    intros c. destruct (IH c) as [Hv Hc]. split; intros item; destruct c;
      first [apply Hv|apply Hc].
Qed.

End filter.

(** X12. In every state the application can be in, typing in a search box
    leaves displayed exactly the rows of the loaded scan whose name or
    publisher contains the lowered search text. *)
Theorem X12_search_displays_matching_rows
  (g : ScannerGUI) (c : category) (term : string) (item : iid) :
  reachable g ->
  item ∈ children (tree (type_search g c term) c)
  <-> item ∈ all_iids g c ∧ row_matches (tree g c) (lower term) item = true.
Proof. intros Hr. apply type_search_children. now apply reachable_listed. Qed.

Lemma X12_search_displays_matching_rows_witness :
  sw_ 0 ∈ children (tree (type_search sample_gui software "TOOL") software)
  ∧ (sw_ 2 ∉ children (tree (type_search sample_gui software "TOOL") software)).
Proof.
  assert (reachable sample_gui) as Hr
    by exact (reach_load init "D:/scan" sample_scan reach_init).
  split.
  - apply (X12_search_displays_matching_rows sample_gui software "TOOL" (sw_ 0) Hr).
    split; [apply (bool_decide_unpack _); vm_compute; exact I|].
    vm_compute. reflexivity.
  - intros H.
    apply (X12_search_displays_matching_rows sample_gui software "TOOL" (sw_ 2) Hr)
      in H as [_ H].
    vm_compute in H. discriminate.
Defined.

(** X13. In every state the application can be in, emptying a search box
    brings every row of the loaded scan back on display. *)
Theorem X13_empty_search_displays_every_row
  (g : ScannerGUI) (c : category) (item : iid) :
  reachable g ->
  item ∈ children (tree (type_search g c "") c) <-> item ∈ all_iids g c.
Proof.
  intros Hr. pose proof (reachable_listed g Hr c) as Hl.
  rewrite (type_search_children g c "" Hl). split; [now intros [? _]|].
  intros Hi. split; [exact Hi|].
  destruct (proj1 Hl item Hi) as (v & vals & E).
  now apply (row_matches_empty _ _ v vals).
Qed.

Lemma X13_empty_search_displays_every_row_witness :
  let g := type_search sample_gui software "editor" in
  (sw_ 0 ∉ children (tree g software))
  ∧ sw_ 0 ∈ children (tree (type_search g software "") software).
Proof.
  intros g. split; [apply (bool_decide_unpack _); vm_compute; exact I|].
  apply (X13_empty_search_displays_every_row g software (sw_ 0)).
  - apply (reach_step _ (TypeSearch software "editor")).
    exact (reach_load init "D:/scan" sample_scan reach_init).
  - apply (bool_decide_unpack _). vm_compute. exact I.
Defined.

(** X14. In every state the application can be in, running the search
    filter again with the same text changes nothing. *)
Theorem X14_search_twice_same_as_once
  (g : ScannerGUI) (c : category) (term : string) :
  reachable g ->
  type_search (type_search g c term) c term = type_search g c term.
Proof.
  intros Hr. pose proof (reachable_listed g Hr c) as Hl.
  assert (filter_loop (lower term)
            (children (tree (type_search g c term) c))
            (tree (type_search g c term) c) (all_iids g c)
          = tree (type_search g c term) c) as Hfix.
  { apply filter_loop_fixed. intros x Hx.
    rewrite (row_matches_items (tree g c))
      by (rewrite type_search_tree; apply filter_loop_items).
    destruct (row_matches (tree g c) (lower term) x) eqn:Em; symmetry.
    - apply bool_decide_eq_true_2. now apply type_search_children.
    - apply bool_decide_eq_false_2. intros H.
      apply (type_search_children g c term Hl) in H as [_ H]. congruence. }
  destruct c.
  - unfold type_search at 1. unfold filter_tree.
    cbn [search set_search software_search tree software_tree all_iids all_sw_iids
         type_search filter_tree set_tree] in Hfix |- *.
    rewrite Hfix. reflexivity.
  - unfold type_search at 1. unfold filter_tree.
    cbn [search set_search store_apps_search tree store_apps_tree all_iids
         all_store_iids type_search filter_tree set_tree] in Hfix |- *.
    rewrite Hfix. reflexivity.
Qed.

Lemma X14_search_twice_same_as_once_witness :
  type_search (type_search sample_gui software "tool") software "tool"
  = type_search sample_gui software "tool".
Proof.
  apply (X14_search_twice_same_as_once sample_gui software "tool").
  exact (reach_load init "D:/scan" sample_scan reach_init).
Defined.

Section load_rows.






End load_rows.



(** ** The restore program *)

Section urls.

Lemma findall_from_elem (m : string -> option (string * nat)) (u : string) :
  ∀ s skip, u ∈ findall_from m skip s -> ∃ s' len, m s' = Some (u, len).
Proof.
  induction s as [|c r IH]; intros skip H; cbn [findall_from] in H.
  - inversion H.
  - destruct skip as [|k]; [|now apply IH in H].
    destruct (m (String c r)) as [[g len]|] eqn:E; [|now apply IH in H].
    apply elem_of_cons in H as [->|H]; [eauto|now apply IH in H].
Qed.

Lemma span_chars (p : ascii -> bool) (s a b : string) :
  span p s = (a, b) ->
  ∀ c, c ∈ list_ascii_of_string a -> p c = true.
Proof.
  revert a b. induction s as [|x s IH]; intros a b H c Hc; cbn [span] in H.
  - injection H as <- <-. inversion Hc.
  - destruct (p x) eqn:Ex.
    + destruct (span p s) as [a' b'] eqn:Es. injection H as <- <-.
      cbn [list_ascii_of_string] in Hc. apply elem_of_cons in Hc as [->|Hc];
        [exact Ex|]. now apply (IH a' b').
    + injection H as <- <-. inversion Hc.
Qed.

Lemma scheme_in (s sch r : string) : scheme s = Some (sch, r) -> sch ∈ schemes.
Proof.
  unfold scheme, scheme_http, scheme_winget, schemes.
  destruct (strip_prefix "https://" s); [intros [= <- <-]; now left|].
  destruct (strip_prefix "http://" s); [intros [= <- <-]; right; now left|].
  destruct (strip_prefix "winget://" s); [|discriminate].
  intros [= <- <-]. right; right; now left.
Qed.

Lemma raw_char_link_char c : raw_char c = true -> link_char c = true.
Proof.
  unfold raw_char, link_char. destruct (isspace c), (is_char 41 c); cbn; auto.
Qed.

Lemma match_link_shape s u len :
  match_link s = Some (u, len) ->
  ∃ sch rest, u = sch +:+ rest ∧ sch ∈ schemes ∧ rest ≠ ""
              ∧ ∀ c, c ∈ list_ascii_of_string rest -> link_char c = true.
Proof.
  unfold match_link. destruct (strip_prefix "](" s) as [s1|]; [|discriminate].
  destruct (scheme s1) as [[sch r]|] eqn:Es; [|discriminate].
  destruct (span link_char r) as [[|c run] [|d rest]] eqn:Ep; try discriminate.
  destruct (is_char 41 d); [|discriminate]. intros [= <- _].
  exists sch, (String c run). split; [reflexivity|].
  split; [now apply (scheme_in s1 sch r)|]. split; [discriminate|].
  now apply (span_chars link_char r _ _ Ep).
Qed.

Lemma match_raw_shape s u len :
  match_raw s = Some (u, len) ->
  ∃ sch rest, u = sch +:+ rest ∧ sch ∈ schemes ∧ rest ≠ ""
              ∧ ∀ c, c ∈ list_ascii_of_string rest -> link_char c = true.
Proof.
  unfold match_raw.
  destruct (scheme s) as [[sch r]|] eqn:Es; [|discriminate].
  destruct (span raw_char r) as [[|c run] b] eqn:Ep; try discriminate.
  intros [= <- _].
  exists sch, (String c run). split; [reflexivity|].
  split; [now apply (scheme_in s sch r)|]. split; [discriminate|].
  intros x Hx. apply raw_char_link_char. now apply (span_chars raw_char r _ _ Ep).
Qed.

Lemma extracted_shape content u :
  u ∈ extracted content ->
  ∃ sch rest, u = sch +:+ rest ∧ sch ∈ schemes ∧ rest ≠ ""
              ∧ ∀ c, c ∈ list_ascii_of_string rest -> link_char c = true.
Proof.
  unfold extracted, findall. intros H. apply elem_of_app in H as [H|H];
    apply findall_from_elem in H as (s' & len & H).
  - now apply match_link_shape in H.
  - now apply match_raw_shape in H.
Qed.

(** The rows of the download tree come from the report. *)
Lemma download_tree_extracted file results v u :
  update_installer_results file results v ->
  u ∈ download_selection_tree v ->
  search_fallback u = false ∧ placeholder u = false
  ∧ ∃ content, file = Report content ∧ u ∈ extracted content.
Proof.
  intros Hv Hu. destruct file as [| |content]; cbn in Hv.
  - subst v. inversion Hu.
  - subst v. inversion Hu.
  - destruct Hv as (all_found & [_ Hset] & ->).
    unfold results_view in Hu. rewrite view_tree in Hu.
    apply elem_of_selectable in Hu as [Hu Hs].
    apply elem_of_found_urls in Hu as [Hu Hp].
    repeat split; try assumption. exists content. split; [reflexivity|].
    now apply Hset.
Qed.

End urls.

(** X16. Every URL the handler offers for download was read from the
    report, begins with [https://], [http://] or [winget://] followed by at
    least one character, and holds no white space and no closing
    parenthesis after the scheme; it is neither a search fallback nor an
    empty Winget placeholder. *)
Theorem X16_download_rows_are_urls_of_the_report
  (file : report_file) (results : list string) (v : ResultsView) (u : string) :
  update_installer_results file results v ->
  u ∈ download_selection_tree v ->
  (∃ content, file = Report content ∧ u ∈ extracted content)
  ∧ (∃ sch rest, u = sch +:+ rest ∧ sch ∈ schemes ∧ rest ≠ ""
       ∧ ∀ c, c ∈ list_ascii_of_string rest ->
              isspace c = false ∧ is_char 41 c = false)
  ∧ search_fallback u = false ∧ placeholder u = false.
Proof.
  intros Hv Hu.
  destruct (download_tree_extracted file results v u Hv Hu)
    as (Hs & Hp & content & -> & Hx).
  split; [eauto|]. split; [|now split].
  destruct (extracted_shape content u Hx) as (sch & rest & -> & Hsch & Hne & Hc).
  exists sch, rest. repeat split; try assumption.
  - specialize (Hc c H). unfold link_char in Hc.
    now destruct (isspace c).
  - specialize (Hc c H). unfold link_char in Hc.
    destruct (isspace c), (is_char 41 c); cbn in Hc; congruence.
Qed.

Lemma X16_download_rows_are_urls_of_the_report_witness :
  let v := update_installer_results_run (Report spec_report) [] in
  download_selection_tree v = ["https://x/y.exe"]
  ∧ search_fallback "https://x/y.exe" = false
  ∧ placeholder "https://x/y.exe" = false.
Proof.
  intros v.
  assert (download_selection_tree v = ["https://x/y.exe"]) as Ht
    by (vm_compute; reflexivity).
  split; [exact Ht|].
  destruct (X16_download_rows_are_urls_of_the_report (Report spec_report) [] v
              "https://x/y.exe") as (_ & _ & Hs & Hp).
  - apply update_installer_results_runs.
  - rewrite Ht. now left.
  - split; [exact Hs|exact Hp].
Defined.

(** X17. Whatever order the set of extracted URLs is enumerated in, two
    runs of the handler on the same report show the same info line and the
    same label, and the same download rows up to their order. *)
Theorem X17_results_do_not_depend_on_set_order
  (file : report_file) (results : list string) (v1 v2 : ResultsView) :
  update_installer_results file results v1 ->
  update_installer_results file results v2 ->
  installer_search_info v1 = installer_search_info v2
  ∧ download_info_label v1 = download_info_label v2
  ∧ download_selection_tree v1 ≡ₚ download_selection_tree v2.
Proof.
  intros H1 H2. destruct file as [| |content]; cbn in H1, H2.
  - subst. split; [reflexivity|split; reflexivity].
  - subst. split; [reflexivity|split; reflexivity].
  - destruct H1 as (l1 & [Hn1 Hs1] & ->), H2 as (l2 & [Hn2 Hs2] & ->).
    assert (l1 ≡ₚ l2) as Hp.
    { apply NoDup_Permutation; [assumption..|]. intros x. now rewrite Hs1, Hs2. }
    assert (found_urls_of l1 ≡ₚ found_urls_of l2) as Hf
      by now apply filter_Permutation_bool.
    assert (selectable_urls_of (found_urls_of l1)
            ≡ₚ selectable_urls_of (found_urls_of l2)) as Hsel
      by now apply filter_Permutation_bool.
    unfold results_view. rewrite !view_info, !view_tree.
    split; [now rewrite (Permutation_length Hf)|]. split; [|exact Hsel].
    unfold view.
    destruct (found_urls_of l1) as [|x1 f1] eqn:E1,
             (found_urls_of l2) as [|x2 f2] eqn:E2.
    + reflexivity.
    + apply Permutation_length in Hf. discriminate.
    + apply Permutation_length in Hf. discriminate.
    + destruct (selectable_urls_of (x1 :: f1)) as [|y1 s1] eqn:F1,
               (selectable_urls_of (x2 :: f2)) as [|y2 s2] eqn:F2.
      * reflexivity.
      * apply Permutation_length in Hsel. discriminate.
      * apply Permutation_length in Hsel. discriminate.
      * cbn [download_info_label]. now rewrite (Permutation_length Hsel).
Qed.

Lemma X17_results_do_not_depend_on_set_order_witness :
  let v1 := results_view (Report spec_report) []
              (remove_dups (extracted spec_report)) in
  let v2 := results_view (Report spec_report) []
              (reverse (remove_dups (extracted spec_report))) in
  installer_search_info v1 = installer_search_info v2
  ∧ download_info_label v1 = download_info_label v2
  ∧ download_selection_tree v1 ≡ₚ download_selection_tree v2.
Proof.
  intros v1 v2.
  apply (X17_results_do_not_depend_on_set_order (Report spec_report) []).
  - exists (remove_dups (extracted spec_report)).
    split; [apply list_of_set_remove_dups|reflexivity].
  - exists (reverse (remove_dups (extracted spec_report))). split; [|reflexivity].
    split.
    + rewrite reverse_Permutation. apply NoDup_remove_dups.
    + intros x. rewrite elem_of_reverse. apply elem_of_remove_dups.
Defined.

Section download.

Lemma split_not_nil sep s : split sep s ≠ [].
Proof.
  destruct s as [|c r]; cbn [split]; [discriminate|].
  destruct (Ascii.eqb c sep); [discriminate|].
  now destruct (split sep r).
Qed.

(** No piece of a split holds the separator, and every character of a
    piece is a character of the string. *)
Lemma split_chars sep s x c :
  x ∈ split sep s -> c ∈ list_ascii_of_string x ->
  c ≠ sep ∧ c ∈ list_ascii_of_string s.
Proof.
  revert x. induction s as [|a r IH]; intros x Hx Hc; cbn [split] in Hx.
  - apply list_elem_of_singleton in Hx. subst x. inversion Hc.
  - cbn [list_ascii_of_string]. destruct (Ascii.eqb a sep) eqn:Ea.
    + apply elem_of_cons in Hx as [->|Hx]; [inversion Hc|].
      destruct (IH x Hx Hc) as [H1 H2]. split; [exact H1|now right].
    + apply Ascii.eqb_neq in Ea.
      destruct (split sep r) as [|h t] eqn:Es.
      * apply list_elem_of_singleton in Hx. subst x.
        cbn [list_ascii_of_string] in Hc.
        apply elem_of_cons in Hc as [->|Hc]; [split; [exact Ea|now left]|].
        inversion Hc.
      * apply elem_of_cons in Hx as [->|Hx].
        -- cbn [list_ascii_of_string] in Hc.
           apply elem_of_cons in Hc as [->|Hc]; [split; [exact Ea|now left]|].
           destruct (IH h ltac:(now left) Hc) as [H1 H2].
           split; [exact H1|now right].
        -- destruct (IH x ltac:(now right) Hc) as [H1 H2].
           split; [exact H1|now right].
Qed.

Lemma last_elem {A} (l : list A) (d : A) : l ≠ [] -> List.last l d ∈ l.
Proof.
  induction l as [|x l IH]; [congruence|]. intros _.
  destruct l as [|y l]; [now left|].
  right. apply IH. discriminate.
Qed.

Lemma hd_elem {A} (l : list A) (d : A) : l ≠ [] -> hd d l ∈ l.
Proof. destruct l; [congruence|]. intros _. now left. Qed.

Lemma download_filename_chars url c :
  c ∈ list_ascii_of_string (download_filename url) ->
  c ≠ "/"%char ∧ c ≠ "?"%char.
Proof.
  unfold download_filename.
  destruct (String.eqb (hd "" (split "?" (last_segment url))) "") eqn:E.
  - intros H. apply (bool_decide_unpack _).
    revert H. generalize c. apply Forall_forall.
    apply (bool_decide_unpack _). vm_compute. exact I.
  - intros H.
    destruct (split_chars "?" (last_segment url) _ c
                (hd_elem _ "" (split_not_nil _ _)) H) as [H1 H2].
    split; [|exact H1].
    unfold last_segment in H2.
    now destruct (split_chars "/" url _ c
                    (last_elem _ "" (split_not_nil _ _)) H2).
Qed.

Lemma download_loop_spec net folder n urls :
  ∀ i ev rq,
    download_loop net folder n i urls ev rq
    = (ev ++ concat (imap (fun j url => url_events net folder n (i + j) url) urls),
       rq ++ flat_map url_requests urls).
Proof.
  induction urls as [|url urls IH]; intros i ev rq; cbn [download_loop].
  - cbn. now rewrite !app_nil_r.
  - cbn [imap concat flat_map].
    rewrite (imap_ext _ (fun j url0 => url_events net folder n (S i + j) url0))
      by (intros j x _; cbn; f_equal; lia).
    rewrite Nat.add_0_r. unfold url_events at 1, url_requests at 1.
    destruct (is_winget url).
    + rewrite IH. now rewrite <- !app_assoc.
    + destruct (urlretrieve net url folder (download_filename url));
        rewrite IH; now rewrite <- !app_assoc.
Qed.

Lemma requests_subset net folder rows u f :
  (u, f) ∈ requests (download_selected_urls net folder rows) ->
  u ∈ rows.*2 ∧ is_winget u = false ∧ f = download_filename u.
Proof.
  unfold download_selected_urls.
  destruct (selected_urls rows) as [|x l] eqn:Es; [intros H; inversion H|].
  destruct (_ || _); [intros H; inversion H|].
  cbn [requests]. rewrite download_loop_spec. cbn [snd app]. rewrite <- Es.
  intros H. apply list_elem_of_In, in_flat_map in H as (url & Hurl & H).
  unfold url_requests in H. destruct (is_winget url) eqn:Ew; [inversion H|].
  destruct H as [H|[]]. injection H as <- <-.
  split; [|now split].
  unfold selected_urls in Hurl. apply in_map_iff in Hurl as ([b y] & <- & Hy).
  apply filter_In in Hy as [Hy _]. apply list_elem_of_In in Hy.
  apply list_elem_of_fmap. now exists (b, y).
Qed.

End download.

(** X18. The file a download is saved under never has an empty name and
    its name holds neither a slash nor a question mark. *)
Theorem X18_download_filename_is_a_plain_name (url : string) :
  download_filename url ≠ ""
  ∧ ∀ c, c ∈ list_ascii_of_string (download_filename url) ->
         c ≠ "/"%char ∧ c ≠ "?"%char.
Proof.
  split; [|intros c; apply download_filename_chars].
  unfold download_filename.
  destruct (String.eqb (hd "" (split "?" (last_segment url))) "") eqn:E;
    [discriminate|].
  now apply String.eqb_neq in E.
Qed.

(** X19. A download of at least one ticked URL into an existing folder
    asks the network for every ticked URL that is not a [winget://] URL,
    in the order of the list and once each, whether or not earlier
    requests failed; the closing dialog counts every ticked URL, the
    skipped and the failed ones included. *)
Theorem X19_download_requests_every_ticked_url
  (net : Net) (folder : string) (rows : list (bool * string)) :
  selected_urls rows ≠ [] ->
  folder ≠ "" ->
  folder_exists net folder = true ->
  let run := download_selected_urls net folder rows in
  dialog run = Complete (length (selected_urls rows)) folder
  ∧ requests run = flat_map url_requests (selected_urls rows)
  ∧ events run
    = concat (imap (fun j url =>
                      url_events net folder (length (selected_urls rows)) j url)
                   (selected_urls rows)).
Proof.
  intros Hsel Hne Hex. cbv zeta. unfold download_selected_urls.
  destruct (selected_urls rows) as [|x l] eqn:Es; [congruence|].
  apply String.eqb_neq in Hne. rewrite Hne, Hex. cbn [orb negb].
  cbn [dialog requests events]. rewrite download_loop_spec. cbn [fst snd app].
  repeat split.
Qed.

Lemma X19_download_requests_every_ticked_url_witness :
  let rows := [ (true, "https://x/y.exe?v=1"); (false, "https://x/z.exe");
                (true, "winget://install/vendor.tool"); (true, "https://x/") ] in
  let run := download_selected_urls offline "D:/dl" rows in
  dialog run = Complete 3 "D:/dl"
  ∧ requests run = [ ("https://x/y.exe?v=1", "y.exe"); ("https://x/", "installer.exe") ].
Proof.
  intros rows run.
  destruct (X19_download_requests_every_ticked_url offline "D:/dl" rows)
    as (Hd & Hr & _).
  - vm_compute. discriminate.
  - discriminate.
  - reflexivity.
  - unfold run. split; [rewrite Hd; vm_compute; reflexivity|].
    rewrite Hr. vm_compute. reflexivity.
Defined.

(** X20. Whatever boxes are ticked in the list the handler filled, a
    download never asks the network for a search fallback, for an empty
    Winget placeholder or for a [winget://] URL: every request is for a URL
    of the list, saved under the name derived from it. *)
Theorem X20_download_never_requests_fallback_or_winget
  (file : report_file) (results : list string) (v : ResultsView)
  (net : Net) (folder : string) (rows : list (bool * string)) (u f : string) :
  update_installer_results file results v ->
  rows.*2 = download_selection_tree v ->
  (u, f) ∈ requests (download_selected_urls net folder rows) ->
  u ∈ download_selection_tree v
  ∧ search_fallback u = false ∧ placeholder u = false ∧ is_winget u = false
  ∧ f = download_filename u.
Proof.
  intros Hv Hrows Hreq.
  destruct (requests_subset net folder rows u f Hreq) as (Hu & Hw & Hf).
  rewrite Hrows in Hu.
  destruct (download_tree_extracted file results v u Hv Hu) as (Hs & Hp & _).
  repeat split; assumption.
Qed.

Lemma X20_download_never_requests_fallback_or_winget_witness :
  let v := update_installer_results_run (Report spec_report) [] in
  let rows := select_all_downloads (download_rows v) in
  requests (download_selected_urls offline "D:/dl" rows)
    = [("https://x/y.exe", "y.exe")]
  ∧ search_fallback "https://x/y.exe" = false.
Proof.
  intros v rows.
  assert (requests (download_selected_urls offline "D:/dl" rows)
          = [("https://x/y.exe", "y.exe")]) as Hr by (vm_compute; reflexivity).
  split; [exact Hr|].
  destruct (X20_download_never_requests_fallback_or_winget
              (Report spec_report) [] v offline "D:/dl" rows
              "https://x/y.exe" "y.exe") as (_ & Hs & _).
  - apply update_installer_results_runs.
  - vm_compute. reflexivity.
  - rewrite Hr. now left.
  - exact Hs.
Defined.

Section ticks.
Implicit Types (rows : list (bool * string)) (y : nat).

Lemma toggle_download_selection_urls rows y :
  (toggle_download_selection rows y).*2 = rows.*2.
Proof.
  unfold toggle_download_selection.
  destruct (rows !! y) as [[b u]|] eqn:E; [|reflexivity].
  rewrite list_fmap_insert. cbn [snd].
  apply list_insert_id. now rewrite list_lookup_fmap, E.
Qed.

Lemma toggle_download_selection_other rows y i :
  i ≠ y -> toggle_download_selection rows y !! i = rows !! i.
Proof.
  intros N. unfold toggle_download_selection.
  destruct (rows !! y) as [[b u]|]; [|reflexivity].
  now apply list_lookup_insert_ne.
Qed.

Lemma toggle_download_selection_row rows y (b : bool) (u : string) :
  rows !! y = Some (b, u) ->
  toggle_download_selection rows y !! y = Some (negb b, u).
Proof.
  intros E. unfold toggle_download_selection. rewrite E.
  rewrite list_lookup_insert_eq by now apply lookup_lt_Some in E.
  now destruct b.
Qed.

Lemma toggle_download_selection_twice rows y :
  toggle_download_selection (toggle_download_selection rows y) y = rows.
Proof.
  unfold toggle_download_selection.
  destruct (rows !! y) as [[b u]|] eqn:E; [|now rewrite E].
  rewrite list_lookup_insert_eq by now apply lookup_lt_Some in E.
  rewrite list_insert_insert_eq.
  apply list_insert_id. rewrite E. now destruct b.
Qed.

(** Select All ([b] is [true]) and Deselect All ([b] is [false]): every
    tick is [b] and the URLs are the list's, in order. *)
Lemma set_all_downloads (b : bool) rows :
  (map (fun r : bool * string => (b, r.2)) rows).*1 = replicate (length rows) b
  ∧ (map (fun r : bool * string => (b, r.2)) rows).*2 = rows.*2.
Proof.
  induction rows as [|[b0 u] rows [IH1 IH2]]; [now split|].
  cbn [map fmap list_fmap fst snd length replicate]. split; f_equal; assumption.
Qed.
End ticks.

(** X21. The tick handlers of the download list change ticks only: after
    each of the three the list has the same URLs in the same order. A
    click changes the tick of the row clicked, and of no other row; a
    click below the last row changes nothing; clicking a row twice
    restores the list. Select All ticks every row and Deselect All unticks
    every row: after Select All every URL of the list is selected, and
    after Deselect All a download shows the nothing-selected dialog and
    asks the network for nothing. *)
Theorem X21_download_ticks (net : Net) (folder : string)
  (rows : list (bool * string)) (y : nat) :
  (toggle_download_selection rows y).*2 = rows.*2
  ∧ (select_all_downloads rows).*2 = rows.*2
  ∧ (deselect_all_downloads rows).*2 = rows.*2
  ∧ (∀ i, i ≠ y -> toggle_download_selection rows y !! i = rows !! i)
  ∧ (∀ b u, rows !! y = Some (b, u) ->
       toggle_download_selection rows y !! y = Some (negb b, u))
  ∧ (length rows <= y -> toggle_download_selection rows y = rows)
  ∧ toggle_download_selection (toggle_download_selection rows y) y = rows
  ∧ (select_all_downloads rows).*1 = replicate (length rows) true
  ∧ (deselect_all_downloads rows).*1 = replicate (length rows) false
  ∧ selected_urls (select_all_downloads rows) = rows.*2
  ∧ download_selected_urls net folder (deselect_all_downloads rows)
    = {| dialog := NoUrlsSelected; events := []; requests := [] |}.
Proof.
  split; [apply toggle_download_selection_urls|].
  split; [apply (set_all_downloads true)|].
  split; [apply (set_all_downloads false)|].
  split; [intros i; apply toggle_download_selection_other|].
  split; [intros b u; apply toggle_download_selection_row|].
  split.
  { intros Hy. unfold toggle_download_selection.
    now rewrite (lookup_ge_None_2 rows y Hy). }
  split; [apply toggle_download_selection_twice|].
  split; [apply (set_all_downloads true)|].
  split; [apply (set_all_downloads false)|].
  split.
  - unfold selected_urls, select_all_downloads.
    induction rows as [|[b u] rows IH]; [reflexivity|].
    cbn [map List.filter fst snd fmap list_fmap]. f_equal. exact IH.
  - unfold download_selected_urls.
    assert (selected_urls (deselect_all_downloads rows) = []) as ->; [|reflexivity].
    unfold selected_urls, deselect_all_downloads.
    induction rows as [|[b u] rows IH]; [reflexivity|].
    cbn [map List.filter fst snd]. exact IH.
Qed.

(** On a list of two URLs of which the second is ticked: a click on the
    first row ticks it and leaves the second row as it was, and a click on
    the third row's place changes nothing. *)
Lemma X21_download_ticks_witness :
  let rows := [(false, "https://x/y.exe"); (true, "https://x/z.exe")] in
  toggle_download_selection rows 0 !! 0 = Some (true, "https://x/y.exe")
  ∧ toggle_download_selection rows 0 !! 1 = rows !! 1
  ∧ toggle_download_selection rows 2 = rows.
Proof.
  intros rows.
  destruct (X21_download_ticks offline "D:/dl" rows 0)
    as (_ & _ & _ & Hother & Hrow & _).
  destruct (X21_download_ticks offline "D:/dl" rows 2)
    as (_ & _ & _ & _ & _ & Hbelow & _).
  split; [|split].
  - apply (Hrow false "https://x/y.exe"). reflexivity.
  - apply Hother. lia.
  - apply Hbelow. simpl. lia.
Defined.

Section installs.
Implicit Types (w : World) (g : RestoreGUI).

Lemma backend_phase_cannot_start w script banner g text e :
  package_dir w !! script = Some text ->
  powershell w script = CannotStart e ->
  backend_phase w script banner g = (inl e, logged g [LF +:+ banner]).
Proof.
  intros Hd Hp. unfold backend_phase. rewrite Hd.
  unfold bind, log, popen. cbn. now rewrite Hp.
Qed.

(** The first phase cannot start its process: nothing after its banner
    runs. *)
Lemma phases_abort_first w g (l1 l2 l3 b1 : string) (k : M unit) text e :
  package_dir w !! winget_script = Some text ->
  powershell w winget_script = CannotStart e ->
  bind (log l1) (fun _ =>
  bind (log l2) (fun _ =>
  bind (log l3) (fun _ =>
  bind (backend_phase w winget_script b1) (fun _ => k)))) g
  = (inl e, logged g [l1; l2; l3; LF +:+ b1]).
Proof.
  intros Hd Hp.
  rewrite (bind_run _ _ _ tt _ (log_run l1 g)).
  rewrite (bind_run _ _ _ tt _ (log_run l2 _)).
  rewrite (bind_run _ _ _ tt _ (log_run l3 _)).
  rewrite (bind_raise _ _ _ e _
             (backend_phase_cannot_start w winget_script b1 _ text e Hd Hp)).
  now rewrite !logged_logged.
Qed.

(** The first phase runs or is skipped and the second cannot start its
    process. *)
Lemma phases_abort_second w g (l1 l2 l3 b1 b2 : string) (k : M unit) text e :
  (is_Some (package_dir w !! winget_script) ->
   ∃ out rc, powershell w winget_script = Exits out rc) ->
  package_dir w !! choco_script = Some text ->
  powershell w choco_script = CannotStart e ->
  bind (log l1) (fun _ =>
  bind (log l2) (fun _ =>
  bind (log l3) (fun _ =>
  bind (backend_phase w winget_script b1) (fun _ =>
  bind (backend_phase w choco_script b2) (fun _ => k))))) g
  = (inl e,
     {| package_path := package_path g;
        restore_options := restore_options g;
        log_text := log_text g ++ [l1; l2; l3]
                    ++ backend_log w winget_script b1 ++ [LF +:+ b2];
        progress_label := progress_label g;
        started := started g ++ phase_started w winget_script |}).
Proof.
  intros Hw Hd Hp.
  rewrite (bind_run _ _ _ tt _ (log_run l1 g)).
  rewrite (bind_run _ _ _ tt _ (log_run l2 _)).
  rewrite (bind_run _ _ _ tt _ (log_run l3 _)).
  rewrite (bind_run _ _ _ tt _ (backend_phase_spec w winget_script b1 _ Hw)).
  rewrite (bind_raise _ _ _ e _
             (backend_phase_cannot_start w choco_script b2 _ text e Hd Hp)).
  unfold logged. cbn. f_equal. f_equal.
  now rewrite <- !app_assoc.
Qed.

Lemma install_winget_thread_spec w g :
  install_winget_thread w g
  = (inr tt,
     match package_dir w !! winget_script, powershell w winget_script with
     | None, _ => logged g ["Winget install script not found"]
     | Some _, Exits out rc =>
         {| package_path := package_path g;
            restore_options := restore_options g;
            log_text := log_text g ++ "Starting Winget installation..."
                        :: map strip out ++ ["Winget installation complete!"];
            progress_label := "Winget installation complete";
            started := started g ++ [winget_script] |}
     | Some _, Undecodable out err =>
         {| package_path := package_path g;
            restore_options := restore_options g;
            log_text := log_text g ++ "Starting Winget installation..."
                        :: map strip out;
            progress_label := "Installing via Winget...";
            started := started g ++ [winget_script] |}
     | Some _, CannotStart e =>
         {| package_path := package_path g;
            restore_options := restore_options g;
            log_text := log_text g ++ ["Starting Winget installation..."];
            progress_label := "Installing via Winget...";
            started := started g |}
     end).
Proof.
  unfold install_winget_thread.
  destruct (package_dir w !! winget_script); [|reflexivity].
  unfold bind, try_except, report_error, log, set_progress_label, popen. cbn.
  destruct (powershell w winget_script) as [out rc|out err|e]; cbn.
  - rewrite stream_run. unfold logged. cbn. now rewrite <- !app_assoc.
  - unfold bind. rewrite stream_run. unfold raise, ret, logged. cbn.
    now rewrite <- !app_assoc.
  - reflexivity.
Qed.


End installs.

(** X22. A full restore has no handler around the start of a backend
    process: when an install script that is present cannot be started, the
    error leaves the worker, the log ends with that phase's banner, and
    the configuration phase is never reached (no process is started for
    it, and the progress label is left as it was). *)
Theorem X22_full_restore_stops_when_backend_cannot_start
  (w : World) (g : RestoreGUI) (path script : string) (e : string) :
  package_path g = Some path ->
  script ∈ [winget_script; choco_script] ->
  is_Some (package_dir w !! script) ->
  powershell w script = CannotStart e ->
  (script = choco_script ->
   is_Some (package_dir w !! winget_script) ->
   ∃ out rc, powershell w winget_script = Exits out rc) ->
  full_restore w true g
  = (inl e,
     {| package_path := package_path g;
        restore_options := restore_options g;
        log_text :=
          log_text g ++ [rule; "PHASE 1: Installing Software"; rule]
          ++ (if bool_decide (script = winget_script) then []
              else backend_log w winget_script "Installing via Winget...")
          ++ [LF +:+ (if bool_decide (script = winget_script)
                      then "Installing via Winget..."
                      else "Installing via Chocolatey...")];
        progress_label := progress_label g;
        started :=
          started g ++ (if bool_decide (script = winget_script) then []
                        else phase_started w winget_script) |}).
Proof.
  intros Hpath Hs [text Hd] Hp Hw.
  assert (full_restore w true g = full w g) as ->
    by (unfold full_restore; now rewrite Hpath).
  unfold full.
  apply elem_of_cons in Hs as [->|Hs].
  - rewrite bool_decide_eq_true_2 by reflexivity.
    rewrite (phases_abort_first w g _ _ _ _ _ text e Hd Hp).
    unfold logged. now rewrite app_nil_r.
  - apply list_elem_of_singleton in Hs. subst script.
    rewrite bool_decide_eq_false_2 by discriminate.
    rewrite (phases_abort_second w g _ _ _ _ _ _ text e (Hw eq_refl) Hd Hp).
    reflexivity.
Qed.

Lemma X22_full_restore_stops_when_backend_cannot_start_witness :
  ∃ g', full_restore world_cannot_start true (loaded "D:/pkg")
        = (inl "[WinError 2] The system cannot find the file specified", g')
        ∧ started g' = [] ∧ progress_label g' = "Ready".
Proof.
  eexists. split.
  - apply (X22_full_restore_stops_when_backend_cannot_start
             world_cannot_start (loaded "D:/pkg") "D:/pkg" winget_script).
    + reflexivity.
    + now left.
    + eexists. vm_compute. reflexivity.
    + reflexivity.
    + discriminate.
  - split; reflexivity.
Defined.


(** X24. With a package loaded whose Winget script is missing, Install
    via Winget only logs that the script was not found: no process is
    started and the progress label is left as it was. *)
Theorem X24_install_winget_reports_missing_script
  (w : World) (g : RestoreGUI) (path : string) :
  package_path g = Some path ->
  package_dir w !! winget_script = None ->
  install_winget w g = (inr tt, logged g ["Winget install script not found"]).
Proof.
  intros Hp Hd. unfold install_winget. rewrite Hp.
  now rewrite install_winget_thread_spec, Hd.
Qed.

Lemma X24_install_winget_reports_missing_script_witness :
  install_winget world_without_scripts (loaded "D:/pkg")
  = (inr tt, logged (loaded "D:/pkg") ["Winget install script not found"]).
Proof.
  apply (X24_install_winget_reports_missing_script
           world_without_scripts (loaded "D:/pkg") "D:/pkg"); reflexivity.
Defined.



Section software_tab.

Lemma count_method_app m (a b : list dict) :
  count_method m (a ++ b) = count_method m a + count_method m b.
Proof. unfold count_method. now rewrite List.filter_app, length_app. Qed.

Lemma count_method_store m (l : list dict) :
  count_method m (map store_item l) = if String.eqb "Store" m then length l else 0.
Proof.
  unfold count_method. induction l as [|x l IH]; [now destruct (String.eqb _ _)|].
  cbn [map List.filter].
  assert (eq_str (get (store_item x) "InstallMethod") m = String.eqb "Store" m)
    as -> by reflexivity.
  destruct (String.eqb "Store" m); cbn [length]; [f_equal|]; exact IH.
Qed.

Lemma count_method_cons m (x : dict) (data : list dict) :
  count_method m (x :: data)
  = (if eq_str (get x "InstallMethod") m then 1 else 0) + count_method m data.
Proof.
  unfold count_method. cbn [List.filter].
  now destruct (eq_str (get x "InstallMethod") m).
Qed.

Lemma eq_str_one (v : json) :
  (if eq_str v "Winget" then 1 else 0) + (if eq_str v "Chocolatey" then 1 else 0)
  + (if eq_str v "Store" then 1 else 0) + (if eq_str v "Manual" then 1 else 0) <= 1.
Proof.
  destruct v as [|b0|n0|r0|s|l0|d0]; cbn [eq_str]; try lia.
  destruct (String.eqb s "Winget") eqn:E1.
  { apply String.eqb_eq in E1. subst s. cbn. lia. }
  destruct (String.eqb s "Chocolatey") eqn:E2.
  { apply String.eqb_eq in E2. subst s. cbn. lia. }
  destruct (String.eqb s "Store") eqn:E3.
  { apply String.eqb_eq in E3. subst s. cbn. lia. }
  destruct (String.eqb s "Manual"); lia.
Qed.

(** An entry is counted under one method at most. *)
Lemma count_method_disjoint (data : list dict) :
  count_method "Winget" data + count_method "Chocolatey" data
  + count_method "Store" data + count_method "Manual" data <= length data.
Proof.
  induction data as [|x data IH]; [reflexivity|].
  rewrite !count_method_cons. cbn [length].
  pose proof (eq_str_one (get x "InstallMethod")). lia.
Qed.

(** The rows a refresh enters, after those it starts from. *)
Lemma refresh_loop_rows term toggle (data : list dict) :
  ∀ rows, ∃ new,
    rows_of (refresh_loop term toggle data rows) = rows ++ new
    ∧ Forall (fun row =>
                ∃ item s, item ∈ data ∧ row = software_row item
                  ∧ get_default item "SoftwareName" (JStr "") = JStr s
                  ∧ (term = "" ∨ str_in term (lower s) = true)
                  ∧ (toggle = true ->
                     eq_str (get_default item "InstallMethod" (JStr "Manual"))
                            "Manual" = false)) new.
Proof.
  induction data as [|item data IH]; intros rows.
  - exists []. split; [now rewrite app_nil_r|constructor].
  - cbn [refresh_loop].
    assert (∀ new : list (list json),
      Forall (fun row =>
                ∃ item0 s, item0 ∈ data ∧ row = software_row item0
                  ∧ get_default item0 "SoftwareName" (JStr "") = JStr s
                  ∧ (term = "" ∨ str_in term (lower s) = true)
                  ∧ (toggle = true ->
                     eq_str (get_default item0 "InstallMethod" (JStr "Manual"))
                            "Manual" = false)) new ->
      Forall (fun row =>
                ∃ item0 s, item0 ∈ item :: data ∧ row = software_row item0
                  ∧ get_default item0 "SoftwareName" (JStr "") = JStr s
                  ∧ (term = "" ∨ str_in term (lower s) = true)
                  ∧ (toggle = true ->
                     eq_str (get_default item0 "InstallMethod" (JStr "Manual"))
                            "Manual" = false)) new) as Hweak.
    { intros new F. apply (Forall_impl _ _ _ F). intros row (i0 & s & Hi & H).
      exists i0, s. split; [now right|exact H]. }
    destruct (get_default item "SoftwareName" (JStr "")) as [|b0|n0|r0|s|l0|d0] eqn:En;
      try (exists []; split; [now rewrite app_nil_r|constructor]).
    destruct (negb (String.eqb term "") && negb (str_in term (lower s))) eqn:Es.
    { destruct (IH rows) as (new & E & F). exists new. split; [exact E|auto]. }
    destruct (toggle && eq_str (get_default item "InstallMethod" (JStr "Manual"))
                               "Manual") eqn:Et.
    { destruct (IH rows) as (new & E & F). exists new. split; [exact E|auto]. }
    destruct (IH (rows ++ [software_row item])) as (new & E & F).
    exists (software_row item :: new). split.
    + rewrite E. now rewrite <- app_assoc.
    + constructor; [|auto].
      exists item, s. split; [now left|]. split; [reflexivity|].
      split; [exact En|]. split.
      * apply Bool.andb_false_iff in Es as [Es|Es].
        -- left. apply Bool.negb_false_iff, String.eqb_eq in Es. exact Es.
        -- right. now apply Bool.negb_false_iff in Es.
      * intros ->. exact Et.
Qed.

Lemma refresh_loop_all (data : list dict) :
  (∀ item, item ∈ data ->
     ∃ s, get_default item "SoftwareName" (JStr "") = JStr s) ->
  ∀ rows, refresh_loop "" false data rows
          = Displayed (rows ++ map software_row data).
Proof.
  induction data as [|item data IH]; intros H rows.
  - cbn. now rewrite app_nil_r.
  - cbn [refresh_loop map]. destruct (H item) as [s ->]; [now left|].
    cbn [String.eqb negb andb]. rewrite IH by (intros i Hi; apply H; now right).
    now rewrite <- app_assoc.
Qed.

End software_tab.

(** X26. The summary line of the software tab: the total counts every
    software entry and every store app of the package; every store app is
    counted under Store and under no other method; and the four method
    counts never add up to more than the total (an entry whose
    [InstallMethod] is missing or is none of the four is in the total
    only). *)
Theorem X26_software_summary_counts (sw apps : list dict) :
  let s := software_summary sw apps in
  total s = length sw + length apps
  ∧ store s = count_method "Store" sw + length apps
  ∧ winget s = count_method "Winget" sw
  ∧ chocolatey s = count_method "Chocolatey" sw
  ∧ manual s = count_method "Manual" sw
  ∧ winget s + chocolatey s + store s + manual s <= total s.
Proof.
  cbv zeta. unfold software_summary, all_software_data.
  cbn [total winget chocolatey store manual].
  rewrite !count_method_app, !count_method_store, length_app, length_map.
  cbn [String.eqb Ascii.eqb Bool.eqb].
  repeat split; try lia.
  pose proof (count_method_disjoint sw). lia.
Qed.

(** X27. Whatever the refresh of the software list displays, and whether
    it runs to its end or not, every row stands for an entry of the
    package whose name contains the lowered search text, and with the
    non-manual filter ticked no row has the install method Manual. *)
Theorem X27_software_list_shows_only_matching_rows
  (software_search : string) (show_all_methods : bool) (data : list dict)
  (row : list json) :
  row ∈ rows_of (refresh_software_display software_search show_all_methods data) ->
  ∃ item s,
    item ∈ data ∧ row = software_row item
    ∧ get_default item "SoftwareName" (JStr "") = JStr s
    ∧ str_in (lower software_search) (lower s) = true
    ∧ (show_all_methods = true -> row !! 2 ≠ Some (JStr "Manual")).
Proof.
  unfold refresh_software_display. intros Hrow.
  destruct (refresh_loop_rows (lower software_search) show_all_methods data [])
    as (new & E & F).
  rewrite E in Hrow. cbn [app] in Hrow.
  rewrite Forall_forall in F. destruct (F row Hrow) as (item & s & Hi & -> & Hn & Hs & Ht).
  exists item, s. repeat split; try assumption.
  - destruct Hs as [->|Hs]; [now destruct (lower s)|exact Hs].
  - intros Htoggle. specialize (Ht Htoggle). cbn. intros [= Hm].
    rewrite Hm in Ht. discriminate.
Qed.

Lemma X27_software_list_shows_only_matching_rows_witness :
  rows_of (refresh_software_display "Tool" true package_software)
  = [[JStr "Tool A"; JStr ""; JStr "Winget"; JStr "vendor.toola"]]
  ∧ ∃ item s, item ∈ package_software
      ∧ [JStr "Tool A"; JStr ""; JStr "Winget"; JStr "vendor.toola"]
        = software_row item
      ∧ get_default item "SoftwareName" (JStr "") = JStr s
      ∧ str_in (lower "Tool") (lower s) = true
      ∧ (true = true ->
         [JStr "Tool A"; JStr ""; JStr "Winget"; JStr "vendor.toola"] !! 2
         ≠ Some (JStr "Manual")).
Proof.
  assert (rows_of (refresh_software_display "Tool" true package_software)
          = [[JStr "Tool A"; JStr ""; JStr "Winget"; JStr "vendor.toola"]]) as Hr
    by (vm_compute; reflexivity).
  split; [exact Hr|].
  apply (X27_software_list_shows_only_matching_rows "Tool" true package_software).
  rewrite Hr. now left.
Defined.

(** X28. With an empty search box and the non-manual filter unticked, a
    package all of whose names are strings is listed whole: one row per
    entry, software first and store apps after, in the order of the
    package, as many rows as the summary line's total. *)
Theorem X28_unfiltered_software_list_is_whole (sw apps : list dict) :
  (∀ item, item ∈ all_software_data sw apps ->
     ∃ s, get_default item "SoftwareName" (JStr "") = JStr s) ->
  ∃ rows s,
    populate_software_list "" false sw apps = (Displayed rows, Some s)
    ∧ rows = map software_row sw ++ map software_row (map store_item apps)
    ∧ length rows = total s.
Proof.
  intros H. unfold populate_software_list, refresh_software_display.
  cbn [lower]. rewrite (refresh_loop_all _ H []). cbn [app].
  eexists _, _. split; [reflexivity|].
  unfold all_software_data. rewrite map_app. split; [reflexivity|].
  cbn [software_summary total]. unfold all_software_data.
  now rewrite !length_app, !length_map.
Qed.

Lemma X28_unfiltered_software_list_is_whole_witness :
  ∃ rows s,
    populate_software_list "" false package_software
      [[("Name", JStr "Photos"); ("PackageFamilyName", JStr "Vendor.Photos_8w")]]
    = (Displayed rows, Some s)
    ∧ length rows = 4 ∧ total s = 4.
Proof.
  destruct (X28_unfiltered_software_list_is_whole package_software
              [[("Name", JStr "Photos"); ("PackageFamilyName", JStr "Vendor.Photos_8w")]])
    as (rows & s & Hp & Hr & Hl).
  - intros item Hi. unfold all_software_data, package_software in Hi.
    cbn [map app] in Hi.
    repeat (apply elem_of_cons in Hi as [->|Hi]; [eexists; vm_compute; reflexivity|]).
    now apply elem_of_nil in Hi.
  - exists rows, s. split; [exact Hp|]. rewrite <- Hl, Hr.
    split; vm_compute; reflexivity.
Defined.

Section options.

Lemma keys_seven (opts : list (string * bool)) (k1 k2 k3 k4 k5 k6 k7 : string) :
  opts.*1 = [k1; k2; k3; k4; k5; k6; k7] ->
  ∃ b1 b2 b3 b4 b5 b6 b7,
    opts = [(k1, b1); (k2, b2); (k3, b3); (k4, b4); (k5, b5); (k6, b6); (k7, b7)].
Proof.
  intros H.
  do 7 (destruct opts as [|[? ?] opts]; [discriminate|]).
  destruct opts; [|discriminate].
  cbn in H. injection H as -> -> -> -> -> -> ->.
  now eexists _, _, _, _, _, _, _.
Qed.

End options.

(** X29. Use Recommended Defaults brings the restore options back to the
    values they are created with, whatever was ticked before, also after
    Restore Everything has ticked them all. *)
Theorem X29_recommended_defaults_are_the_initial_options
  (restore_options : list (string * bool)) :
  restore_options.*1 = options_list.*1 ->
  set_recommended_options restore_options = options_list
  ∧ set_recommended_options (set_all_options restore_options) = options_list
  ∧ set_all_options restore_options = map (fun kv => (kv.1, true)) options_list.
Proof.
  intros H. apply keys_seven in H as (b1 & b2 & b3 & b4 & b5 & b6 & b7 & ->).
  repeat split; vm_compute; reflexivity.
Qed.

Lemma X29_recommended_defaults_are_the_initial_options_witness :
  set_recommended_options (map (fun kv => (kv.1, negb kv.2)) options_list)
  = options_list.
Proof.
  apply (X29_recommended_defaults_are_the_initial_options
           (map (fun kv => (kv.1, negb kv.2)) options_list)).
  vm_compute. reflexivity.
Defined.

(** X30. Loading a package that the scanner exported sets each option of
    the restore program's Configuration tab to the value the package
    records for it; the scanner's [services] choice has no option there
    and is dropped, and the [wifi] option, which the scanner never writes,
    keeps the value it had. *)
Theorem X30_config_options_follow_the_package
  (pkg_configs config_vars : list (string * bool)) :
  pkg_configs.*1 = Scanner.config_keys ->
  config_vars.*1 = config_var_keys ->
  let vars := update_config_options pkg_configs config_vars in
  vars.*1 = config_var_keys
  ∧ (∀ k, k ∈ config_var_keys -> k ≠ "wifi" ->
          od_get vars k = od_get pkg_configs k)
  ∧ od_get vars "wifi" = od_get config_vars "wifi"
  ∧ "services" ∈ pkg_configs.*1 ∧ ("services" ∉ vars.*1).
Proof.
  intros Hc Hv. cbv zeta.
  do 12 (destruct pkg_configs as [|[? ?] pkg_configs]; [discriminate|]).
  destruct pkg_configs; [|discriminate].
  do 12 (destruct config_vars as [|[? ?] config_vars]; [discriminate|]).
  destruct config_vars; [|discriminate].
  cbn in Hc, Hv. unfold Scanner.config_keys in Hc. unfold config_var_keys in Hv.
  injection Hc as -> -> -> -> -> -> -> -> -> -> -> ->.
  injection Hv as -> -> -> -> -> -> -> -> -> -> -> ->.
  split; [vm_compute; reflexivity|]. split.
  - intros k Hk Hn. unfold config_var_keys in Hk.
    repeat (apply elem_of_cons in Hk as [->|Hk];
            [first [vm_compute; reflexivity | congruence]|]).
    now apply elem_of_nil in Hk.
  - split; [vm_compute; reflexivity|]. split.
    + apply (bool_decide_unpack _). vm_compute. exact I.
    + apply (bool_decide_unpack _). vm_compute. exact I.
Qed.

Lemma X30_config_options_follow_the_package_witness :
  let vars := update_config_options
                (map (fun k => (k, false)) Scanner.config_keys)
                (map (fun k => (k, true)) config_var_keys) in
  od_get vars "network" = Some false ∧ od_get vars "wifi" = Some true.
Proof.
  intros vars.
  destruct (X30_config_options_follow_the_package
              (map (fun k => (k, false)) Scanner.config_keys)
              (map (fun k => (k, true)) config_var_keys))
    as (_ & Hk & Hw & _).
  - vm_compute. reflexivity.
  - vm_compute. reflexivity.
  - unfold vars. split.
    + rewrite (Hk "network").
      * vm_compute. reflexivity.
      * apply (bool_decide_unpack _). vm_compute. exact I.
      * discriminate.
    + rewrite Hw. vm_compute. reflexivity.
Defined.
